(** * StyleStats analysis engine: a shallow embedding of the analyzer

    The development follows the source of [Analyzer] top-down: JavaScript
    strings and the string methods the analyzer calls, a backtracking
    matcher for the regular expressions written in the source, the array
    helpers ([sort], [slice], [shift], underscore's [uniq] and [sortBy]),
    plain objects used as dictionaries, the three analyzers and finally
    [Analyzer.prototype.analyze].

    Modelling conventions.
    - A JavaScript string is a [string] of 8-bit characters; the analyzer is
      followed on ASCII stylesheets (case mapping and white space are the
      ASCII ones).
    - Counts and sizes are natural numbers; a quotient of two of them is a
      [jsquot], which keeps the two special results of a division by zero.
    - A thrown exception is the [Throw] case of [result].
    - A plain object used as a dictionary is the list of its own
      properties in creation order; reading a key also sees the members
      every object inherits from [Object.prototype].
    - The selector parser, the pattern compiler [new RegExp] and the
      compression function are parameters of the analyzer. *)

From Stdlib Require Import List String Ascii Bool Arith ZArith Lia.
From Stdlib Require Import Permutation Sorted.
Import ListNotations.

Local Open Scope string_scope.
Local Open Scope list_scope.
Local Open Scope nat_scope.

Set Implicit Arguments.

(* ------------------------------------------------------------------ *)
(** ** Exceptions *)

Inductive error : Type :=
| SyntaxError        (* new RegExp on an ill-formed pattern *)
| SelectorParseError (* thrown by the selector parser *)
| TypeError          (* a method called on a value that lacks it *)
| GzipError.         (* thrown by gzipSize.sync *)

Inductive result (A : Type) : Type :=
| Ok (a : A)
| Throw (e : error).

Arguments Ok {A} a.
Arguments Throw {A} e.

Definition bind {A B : Type} (r : result A) (k : A -> result B) : result B :=
  match r with
  | Ok a => k a
  | Throw e => Throw e
  end.

Notation "'do' x <- r ; k" := (bind r (fun x => k))
  (at level 10, x name, r at level 100, k at level 200).

(** [forEach] with a callback that may throw: left to right, stops at the
    first exception. *)
Fixpoint foldM {A S : Type} (f : S -> A -> result S) (l : list A) (s : S)
  : result S :=
  match l with
  | [] => Ok s
  | x :: l' => do s' <- f s x; foldM f l' s'
  end.

(* ------------------------------------------------------------------ *)
(** ** Characters and strings *)

Module Chars.

Definition code (c : ascii) : nat := nat_of_ascii c.

Definition between (lo hi : nat) (c : ascii) : bool :=
  (lo <=? code c) && (code c <=? hi).

Definition is_digit : ascii -> bool := between 48 57.
Definition is_upper : ascii -> bool := between 65 90.
Definition is_lower : ascii -> bool := between 97 122.

(** [\w] is [[A-Za-z0-9_]]. *)
Definition is_word (c : ascii) : bool :=
  is_upper c || is_lower c || is_digit c || (code c =? 95).

(** [\s] and [trim]: tab, line feed, vertical tab, form feed, carriage
    return and space. *)
Definition is_space (c : ascii) : bool :=
  between 9 13 c || (code c =? 32).

Definition lit (x : ascii) (c : ascii) : bool := Ascii.eqb x c.

Definition one_of (s : string) (c : ascii) : bool :=
  existsb (Ascii.eqb c) (list_ascii_of_string s).

Definition upper (c : ascii) : ascii :=
  if is_lower c then ascii_of_nat (code c - 32) else c.

(** A literal character under the [i] flag. *)
Definition is_ci (x : ascii) (c : ascii) : bool :=
  Ascii.eqb (upper x) (upper c).

End Chars.

Module Str.

Definition chars : string -> list ascii := list_ascii_of_string.
Definition of_chars : list ascii -> string := string_of_list_ascii.

(** [s.toUpperCase()] *)
Definition toUpperCase (s : string) : string :=
  of_chars (map Chars.upper (chars s)).

Fixpoint trim_start (l : list ascii) : list ascii :=
  match l with
  | c :: l' => if Chars.is_space c then trim_start l' else l
  | [] => []
  end.

(** [s.trim()] *)
Definition trim (s : string) : string :=
  of_chars (rev (trim_start (rev (trim_start (chars s))))).

Fixpoint starts_with (p l : list ascii) : bool :=
  match p, l with
  | [], _ => true
  | x :: p', y :: l' => Ascii.eqb x y && starts_with p' l'
  | _ :: _, [] => false
  end.

Fixpoint contains_chars (p l : list ascii) : bool :=
  starts_with p l ||
  match l with
  | [] => false
  | _ :: l' => contains_chars p l'
  end.

(** [s.indexOf(p) > -1] *)
Definition contains (p s : string) : bool :=
  contains_chars (chars p) (chars s).

(** [s.slice(1)] *)
Definition slice1 (s : string) : string :=
  match s with
  | EmptyString => EmptyString
  | String _ s' => s'
  end.

(** Strict comparison [a < b] of two strings: by code units. *)
Fixpoint lt_chars (a b : list ascii) : bool :=
  match a, b with
  | _, [] => false
  | [], _ :: _ => true
  | x :: a', y :: b' =>
      if Chars.code x <? Chars.code y then true
      else if Chars.code y <? Chars.code x then false
      else lt_chars a' b'
  end.

Definition ltb (a b : string) : bool := lt_chars (chars a) (chars b).

End Str.

(* ------------------------------------------------------------------ *)
(** ** Regular expressions

    The patterns of the source are written as terms of [re]; the matcher
    is the backtracking one of the language: alternatives and greedy
    repetitions are tried in priority order and the first success wins. *)

Module Regex.

Inductive re : Type :=
| Empty                      (* the empty pattern, (?:)              *)
| Char (p : ascii -> bool)   (* one character: literal, class, \s... *)
| Cat (r1 r2 : re)           (* r1 r2                                *)
| Or (r1 r2 : re)            (* r1|r2                                *)
| Star (r : re)              (* r*, greedy                           *)
| Cap (n : nat) (r : re)     (* the n-th capturing group (r)         *)
| Bol                        (* ^ without the m flag                 *)
| Eol                        (* $ without the m flag                 *)
| WordB.                     (* \b                                   *)

(** Derived forms. *)
Definition Opt (r : re) : re := Or r Empty.             (* r?  *)
Definition Plus (r : re) : re := Cat r (Star r).        (* r+  *)

Fixpoint UpTo (n : nat) (r : re) : re :=                (* r{0,n} *)
  match n with
  | 0 => Empty
  | S n' => Opt (Cat r (UpTo n' r))
  end.

Fixpoint Rep (m n : nat) (r : re) : re :=               (* r{m,m+n} *)
  match m with
  | 0 => UpTo n r
  | S m' => Cat r (Rep m' n r)
  end.

Fixpoint Lit_chars (ci : bool) (l : list ascii) : re :=
  match l with
  | [] => Empty
  | c :: l' => Cat (Char (if ci then Chars.is_ci c else Chars.lit c))
                   (Lit_chars ci l')
  end.

Definition Seq (l : list re) : re := fold_right Cat Empty l.

(** The identifiers of the capturing groups of a pattern. *)
Fixpoint groups (r : re) : list nat :=
  match r with
  | Cat r1 r2 | Or r1 r2 => groups r1 ++ groups r2
  | Star r1 => groups r1
  | Cap n r1 => n :: groups r1
  | Empty | Char _ | Bol | Eol | WordB => []
  end.

(** The number of capturing groups: groups are numbered from 1. *)
Definition ngroups (r : re) : nat := fold_right Nat.max 0 (groups r).

(** A literal word. *)
Definition Lit (s : string) : re := Lit_chars false (Str.chars s).
(** A literal word under the [i] flag. *)
Definition Lit_i (s : string) : re := Lit_chars true (Str.chars s).

(** A position in the subject: the characters already passed (nearest
    first), the characters ahead, and the captures made so far. *)
Record mstate : Type := MState {
  before : list ascii;
  after : list ascii;
  caps : list (nat * string)
}.

Definition index (st : mstate) : nat := List.length (before st).

(** The text between two positions of one subject. *)
Definition text_between (st st' : mstate) : string :=
  Str.of_chars (firstn (index st' - index st) (after st)).

(** Entering an iteration of [r*] forgets the captures of the groups
    inside [r]. *)
Definition forget (r : re) (st : mstate) : mstate :=
  MState (before st) (after st)
    (filter (fun p => negb (existsb (Nat.eqb (fst p)) (groups r))) (caps st)).

Definition at_word_boundary (st : mstate) : bool :=
  let a := match before st with c :: _ => Chars.is_word c | [] => false end in
  let b := match after st with c :: _ => Chars.is_word c | [] => false end in
  xorb a b.

(** [rmatch r k st]: match [r] at [st], then continue with [k]. *)
Fixpoint rmatch (r : re) (k : mstate -> option mstate) (st : mstate)
  {struct r} : option mstate :=
  match r with
  | Empty => k st
  | Char p =>
      match after st with
      | c :: rest =>
          if p c then k (MState (c :: before st) rest (caps st)) else None
      | [] => None
      end
  | Cat r1 r2 => rmatch r1 (rmatch r2 k) st
  | Or r1 r2 =>
      match rmatch r1 k st with
      | Some st' => Some st'
      | None => rmatch r2 k st
      end
  | Star r1 =>
      (fix loop (fuel : nat) (st0 : mstate) {struct fuel} : option mstate :=
         match fuel with
         | 0 => k st0
         | S fuel' =>
             match rmatch r1
                     (fun st1 =>
                        (* an iteration that consumes nothing is refused *)
                        if List.length (after st1) <? List.length (after st0)
                        then loop fuel' st1 else None) (forget r1 st0) with
             | Some st' => Some st'
             | None => k st0
             end
         end) (S (List.length (after st))) st
  | Cap n r1 =>
      rmatch r1
        (fun st1 =>
           k (MState (before st1) (after st1)
                     ((n, text_between st st1) :: caps st1))) st
  | Bol => match before st with [] => k st | _ :: _ => None end
  | Eol => match after st with [] => k st | _ :: _ => None end
  | WordB => if at_word_boundary st then k st else None
  end.

(** A match attempt anchored at the position [st]. *)
Definition match_at (r : re) (st : mstate) : option mstate :=
  rmatch r Some (MState (before st) (after st) []).

(** A successful match: where it starts and where it ends. *)
Record found : Type := Found {
  start : mstate;
  stop : mstate
}.

(** The leftmost match at or after the position ([pre], [suf]). *)
Fixpoint search (r : re) (pre suf : list ascii) {struct suf} : option found :=
  match match_at r (MState pre suf []) with
  | Some st' => Some (Found (MState pre suf []) st')
  | None =>
      match suf with
      | [] => None
      | c :: suf' => search r (c :: pre) suf'
      end
  end.

Definition search_from (r : re) (i : nat) (s : string) : option found :=
  let l := Str.chars s in
  search r (rev (firstn i l)) (skipn i l).

(** The value of capture group [n]: [None] is [undefined]. *)
Definition group (n : nat) (f : found) : option string :=
  option_map snd (find (fun p => Nat.eqb (fst p) n) (caps (stop f))).

(** The matched text, [m[0]]. *)
Definition whole (f : found) : string := text_between (start f) (stop f).

(** [s.match(r)] for a pattern without the [g] flag. *)
Definition exec (r : re) (s : string) : option found := search_from r 0 s.

(** [r.test(s)] for a pattern without the [g] flag. *)
Definition test (r : re) (s : string) : bool :=
  match exec r s with Some _ => true | None => false end.

(** [r.test(s)] for a pattern with the [g] flag: the search starts at
    [lastIndex]; a success leaves [lastIndex] at the end of the match, a
    failure resets it to 0.  Returns the answer and the new [lastIndex]. *)
Definition test_g (r : re) (lastIndex : nat) (s : string) : bool * nat :=
  if String.length s <? lastIndex then (false, 0)
  else
    match search_from r lastIndex s with
    | Some f => (true, index (stop f))
    | None => (false, 0)
    end.

(** Replacement text: literal pieces and group references [$n]. *)
Inductive piece : Type :=
| Text (s : string)
| Ref (n : nat).

Definition expand_piece (f : found) (p : piece) : list ascii :=
  match p with
  | Text s => Str.chars s
  | Ref n => match group n f with Some s => Str.chars s | None => [] end
  end.

Definition expand (tmpl : list piece) (f : found) : list ascii :=
  flat_map (expand_piece f) tmpl.

(** The subject text from position [pre]/[suf] up to the start of [f]. *)
Definition skipped (pre suf : list ascii) (f : found) : list ascii :=
  firstn (index (start f) - List.length pre) suf.

(** [s.replace(r, tmpl)] for a pattern without the [g] flag: the first
    match only. *)
Definition replace (r : re) (tmpl : list piece) (s : string) : string :=
  match exec r s with
  | None => s
  | Some f =>
      Str.of_chars (skipped [] (Str.chars s) f ++ expand tmpl f
                      ++ after (stop f))
  end.

(** [s.replace(r, tmpl)] for a pattern with the [g] flag: every match,
    left to right; after an empty match the search resumes one character
    further. *)
Fixpoint replace_loop (fuel : nat) (r : re) (tmpl : list piece)
  (pre suf : list ascii) : list ascii :=
  match fuel with
  | 0 => suf
  | S fuel' =>
      match search r pre suf with
      | None => suf
      | Some f =>
          skipped pre suf f ++ expand tmpl f ++
          (if index (stop f) =? index (start f)
           then match after (stop f) with
                | [] => []
                | c :: rest =>
                    c :: replace_loop fuel' r tmpl (c :: before (stop f)) rest
                end
           else replace_loop fuel' r tmpl (before (stop f)) (after (stop f)))
      end
  end.

Definition replace_g (r : re) (tmpl : list piece) (s : string) : string :=
  Str.of_chars (replace_loop (S (String.length s)) r tmpl [] (Str.chars s)).

(** [s.split(r)] for a pattern without capturing groups.  [cur] holds the
    characters of the piece being built (latest first); a match that is
    empty and sits at the start of the piece is skipped. *)
Fixpoint split_loop (fuel : nat) (r : re) (cur pre suf : list ascii)
  : list string :=
  match fuel with
  | 0 => [Str.of_chars (rev cur ++ suf)]
  | S fuel' =>
      match suf with
      | [] => [Str.of_chars (rev cur)]
      | c :: suf' =>
          match match_at r (MState pre suf []) with
          | None => split_loop fuel' r (c :: cur) (c :: pre) suf'
          | Some st' =>
              if (index st' =? List.length pre) &&
                 match cur with [] => true | _ :: _ => false end
              then split_loop fuel' r (c :: cur) (c :: pre) suf'
              else Str.of_chars (rev cur)
                     :: split_loop fuel' r [] (before st') (after st')
          end
      end
  end.

Definition split (r : re) (s : string) : list string :=
  match s with
  | EmptyString =>
      match match_at r (MState [] [] []) with
      | Some _ => []
      | None => [EmptyString]
      end
  | String _ _ =>
      split_loop (2 * String.length s + 2) r [] [] (Str.chars s)
  end.

End Regex.

(* ------------------------------------------------------------------ *)
(** ** Arrays *)

Module Arr.

Section Sort.
Variable A : Type.
(** [later x y]: the comparator puts [x] after [y], i.e. it returns a
    positive number on [(x, y)]. *)
Variable later : A -> A -> bool.

(** A stable sort: an element moves behind the elements that followed
    it only where the comparator says so. *)
Fixpoint insert (x : A) (l : list A) : list A :=
  match l with
  | [] => [x]
  | y :: l' => if later x y then y :: insert x l' else x :: l
  end.

Definition isort (l : list A) : list A := fold_right insert [] l.
End Sort.

(** [l.sort(cmp)] with a numeric comparator. *)
Definition sort {A : Type} (cmp : A -> A -> Z) (l : list A) : list A :=
  isort (fun x y => (0 <? cmp x y)%Z) l.

(** [l.slice(0, e)] *)
Definition slice0 {A : Type} (e : Z) (l : list A) : list A :=
  if (e <? 0)%Z
  then firstn (Z.to_nat (Z.of_nat (List.length l) + e)) l
  else firstn (Z.to_nat e) l.

(** [l.shift()]: the removed head ([None] is [undefined]) and the list
    left behind. *)
Definition shift {A : Type} (l : list A) : option A * list A :=
  (hd_error l, tl l).

Definition contains (l : list string) (x : string) : bool :=
  existsb (String.eqb x) l.

(** [_.uniq(l)] *)
Definition uniq (l : list string) : list string :=
  fold_left (fun result value =>
               if contains result value then result else result ++ [value])
            l [].

(** [_.sortBy(l)]: ascending by [<] on strings, ties in input order. *)
Definition sortBy (l : list string) : list string :=
  isort (fun x y => Str.ltb y x) l.

End Arr.

(* ------------------------------------------------------------------ *)
(** ** Numbers *)

Module Num.

(** The value a dictionary of the analyzer can hold under a key. *)
Inductive count : Type :=
| Num (n : nat)
| NaN
| Src (member : string) (ones : nat).
  (* the source text of Object.prototype[member] followed by [ones]
     characters 1 *)

Definition truthy (c : count) : bool :=
  match c with
  | Num n => negb (n =? 0)
  | NaN => false
  | Src _ _ => true
  end.

(** [++c] *)
Definition incr (c : count) : count :=
  match c with
  | Num n => Num (S n)
  | NaN | Src _ _ => NaN
  end.

(** [c + 1] *)
Definition plus1 (c : count) : count :=
  match c with
  | Num n => Num (S n)
  | NaN => NaN
  | Src m k => Src m (S k)
  end.

(** [b - a]; [NaN] is read as 0, as [sort] reads it. *)
Definition minus (b a : count) : Z :=
  match b, a with
  | Num y, Num x => (Z.of_nat y - Z.of_nat x)%Z
  | _, _ => 0%Z
  end.

(** The quotient [n / d] of two counts. *)
Inductive jsquot : Type :=
| Quot (n d : nat)   (* the number nearest to n/d, for d <> 0 *)
| Infinity           (* n / 0 for n <> 0 *)
| QNaN.              (* 0 / 0 *)

Definition div (n d : nat) : jsquot :=
  if d =? 0 then (if n =? 0 then QNaN else Infinity) else Quot n d.

(** The 32-bit signed reading of an integer. *)
Definition int32 (z : Z) : Z :=
  ((z + 2147483648) mod 4294967296 - 2147483648)%Z.

(** [x << k] *)
Definition shl (x : Z) (k : Z) : Z := int32 (Z.shiftl x k).

(** A string of decimal digits read as a number: [s * 1]. *)
Definition of_digits (s : string) : Z :=
  fold_left (fun acc c => (10 * acc + (Z.of_nat (Chars.code c) - 48))%Z)
            (Str.chars s) 0%Z.

Definition hex_digit (d : Z) : ascii :=
  nth (Z.to_nat d) (Str.chars "0123456789abcdef") "0"%char.

Fixpoint hex_chars (fuel : nat) (z : Z) : list ascii :=
  match fuel with
  | 0 => []
  | S fuel' =>
      if (z <? 16)%Z then [hex_digit z]
      else hex_chars fuel' (z / 16)%Z ++ [hex_digit (z mod 16)%Z]
  end.

(** [z.toString(16)] for [z >= 0] *)
Definition toString16 (z : Z) : string :=
  Str.of_chars (hex_chars (S (Z.to_nat (Z.log2 z))) z).

(** A decimal literal made of digits and dots only, as [s - 0] reads it:
    [Some (m, e)] is the number m / 10^e, [None] is NaN. *)
Definition all_digits (l : list ascii) : bool :=
  forallb Chars.is_digit l.

Fixpoint split_dot (l : list ascii) : list ascii * option (list ascii) :=
  match l with
  | [] => ([], None)
  | c :: l' =>
      if Chars.lit "." c then ([], Some l')
      else let (i, f) := split_dot l' in (c :: i, f)
  end.

Definition digits_value (l : list ascii) : Z := of_digits (Str.of_chars l).

Definition of_decimal (s : string) : option (Z * nat) :=
  match split_dot (Str.chars s) with
  | (i, None) => if all_digits i then Some (digits_value i, 0) else None
  | (i, Some f) =>
      if all_digits i && all_digits f
         && negb ((List.length i =? 0) && (List.length f =? 0))
      then Some (digits_value (i ++ f), List.length f)
      else None
  end.

(** [a > b] on two such numbers; false when either is NaN. *)
Definition gtb (a b : option (Z * nat)) : bool :=
  match a, b with
  | Some (ma, ea), Some (mb, eb) =>
      (mb * 10 ^ Z.of_nat ea <? ma * 10 ^ Z.of_nat eb)%Z
  | _, _ => false
  end.

End Num.

(* ------------------------------------------------------------------ *)
(** ** Plain objects used as dictionaries *)

Module Obj.

(** The own properties, in creation order. *)
Definition t (V : Type) : Type := list (string * V).

(** What every plain object inherits. *)
Definition Object_prototype : list string :=
  [ "constructor"; "__defineGetter__"; "__defineSetter__";
    "hasOwnProperty"; "__lookupGetter__"; "__lookupSetter__";
    "isPrototypeOf"; "propertyIsEnumerable"; "toString"; "valueOf";
    "__proto__"; "toLocaleString" ].

Definition inherited (k : string) : bool :=
  existsb (String.eqb k) Object_prototype.

Definition own {V : Type} (k : string) (o : t V) : option V :=
  option_map snd (find (fun p => String.eqb (fst p) k) o).

(** The three outcomes of reading [o[k]]. *)
Inductive lookup (V : Type) : Type :=
| Own (v : V)
| Inherited
| Undefined.

Arguments Own {V} v.
Arguments Inherited {V}.
Arguments Undefined {V}.

Definition get {V : Type} (k : string) (o : t V) : lookup V :=
  match own k o with
  | Some v => Own v
  | None => if inherited k then Inherited else Undefined
  end.

Fixpoint put {V : Type} (k : string) (v : V) (o : t V) : t V :=
  match o with
  | [] => [(k, v)]
  | (k', v') :: o' =>
      if String.eqb k' k then (k, v) :: o' else (k', v') :: put k v o'
  end.

(** [o[k] = v] for a primitive [v]: the setter of [__proto__] ignores
    it. *)
Definition set {V : Type} (k : string) (v : V) (o : t V) : t V :=
  if String.eqb k "__proto__" then o else put k v o.

(** A key that is an array index: a canonical decimal below 2^32 - 1. *)
Definition index_key (k : string) : option Z :=
  match Str.chars k with
  | [] => None
  | c :: l =>
      if forallb Chars.is_digit (c :: l)
         && (negb (Chars.lit "0" c) || (List.length l =? 0))
         && (List.length (c :: l) <=? 10)
         && (Num.of_digits k <? 4294967295)%Z
      then Some (Num.of_digits k) else None
  end.

Definition is_index (k : string) : bool :=
  match index_key k with Some _ => true | None => false end.

Definition index_value (k : string) : Z :=
  match index_key k with Some z => z | None => 0%Z end.

(** [Object.keys(o)]: the array indices in ascending order, then the
    other keys in creation order. *)
Definition keys {V : Type} (o : t V) : list string :=
  Arr.isort (fun x y => (index_value y <? index_value x)%Z)
            (filter is_index (map fst o))
  ++ filter (fun k => negb (is_index k)) (map fst o).

End Obj.

(* ------------------------------------------------------------------ *)
(** ** Data model *)

(** The location token of a declaration: compared by identity only. *)
Definition Source : Type := nat.

Module Declaration.
Record t : Type := Make {
  property : string;
  value : string;
  source : Source
}.
End Declaration.

Module Rule.
(** [declarations] is [None] for a node that carries no declaration
    array (an at-rule with nested rules, a comment). *)
Record t : Type := Make {
  selectors : list string;
  declarations : option (list Declaration.t)
}.
End Rule.

(** One node of the chain the selector parser returns; an absent member
    is [None]. *)
Module SelectorNode.
Record t : Type := Make {
  id : option string;
  classNames : option (list string);
  tagName : option string;
  attrs : option (list string)
}.
End SelectorNode.

Module SourceMap.
(** [values]: group name, then item, then the sources seen. *)
Record t : Type := Make {
  values : Obj.t (Obj.t (list Source))
}.
End SourceMap.

Module Options.
(** An option that is only tested is recorded by its truth value.
    [mostIdentifierCount] and [propertiesCount] are numbers ([false] and
    an absent option act as 0, [true] as 1).
    [javascriptSpecificSelectors] is a pattern source or absent. *)
Record t : Type := Make {
  size : bool;
  dataUriSize : bool;
  ratioOfDataUriSize : bool;
  gzippedSize : bool;
  rules : bool;
  selectors : bool;
  simplicity : bool;
  mostIdentifierSelector : bool;
  mostIdentifierCount : Z;
  mostIdentifier : bool;
  lowestCohesion : bool;
  lowestCohesionSelector : bool;
  totalUniqueFontSizes : bool;
  uniqueFontSize : bool;
  uniqueFontSizeDic : bool;
  totalUniqueFontFamilies : bool;
  uniqueFontFamily : bool;
  uniqueFontFamilyDic : bool;
  totalUniqueColors : bool;
  uniqueColor : bool;
  uniqueColorDic : bool;
  idSelectors : bool;
  universalSelectors : bool;
  unqualifiedAttributeSelectors : bool;
  attributeSelectors : bool;
  elementSelectors : bool;
  classSelectors : bool;
  javascriptSpecificSelectors : option string;
  importantKeywords : bool;
  floatProperties : bool;
  propertiesCount : Z;
  sourceMap : bool;
  namedColors : list string
}.
End Options.

(** Truth value of a string option. *)
Definition truthy_string (o : option string) : bool :=
  match o with
  | Some s => negb (String.eqb s "")
  | None => false
  end.

(** Truth value of a numeric option. *)
Definition truthy_number (z : Z) : bool := negb (z =? 0)%Z.

(** An entry [{selector, count}] of [cssDeclarations]: the selector list
    of a rule and its number of declarations. *)
Module RuleCount.
Record t : Type := Make {
  selector : list string;
  count : nat
}.
End RuleCount.

(** An entry [{selector, count}] of [identifiers]. *)
Module Identifier.
Record t : Type := Make {
  selector : string;
  count : nat
}.
End Identifier.

(** An entry [{property, count}] of the property statistics. *)
Module PropertyCount.
Record t : Type := Make {
  property : string;
  count : Num.count
}.
End PropertyCount.

(** The object [analyze] returns: a member that was not assigned is
    [None]. *)
Module Analysis.
Record t : Type := Make {
  size : option nat;
  dataUriSize : option nat;
  ratioOfDataUriSize : option Num.jsquot;
  gzippedSize : option nat;
  rules : option nat;
  selectors : option nat;
  simplicity : option Num.jsquot;
  mostIdentifierSelector : option (list string);
  mostIdentifier : option nat;
  lowestCohesion : option nat;
  lowestCohesionSelector : option (list string);
  totalUniqueFontSizes : option nat;
  uniqueFontSize : option (list string);
  uniqueFontSizeDic : option (Obj.t Num.count);
  totalUniqueFontFamilies : option nat;
  uniqueFontFamily : option (list string);
  uniqueFontFamilyDic : option (Obj.t Num.count);
  totalUniqueColors : option nat;
  uniqueColor : option (list string);
  uniqueColorDic : option (Obj.t Num.count);
  idSelectors : option nat;
  universalSelectors : option nat;
  unqualifiedAttributeSelectors : option nat;
  attributeSelectors : option nat;
  elementSelectors : option nat;
  classSelectors : option nat;
  javascriptSpecificSelectors : option nat;
  importantKeywords : option nat;
  floatProperties : option nat;
  propertiesCount : option (list PropertyCount.t);
  sourceMap : option SourceMap.t
}.
End Analysis.

(** [if (flag) analysis.member = v] *)
Definition when {A : Type} (flag : bool) (v : A) : option A :=
  if flag then Some v else None.

(* ------------------------------------------------------------------ *)
(** ** The patterns written in the source *)

Module Patterns.
Import Regex.

Definition ws : re := Char Chars.is_space.                     (* \s *)
Definition digit : re := Char Chars.is_digit.                  (* \d *)
Definition word : re := Char Chars.is_word.                    (* \w *)
Definition chr (c : ascii) : re := Char (Chars.lit c).
(** [.]: any character but a line terminator. *)
Definition dot : re :=
  Char (fun c => negb (Chars.lit "010" c || Chars.lit "013" c)).

(** [/rgba*\(\s*(\d{1,3})\s*,\s*(\d{1,3})\s*,\s*(\d{1,3})\s*,\s*.*\)/] *)
Definition rgbRegex : re :=
  Seq [ Lit "rgb"; Star (chr "a"); chr "(";
        Star ws; Cap 1 (Rep 1 2 digit); Star ws; chr ","; 
        Star ws; Cap 2 (Rep 1 2 digit); Star ws; chr ",";
        Star ws; Cap 3 (Rep 1 2 digit); Star ws; chr ",";
        Star ws; Star dot; chr ")" ].

(** [hexColorRegex]: the character [#], then group 1 holding [\w*]. *)
Definition hexColorRegex : re := Cat (chr "#") (Cap 1 (Star word)).

(** [/gradient/] *)
Definition gradientRegex : re := Lit "gradient".

(** [/^color$|^background$|^background-color$|^border/] *)
Definition colorPropertyRegex : re :=
  Or (Seq [Bol; Lit "color"; Eol])
     (Or (Seq [Bol; Lit "background"; Eol])
         (Or (Seq [Bol; Lit "background-color"; Eol])
             (Seq [Bol; Lit "border"]))).

(** [/data\:image\/[A-Za-z0-9;,\+\=\/]+/] *)
Definition dataUriRegex : re :=
  Cat (Lit "data:image/")
      (Plus (Char (fun c => Chars.is_upper c || Chars.is_lower c
                            || Chars.is_digit c || Chars.one_of ";,+=/" c))).

(** [/(\!important)/g] *)
Definition importantGroupRegex : re := Cap 1 (Lit "!important").

(** [/\!important/] *)
Definition importantRegex : re := Lit "!important".

(** [/^#([0-9A-F]){3}$/] *)
Definition shortHexRegex : re :=
  Seq [ Bol; chr "#";
        Rep 3 0 (Cap 1 (Char (fun c => Chars.is_digit c
                                       || Chars.between 65 70 c)));
        Eol ].

(** [/^#(\w)(\w)(\w)$/] *)
Definition hexDigitsRegex : re :=
  Seq [ Bol; chr "#"; Cap 1 word; Cap 2 word; Cap 3 word; Eol ].

(** ['#$1$1$2$2$3$3'] *)
Definition hexDoubled : list piece :=
  [Text "#"; Ref 1; Ref 1; Ref 2; Ref 2; Ref 3; Ref 3].

(** [/[^0-9\.]/g] *)
Definition notNumericRegex : re :=
  Char (fun c => negb (Chars.is_digit c || Chars.lit "." c)).

(** [/\s?([\>|\+|\~])\s?/g]: the class holds the four characters
    [>], [|], [+] and [~]. *)
Definition combinatorRegex : re :=
  Seq [ Opt ws; Cap 1 (Char (Chars.one_of ">|+~")); Opt ws ].

(** [/\s+/g] *)
Definition spacesRegex : re := Plus ws.

(** [/\s|\>|\+|\~/] *)
Definition separatorRegex : re :=
  Or ws (Or (chr ">") (Or (chr "+") (chr "~"))).

End Patterns.

(* ------------------------------------------------------------------ *)
(** ** The analyzer *)

(** [rgbToHex(r, g, b)]: the arguments are the captured digit strings. *)
Definition rgbToHex (r g b : string) : string :=
  ("#" ++ Str.slice1
            (Num.toString16
               (Num.shl 1 24 + Num.shl (Num.of_digits r * 1) 16
                + Num.shl (Num.of_digits g * 1) 8 + Num.of_digits b * 1)%Z))%string.

(** *** Rules *)

Module RuleAnalysis.
Record t : Type := Make {
  cssDeclarations : list RuleCount.t
}.
End RuleAnalysis.

(** [function decreasingOrder(a, b) { return b.count - a.count; }] *)
Definition decreasingOrder (a b : nat) : Z := (Z.of_nat b - Z.of_nat a)%Z.

(** The body of the [forEach] of [analyzeRules]: what one rule pushes. *)
Definition ruleEntry (rule : Rule.t) : list RuleCount.t :=
  match Rule.declarations rule with
  | Some ds => [RuleCount.Make (Rule.selectors rule) (List.length ds)]
  | None => []
  end.

Definition analyzeRules (rules : list Rule.t) : RuleAnalysis.t :=
  RuleAnalysis.Make
    (Arr.sort (fun a b => decreasingOrder (RuleCount.count a) (RuleCount.count b))
              (flat_map ruleEntry rules)).

(** *** Selectors *)

Module SelectorAnalysis.
Record t : Type := Make {
  idSelectors : nat;
  universalSelectors : nat;
  attributeSelectors : nat;
  unqualifiedAttributeSelectors : nat;
  javascriptSpecificSelectors : nat;
  elementSelectors : nat;
  classSelectors : nat;
  identifiers : list Identifier.t
}.
End SelectorAnalysis.

Module Flags.
Record t : Type := Make {
  hasClass : bool;
  hasTag : bool;
  hasId : bool;
  hasAttr : bool;
  hasUnqAttr : bool;
  hasUniversal : bool
}.
Definition none : t := Make false false false false false false.
End Flags.

Definition nonempty {A : Type} (o : option (list A)) : bool :=
  match o with
  | Some (_ :: _) => true
  | _ => false
  end.

Definition present {A : Type} (o : option A) : bool :=
  match o with Some _ => true | None => false end.

(** One turn of the [while (rule)] loop. *)
Definition walk (f : Flags.t) (rule : SelectorNode.t) : Flags.t :=
  let tag := truthy_string (SelectorNode.tagName rule) in
  let attr := nonempty (SelectorNode.attrs rule) in
  Flags.Make
    (Flags.hasClass f || nonempty (SelectorNode.classNames rule))
    (Flags.hasTag f || tag)
    (Flags.hasId f || truthy_string (SelectorNode.id rule))
    (Flags.hasAttr f || attr)
    (Flags.hasUnqAttr f
     || (attr && negb tag && negb (truthy_string (SelectorNode.id rule))
         && negb (present (SelectorNode.classNames rule))))
    (Flags.hasUniversal f
     || (tag && match SelectorNode.tagName rule with
                | Some t => String.eqb t "*"
                | None => false
                end)).

Definition bump (b : bool) (n : nat) : nat := if b then n + 1 else n.

(** The chain length pushed for one selector. *)
Definition chainLength (selector : string) : nat :=
  let trimmedSelector :=
    Regex.replace_g Patterns.combinatorRegex [Regex.Ref 1] selector in
  let trimmedSelector :=
    Regex.replace_g Patterns.spacesRegex [Regex.Text " "] trimmedSelector in
  List.length (Regex.split Patterns.separatorRegex trimmedSelector).

(** *** Declarations *)

(** The object [result] of [analyzeDeclarations] while the declarations
    are walked, with the two variables of the closure the walk updates. *)
Module DeclState.
Record t : Type := Make {
  dataUriSize : string;
  importantKeywords : nat;
  floatProperties : nat;
  uniqueFontSize : list string;
  uniqueFontSizeDic : Obj.t Num.count;
  uniqueFontFamily : list string;
  uniqueFontFamilyDic : Obj.t Num.count;
  uniqueColor : list string;
  uniqueColorDic : Obj.t Num.count;
  properties : Obj.t Num.count;
  unhandledColors : Obj.t Num.count;
  sourceMap : SourceMap.t
}.

Definition init (sm : SourceMap.t) : t :=
  Make "" 0 0 [] [] [] [] [] [] [] [] sm.
End DeclState.

(** The object [analyzeDeclarations] returns, and the source map it
    leaves. *)
Module DeclarationAnalysis.
Record t : Type := Make {
  dataUriSize : nat;
  importantKeywords : nat;
  floatProperties : nat;
  uniqueFontSize : list string;
  uniqueFontSizeDic : Obj.t Num.count;
  uniqueFontFamily : list string;
  uniqueFontFamilyDic : Obj.t Num.count;
  uniqueColor : list string;
  uniqueColorDic : Obj.t Num.count;
  properties : list PropertyCount.t;
  sourceMap : SourceMap.t
}.
End DeclarationAnalysis.

(** [var count = dic[key]; dic[key] = count ? ++count : 1;] *)
Definition countUp (key : string) (dic : Obj.t Num.count) : Obj.t Num.count :=
  Obj.set key
    match Obj.get key dic with
    | Obj.Own c => if Num.truthy c then Num.incr c else Num.Num 1
    | Obj.Inherited => Num.NaN
    | Obj.Undefined => Num.Num 1
    end dic.

(** [if (props[key]) { props[key] += 1; } else { props[key] = 1; }] *)
Definition countProperty (key : string) (props : Obj.t Num.count)
  : Obj.t Num.count :=
  Obj.set key
    match Obj.get key props with
    | Obj.Own c => if Num.truthy c then Num.plus1 c else Num.Num 1
    | Obj.Inherited => Num.Src key 1
    | Obj.Undefined => Num.Num 1
    end props.

(** [addToSourceMap(groupName, item, source)].  The group names are the
    three literals of the source, none of them inherited.  Reading an
    inherited [item] yields a value without [indexOf]. *)
Definition addToSourceMap (groupName item : string) (source : Source)
  (sm : SourceMap.t) : result SourceMap.t :=
  let values := SourceMap.values sm in
  let group := match Obj.own groupName values with
               | Some g => g
               | None => []
               end in
  do group' <-
    match Obj.get item group with
    | Obj.Undefined => Ok (Obj.put item [source] group)
    | Obj.Own sources =>
        if existsb (Nat.eqb source) sources then Ok group
        else Ok (Obj.put item (sources ++ [source]) group)
    | Obj.Inherited => Throw TypeError
    end;
  Ok (SourceMap.Make (Obj.put groupName group' values)).

(** The normal form [addColor] gives a candidate before it filters. *)
Definition normalizeColor (color : string) : string :=
  let color := Regex.replace Patterns.importantRegex [] color in
  let color := Str.trim (Str.toUpperCase color) in
  if Regex.test Patterns.shortHexRegex color
  then Regex.replace Patterns.hexDigitsRegex Patterns.hexDoubled color
  else color.

Definition keptColor (color : string) : bool :=
  negb (String.eqb color "TRANSPARENT") && negb (String.eqb color "INHERIT").

(** The body of the [forEach] of [addColor]: [acc] is [resultColors]. *)
Definition addOneColor (acc : list string * DeclState.t) (color : string)
  : list string * DeclState.t :=
  let (resultColors, st) := acc in
  let color := normalizeColor color in
  if keptColor color then
    (resultColors ++ [color],
     DeclState.Make
       (DeclState.dataUriSize st) (DeclState.importantKeywords st)
       (DeclState.floatProperties st) (DeclState.uniqueFontSize st)
       (DeclState.uniqueFontSizeDic st) (DeclState.uniqueFontFamily st)
       (DeclState.uniqueFontFamilyDic st)
       (DeclState.uniqueColor st ++ [color])
       (countUp color (DeclState.uniqueColorDic st))
       (DeclState.properties st) (DeclState.unhandledColors st)
       (DeclState.sourceMap st))
  else acc.

(** [addColor(colors)]: [None] is [undefined]. *)
Definition addColor (colors : option (list string)) (st : DeclState.t)
  : list string * DeclState.t :=
  match colors with
  | None => ([], st)
  | Some cs => fold_left addOneColor cs ([], st)
  end.

(** The text of a group that takes part in every match of its pattern. *)
Definition captured (n : nat) (f : Regex.found) : string :=
  match Regex.group n f with Some s => s | None => "undefined" end.

(** [m.slice(1).filter(function (nc) { return nc; })] *)
Definition definedGroups (r : Regex.re) (f : Regex.found) : list string :=
  flat_map (fun n => match Regex.group n f with
                     | Some s => if String.eqb s "" then [] else [s]
                     | None => []
                     end)
           (seq 1 (Regex.ngroups r)).

(** [extractColor(value)]: [None] is [undefined]. *)
Definition extractColor (namedColorsRegex : Regex.re) (value : string)
  : option (list string) :=
  if Regex.test Patterns.gradientRegex value then None
  else
    match Regex.exec Patterns.rgbRegex value with
    | Some rgb => Some [rgbToHex (captured 1 rgb) (captured 2 rgb) (captured 3 rgb)]
    | None =>
        match Regex.exec Patterns.hexColorRegex value with
        | Some hexColor => Some [("#" ++ captured 1 hexColor)%string]
        | None =>
            match Regex.exec namedColorsRegex value with
            | Some namedColor => Some (definedGroups namedColorsRegex namedColor)
            | None => None
            end
        end
    end.

(** The source text of [namedColorsRegex]. *)
Definition namedColorsSource (namedColors : list string) : string :=
  String.concat "|"
    (map (fun nc => ("\W(" ++ nc ++ ")\b|^(" ++ nc ++ ")\b")%string)
         namedColors).

(** [m + ''] for the result [m] of [value.match(...)]: the matched text,
    or the text of [null]. *)
Definition matchText (m : option Regex.found) : string :=
  match m with
  | Some f => Regex.whole f
  | None => "null"
  end.

(** [Buffer.byteLength(s, 'utf8')] on the accumulated data URIs, which hold
    ASCII characters only. *)
Definition byteLength (s : string) : nat := String.length s.

(** The sort key of a font size: [item.replace(/[^0-9\.]/g, '') - 0]. *)
Definition fontSizeKey (item : string) : option (Z * nat) :=
  Num.of_decimal (Regex.replace_g Patterns.notNumericRegex [] item).

Section Analyzer.

(** The collaborators the analyzer calls.
    - [selectorParser_parse s]: the chain of nodes of the selector [s],
      from [ps.rule] on (empty when [ps.rule] is absent), or an
      exception.
    - [RegExp source flags]: the pattern [new RegExp(source, flags)]
      compiles to, or [SyntaxError].
    - [gzipSize_sync text]: the compressed size, or an exception. *)
Variable selectorParser_parse : string -> result (list SelectorNode.t).
Variable RegExp : string -> string -> result Regex.re.
Variable gzipSize_sync : string -> result nat.

(** [new RegExp(pattern, flags)] where [pattern] may be [undefined]: an
    absent and an empty pattern both denote the empty pattern. *)
Definition newRegExp (pattern : option string) (flags : string)
  : result Regex.re :=
  match pattern with
  | None => Ok Regex.Empty
  | Some src => if String.eqb src "" then Ok Regex.Empty else RegExp src flags
  end.

(** The body of the [forEach] of [analyzeSelectors].  The state carries
    [regexp.lastIndex] next to [result]. *)
Definition analyzeSelector (regexp : Regex.re)
  (acc : SelectorAnalysis.t * nat) (selector : string)
  : result (SelectorAnalysis.t * nat) :=
  let (r, lastIndex) := acc in
  do chain <- selectorParser_parse selector;
  let f := fold_left walk chain Flags.none in
  let (hook, lastIndex') :=
    Regex.test_g regexp lastIndex (Str.trim selector) in
  Ok (SelectorAnalysis.Make
        (bump (Flags.hasId f) (SelectorAnalysis.idSelectors r))
        (bump (Flags.hasUniversal f) (SelectorAnalysis.universalSelectors r))
        (bump (Flags.hasAttr f) (SelectorAnalysis.attributeSelectors r))
        (bump (Flags.hasUnqAttr f)
              (SelectorAnalysis.unqualifiedAttributeSelectors r))
        (bump hook (SelectorAnalysis.javascriptSpecificSelectors r))
        (bump (Flags.hasTag f) (SelectorAnalysis.elementSelectors r))
        (bump (Flags.hasClass f) (SelectorAnalysis.classSelectors r))
        (SelectorAnalysis.identifiers r
           ++ [Identifier.Make selector (chainLength selector)]),
      lastIndex').

Definition sortIdentifiers (l : list Identifier.t) : list Identifier.t :=
  Arr.sort (fun a b => decreasingOrder (Identifier.count a) (Identifier.count b))
           l.

Definition analyzeSelectors (options : Options.t) (selectors : list string)
  : result SelectorAnalysis.t :=
  do regexp <- newRegExp (Options.javascriptSpecificSelectors options) "g";
  do acc <- foldM (analyzeSelector regexp) selectors
                  (SelectorAnalysis.Make 0 0 0 0 0 0 0 [], 0);
  let r := fst acc in
  Ok (SelectorAnalysis.Make
        (SelectorAnalysis.idSelectors r)
        (SelectorAnalysis.universalSelectors r)
        (SelectorAnalysis.attributeSelectors r)
        (SelectorAnalysis.unqualifiedAttributeSelectors r)
        (SelectorAnalysis.javascriptSpecificSelectors r)
        (SelectorAnalysis.elementSelectors r)
        (SelectorAnalysis.classSelectors r)
        (sortIdentifiers (SelectorAnalysis.identifiers r))).

(** [analyzeDeclaration(declaration)], the body of the [forEach] of
    [analyzeDeclarations]. *)
Definition analyzeDeclaration (namedColorsRegex : Regex.re)
  (st : DeclState.t) (declaration : Declaration.t) : result DeclState.t :=
  let property := Declaration.property declaration in
  let value := Declaration.value declaration in
  let source := Declaration.source declaration in
  (* if it contains DataURI *)
  let dataUriSize :=
    if Str.contains "data:image" value
    then (DeclState.dataUriSize st
          ++ matchText (Regex.exec Patterns.dataUriRegex value))%string
    else DeclState.dataUriSize st in
  (* if it contains !important keyword *)
  let importantKeywords :=
    bump (Str.contains "!important" value) (DeclState.importantKeywords st) in
  (* if it contains float *)
  let floatProperties :=
    bump (Str.contains "float" property) (DeclState.floatProperties st) in
  (* if it contains font-family *)
  do fam <-
    (if Str.contains "font-family" property then
       let fFamily :=
         Str.trim (Regex.replace_g Patterns.importantGroupRegex [] value) in
       do sm <- addToSourceMap "font-family" fFamily source
                  (DeclState.sourceMap st);
       Ok (countUp fFamily (DeclState.uniqueFontFamilyDic st),
           DeclState.uniqueFontFamily st ++ [fFamily], sm)
     else Ok (DeclState.uniqueFontFamilyDic st,
              DeclState.uniqueFontFamily st, DeclState.sourceMap st));
  let '(uniqueFontFamilyDic, uniqueFontFamily, sm1) := fam in
  (* if it contains font-size *)
  do siz <-
    (if Str.contains "font-size" property then
       let fSize :=
         Str.trim (Regex.replace Patterns.importantRegex [] value) in
       do sm <- addToSourceMap "font-size" fSize source sm1;
       Ok (countUp fSize (DeclState.uniqueFontSizeDic st),
           DeclState.uniqueFontSize st ++ [fSize], sm)
     else Ok (DeclState.uniqueFontSizeDic st,
              DeclState.uniqueFontSize st, sm1));
  let '(uniqueFontSizeDic, uniqueFontSize, sm2) := siz in
  let st2 :=
    DeclState.Make dataUriSize importantKeywords floatProperties
      uniqueFontSize uniqueFontSizeDic uniqueFontFamily uniqueFontFamilyDic
      (DeclState.uniqueColor st) (DeclState.uniqueColorDic st)
      (DeclState.properties st) (DeclState.unhandledColors st) sm2 in
  (* if it contains color or background or background-color or border *)
  do st3 <-
    (if Regex.test Patterns.colorPropertyRegex property then
       let colors := extractColor namedColorsRegex value in
       let (addedColors, st') := addColor colors st2 in
       match addedColors with
       | [] =>
           Ok (DeclState.Make
                 (DeclState.dataUriSize st') (DeclState.importantKeywords st')
                 (DeclState.floatProperties st') (DeclState.uniqueFontSize st')
                 (DeclState.uniqueFontSizeDic st')
                 (DeclState.uniqueFontFamily st')
                 (DeclState.uniqueFontFamilyDic st')
                 (DeclState.uniqueColor st') (DeclState.uniqueColorDic st')
                 (DeclState.properties st')
                 (countUp value (DeclState.unhandledColors st'))
                 (DeclState.sourceMap st'))
       | _ :: _ =>
           do sm <- foldM (fun sm c => addToSourceMap "color" c source sm)
                          addedColors (DeclState.sourceMap st');
           Ok (DeclState.Make
                 (DeclState.dataUriSize st') (DeclState.importantKeywords st')
                 (DeclState.floatProperties st') (DeclState.uniqueFontSize st')
                 (DeclState.uniqueFontSizeDic st')
                 (DeclState.uniqueFontFamily st')
                 (DeclState.uniqueFontFamilyDic st')
                 (DeclState.uniqueColor st') (DeclState.uniqueColorDic st')
                 (DeclState.properties st') (DeclState.unhandledColors st')
                 sm)
       end
     else Ok st2);
  (* property statistics *)
  Ok (DeclState.Make
        (DeclState.dataUriSize st3) (DeclState.importantKeywords st3)
        (DeclState.floatProperties st3) (DeclState.uniqueFontSize st3)
        (DeclState.uniqueFontSizeDic st3) (DeclState.uniqueFontFamily st3)
        (DeclState.uniqueFontFamilyDic st3)
        (DeclState.uniqueColor st3) (DeclState.uniqueColorDic st3)
        (countProperty property (DeclState.properties st3))
        (DeclState.unhandledColors st3) (DeclState.sourceMap st3)).

(** The list [sortAnalyzeData] builds from [Object.keys(result.properties)]
    before it sorts it. *)
Definition propertyEntries (props : Obj.t Num.count) : list PropertyCount.t :=
  flat_map (fun key => match Obj.own key props with
                       | Some c => [PropertyCount.Make key c]
                       | None => []
                       end)
           (Obj.keys props).

Definition sortProperties (l : list PropertyCount.t) : list PropertyCount.t :=
  Arr.sort (fun a b => Num.minus (PropertyCount.count b) (PropertyCount.count a))
           l.

(** [dataUriSizeToBytes()] then [sortAnalyzeData()]. *)
Definition sortAnalyzeData (st : DeclState.t) : DeclarationAnalysis.t :=
  DeclarationAnalysis.Make
    (byteLength (DeclState.dataUriSize st))
    (DeclState.importantKeywords st)
    (DeclState.floatProperties st)
    (Arr.isort (fun x y => Num.gtb (fontSizeKey x) (fontSizeKey y))
               (Arr.uniq (DeclState.uniqueFontSize st)))
    (DeclState.uniqueFontSizeDic st)
    (Arr.sortBy (Arr.uniq (DeclState.uniqueFontFamily st)))
    (DeclState.uniqueFontFamilyDic st)
    (Arr.sortBy (Arr.uniq (DeclState.uniqueColor st)))
    (DeclState.uniqueColorDic st)
    (sortProperties (propertyEntries (DeclState.properties st)))
    (DeclState.sourceMap st).

Definition walkDeclarations (options : Options.t)
  (declarations : list Declaration.t) (sourceMap : SourceMap.t)
  : result DeclState.t :=
  do namedColorsRegex <-
    newRegExp (Some (namedColorsSource (Options.namedColors options))) "i";
  foldM (analyzeDeclaration namedColorsRegex) declarations
        (DeclState.init sourceMap).

Definition analyzeDeclarations (options : Options.t)
  (declarations : list Declaration.t) (sourceMap : SourceMap.t)
  : result DeclarationAnalysis.t :=
  do st <- walkDeclarations options declarations sourceMap;
  Ok (sortAnalyzeData st).

(** [Analyzer.prototype.analyze], on the members the constructor
    stored. *)
Definition analyze (rules : list Rule.t) (selectors : list string)
  (declarations : list Declaration.t) (cssString : string) (cssSize : nat)
  (options : Options.t) (sourceMap : SourceMap.t) : result Analysis.t :=
  let ruleAnalysis := analyzeRules rules in
  do selectorAnalysis <- analyzeSelectors options selectors;
  do declarationAnalysis <- analyzeDeclarations options declarations sourceMap;
  do gzippedSize <-
    (if Options.gzippedSize options
     then do n <- gzipSize_sync cssString; Ok (Some n)
     else Ok None);
  let identifiers := SelectorAnalysis.identifiers selectorAnalysis in
  let mostIdentifier := fst (Arr.shift identifiers) in
  let lowestDefinition :=
    fst (Arr.shift (RuleAnalysis.cssDeclarations ruleAnalysis)) in
  Ok (Analysis.Make
        (when (Options.size options) cssSize)
        (when (Options.dataUriSize options)
              (DeclarationAnalysis.dataUriSize declarationAnalysis))
        (when (Options.dataUriSize options
               && Options.ratioOfDataUriSize options
               && negb (DeclarationAnalysis.dataUriSize declarationAnalysis =? 0))
              (Num.div (DeclarationAnalysis.dataUriSize declarationAnalysis)
                       cssSize))
        gzippedSize
        (when (Options.rules options) (List.length rules))
        (when (Options.selectors options) (List.length selectors))
        (when (Options.rules options && Options.selectors options
               && Options.simplicity options)
              (Num.div (List.length rules) (List.length selectors)))
        (when (Options.mostIdentifierSelector options
               && truthy_number (Options.mostIdentifierCount options))
              (map Identifier.selector
                   (Arr.slice0 (Options.mostIdentifierCount options)
                               identifiers)))
        (if Options.mostIdentifier options
         then option_map Identifier.count mostIdentifier else None)
        (if Options.lowestCohesion options
         then option_map RuleCount.count lowestDefinition else None)
        (if Options.lowestCohesionSelector options
         then option_map RuleCount.selector lowestDefinition else None)
        (when (Options.totalUniqueFontSizes options)
              (List.length (DeclarationAnalysis.uniqueFontSize declarationAnalysis)))
        (when (Options.uniqueFontSize options)
              (DeclarationAnalysis.uniqueFontSize declarationAnalysis))
        (when (Options.uniqueFontSizeDic options)
              (DeclarationAnalysis.uniqueFontSizeDic declarationAnalysis))
        (when (Options.totalUniqueFontFamilies options)
              (List.length (DeclarationAnalysis.uniqueFontFamily declarationAnalysis)))
        (when (Options.uniqueFontFamily options)
              (DeclarationAnalysis.uniqueFontFamily declarationAnalysis))
        (when (Options.uniqueFontFamilyDic options)
              (DeclarationAnalysis.uniqueFontFamilyDic declarationAnalysis))
        (when (Options.totalUniqueColors options)
              (List.length (DeclarationAnalysis.uniqueColor declarationAnalysis)))
        (when (Options.uniqueColor options)
              (DeclarationAnalysis.uniqueColor declarationAnalysis))
        (when (Options.uniqueColorDic options)
              (DeclarationAnalysis.uniqueColorDic declarationAnalysis))
        (when (Options.idSelectors options)
              (SelectorAnalysis.idSelectors selectorAnalysis))
        (when (Options.universalSelectors options)
              (SelectorAnalysis.universalSelectors selectorAnalysis))
        (when (Options.unqualifiedAttributeSelectors options)
              (SelectorAnalysis.unqualifiedAttributeSelectors selectorAnalysis))
        (when (Options.attributeSelectors options)
              (SelectorAnalysis.attributeSelectors selectorAnalysis))
        (when (Options.elementSelectors options)
              (SelectorAnalysis.elementSelectors selectorAnalysis))
        (when (Options.classSelectors options)
              (SelectorAnalysis.classSelectors selectorAnalysis))
        (when (truthy_string (Options.javascriptSpecificSelectors options))
              (SelectorAnalysis.javascriptSpecificSelectors selectorAnalysis))
        (when (Options.importantKeywords options)
              (DeclarationAnalysis.importantKeywords declarationAnalysis))
        (when (Options.floatProperties options)
              (DeclarationAnalysis.floatProperties declarationAnalysis))
        (when (truthy_number (Options.propertiesCount options))
              (Arr.slice0 (Options.propertiesCount options)
                          (DeclarationAnalysis.properties declarationAnalysis)))
        (when (Options.sourceMap options)
              (DeclarationAnalysis.sourceMap declarationAnalysis))).

End Analyzer.

(* ------------------------------------------------------------------ *)
(** ** Inputs and environments used by the examples *)

Module Examples.
Import Regex.

(** The default JavaScript-hook pattern of the configuration,
    [[#\.]js\-]: a [#] or a [.], then [js-]. *)
Definition hookSource : string := "[#\.]js\-".
Definition hookPattern : re :=
  Seq [Char (Chars.one_of "#."); Lit "js"; Patterns.chr "-"].

(** The named colours pattern for the list [["transparent"]], under the
    [i] flag: [\W(transparent)\b|^(transparent)\b]. *)
Definition transparentPattern : re :=
  Or (Seq [Char (fun c => negb (Chars.is_word c));
           Cap 1 (Lit_i "transparent"); WordB])
     (Seq [Bol; Cap 2 (Lit_i "transparent"); WordB]).

(** A pattern compiler that knows these two sources. *)
Definition RegExp (source flags : string) : result re :=
  if String.eqb source hookSource then Ok hookPattern
  else if String.eqb source (namedColorsSource ["transparent"])
       then Ok transparentPattern
       else Throw SyntaxError.

(** A selector parser for descendant chains of class selectors,
    [.a .b .c]: one node per class name. *)
Definition classNode (piece : string) : result SelectorNode.t :=
  match piece with
  | String "." name => Ok (SelectorNode.Make None (Some [name]) None None)
  | _ => Throw SelectorParseError
  end.

Definition parseClass (selector : string) : result (list SelectorNode.t) :=
  foldM (fun chain piece => do n <- classNode piece; Ok (chain ++ [n]))
        (split Patterns.spacesRegex (Str.trim selector)) [].

(** No compressor available. *)
Definition gzipFails (text : string) : result nat := Throw GzipError.

(** Every metric enabled, with the default hook pattern and top lists
    of [n] entries. *)
Definition allOn (n : Z) (namedColors : list string) : Options.t :=
  Options.Make true true true true true true true true n true true true
               true true true true true true true true true true true true
               true true true (Some hookSource) true true n true namedColors.

(** As [allOn], without the gzipped size. *)
Definition noGzip (n : Z) (namedColors : list string) : Options.t :=
  Options.Make true true true false true true true true n true true true
               true true true true true true true true true true true true
               true true true (Some hookSource) true true n true namedColors.

(** The initial source map, [{values: {}}]. *)
Definition emptyMap : SourceMap.t := SourceMap.Make [].

Definition decl (property value : string) (source : Source) : Declaration.t :=
  Declaration.Make property value source.

(** A stylesheet holding one [@font-face] block: a rule without
    selectors. *)
Definition fontFace : Declaration.t := decl "font-family" "x" 1.
Definition fontFaceRules : list Rule.t := [Rule.Make [] (Some [fontFace])].
Definition fontFaceText : string := "@font-face{font-family:x}".

(** [.a, .b .c { color: #fff; background: url(data:image/png;base64,AAAA) }] *)
Definition sheetDeclarations : list Declaration.t :=
  [ decl "color" "#fff" 1;
    decl "background" "url(data:image/png;base64,AAAA)" 2 ].
Definition sheetSelectors : list string := [".a"; ".b .c"].
Definition sheetRules : list Rule.t :=
  [Rule.Make sheetSelectors (Some sheetDeclarations)].
Definition sheetText : string :=
  ".a, .b .c { color: #fff; background: url(data:image/png;base64,AAAA) }".

(** Colour declarations that name the filtered keyword. *)
Definition keywordDeclarations : list Declaration.t :=
  [ decl "color" "transparent !important" 1;
    decl "background" " Transparent" 2;
    decl "border-color" "#abc" 3 ].

End Examples.

(* ------------------------------------------------------------------ *)
(** ** Reference notions the properties are stated with *)

(** The entries expected of [analyzeRules], before sorting: one for each
    rule that carries a declaration array. *)
Definition expectedEntries (rules : list Rule.t) : list RuleCount.t :=
  map (fun r => RuleCount.Make (Rule.selectors r)
                  (List.length (match Rule.declarations r with
                                | Some ds => ds
                                | None => []
                                end)))
      (filter (fun r => present (Rule.declarations r)) rules).

(** The number of selectors whose trimmed text matches the hook pattern,
    each selector tested on its own. *)
Definition hookMatches (regexp : Regex.re) (selectors : list string) : nat :=
  List.length (filter (fun s => Regex.test regexp (Str.trim s)) selectors).

(** The hook counter as the loop of [analyzeSelectors] computes it: the
    position [lastIndex] left by one test is where the next one starts. *)
Fixpoint hookCount (regexp : Regex.re) (lastIndex : nat)
  (selectors : list string) : nat :=
  match selectors with
  | [] => 0
  | s :: rest =>
      let (hook, lastIndex') := Regex.test_g regexp lastIndex (Str.trim s) in
      bump hook 0 + hookCount regexp lastIndex' rest
  end.

(** The chain length in the words of the specification: all the white
    space around a combinator goes, the remaining runs become one space,
    and the text is split at white space and combinators. *)
Definition chainLength_as_specified (selector : string) : nat :=
  let collapsed :=
    Regex.replace_g
      (Regex.Seq [ Regex.Star Patterns.ws;
                   Regex.Cap 1 (Regex.Char (Chars.one_of ">+~"));
                   Regex.Star Patterns.ws ])
      [Regex.Ref 1] selector in
  let collapsed :=
    Regex.replace_g Patterns.spacesRegex [Regex.Text " "] collapsed in
  List.length (Regex.split Patterns.separatorRegex collapsed).

(** The numeric reading of a property count, and the sum over a list of
    entries. *)
Definition countValue (c : Num.count) : nat :=
  match c with
  | Num.Num n => n
  | Num.NaN | Num.Src _ _ => 0
  end.

Definition sumCounts (l : list PropertyCount.t) : nat :=
  list_sum (map (fun e => countValue (PropertyCount.count e)) l).

(** Descending order on the counts of two kinds of entries. *)
Definition rulesDescending : RuleCount.t -> RuleCount.t -> Prop :=
  fun a b => RuleCount.count b <= RuleCount.count a.

Definition identifiersDescending : Identifier.t -> Identifier.t -> Prop :=
  fun a b => Identifier.count b <= Identifier.count a.

(** The colours one declaration adds to the raw colour list: the
    candidates [extractColor] finds on a colour-bearing property, brought
    to normal form, without the two filtered keywords. *)
Definition colorsOf (namedColorsRegex : Regex.re) (d : Declaration.t)
  : list string :=
  if Regex.test Patterns.colorPropertyRegex (Declaration.property d)
  then filter keptColor
         (map normalizeColor
              match extractColor namedColorsRegex (Declaration.value d) with
              | Some cs => cs
              | None => []
              end)
  else [].

(** The property dictionary after a list of declarations. *)
Definition countProperties (declarations : list Declaration.t)
  (props : Obj.t Num.count) : Obj.t Num.count :=
  fold_left (fun o d => countProperty (Declaration.property d) o)
            declarations props.

(** The sum of the numeric values of a dictionary. *)
Definition total (o : Obj.t Num.count) : nat :=
  list_sum (map (fun p => countValue (snd p)) o).

(** A dictionary of plain counts: no key twice, every value a number
    from 1 up. *)
Definition counted (o : Obj.t Num.count) : Prop :=
  NoDup (map fst o) /\ Forall (fun p => exists m, snd p = Num.Num (S m)) o.

(** The entry of the property statistics for one pair of the dictionary. *)
Definition entryOf (p : string * Num.count) : PropertyCount.t :=
  PropertyCount.Make (fst p) (snd p).

(** A property name that no plain object inherits. *)
Definition plainName (d : Declaration.t) : Prop :=
  Obj.inherited (Declaration.property d) = false.

(* ------------------------------------------------------------------ *)
(** ** The formatter: [escape] *)

(** [s.replace(r, fn)] for a pattern with the [g] flag and a callback:
    every match, left to right, is replaced by what the callback returns
    for the matched text. *)
Fixpoint replace_fn_loop (fuel : nat) (r : Regex.re) (fn : string -> string)
  (pre suf : list ascii) : list ascii :=
  match fuel with
  | 0 => suf
  | S fuel' =>
      match Regex.search r pre suf with
      | None => suf
      | Some f =>
          Regex.skipped pre suf f ++ Str.chars (fn (Regex.whole f)) ++
          (if Regex.index (Regex.stop f) =? Regex.index (Regex.start f)
           then match Regex.after (Regex.stop f) with
                | [] => []
                | c :: rest =>
                    c :: replace_fn_loop fuel' r fn
                           (c :: Regex.before (Regex.stop f)) rest
                end
           else replace_fn_loop fuel' r fn (Regex.before (Regex.stop f))
                                (Regex.after (Regex.stop f)))
      end
  end.

Definition replace_fn_g (r : Regex.re) (fn : string -> string) (s : string)
  : string :=
  Str.of_chars (replace_fn_loop (S (String.length s)) r fn [] (Str.chars s)).

Module Format.

(** The string made of the character of code [n]. *)
Definition chr1 (n : nat) : string := String (ascii_of_nat n) EmptyString.

(** The characters of the class of [escape]: NUL, backspace, tab,
    substitute, line feed, carriage return, the two quotes, the backslash
    and the percent sign. *)
Definition special : list ascii :=
  map ascii_of_nat [0; 8; 9; 26; 10; 13; 34; 39; 92; 37].

Definition escapeRegex : Regex.re :=
  Regex.Char (fun c => existsb (Ascii.eqb c) special).

(** The [switch] of the callback: [None] when no case applies and the
    callback returns nothing. *)
Definition escapeCase (char : string) : option string :=
  if String.eqb char (chr1 0) then Some "\0"
  else if String.eqb char (chr1 8) then Some "\b"
  else if String.eqb char (chr1 9) then Some "\t"
  else if String.eqb char (chr1 26) then Some "\z"
  else if String.eqb char (chr1 10) then Some "\n"
  else if String.eqb char (chr1 13) then Some "\r"
  else if String.eqb char (chr1 34) || String.eqb char (chr1 39)
          || String.eqb char (chr1 92)
       then Some ("\" ++ char)%string
       else None.

(** The text a replacement callback's result is turned into. *)
Definition resultText (o : option string) : string :=
  match o with
  | Some s => s
  | None => "undefined"
  end.

(** [escape(str)] *)
Definition escape (str : string) : string :=
  replace_fn_g escapeRegex (fun char => resultText (escapeCase char)) str.

(** [Format.prototype.toSafeJSON], with [JSON.stringify] as a parameter:
    what the callback receives. *)
Definition toSafeJSON {D : Type} (stringify : D -> string) (data : D) : string :=
  escape (stringify data).

(** What [escape] puts in the place of one character. *)
Definition escapeOne (c : ascii) : list ascii :=
  if existsb (Ascii.eqb c) special
  then Str.chars (resultText (escapeCase (String c EmptyString)))
  else [c].

End Format.

(* ------------------------------------------------------------------ *)
(** ** Further reference notions *)

Definition countIf {A : Type} (f : A -> bool) (l : list A) : nat :=
  List.length (filter f l).

(** The flags of a parsed selector, read off its chain as a whole. *)
Definition chainHasId (chain : list SelectorNode.t) : bool :=
  existsb (fun n => truthy_string (SelectorNode.id n)) chain.

Definition chainHasClass (chain : list SelectorNode.t) : bool :=
  existsb (fun n => nonempty (SelectorNode.classNames n)) chain.

Definition chainHasTag (chain : list SelectorNode.t) : bool :=
  existsb (fun n => truthy_string (SelectorNode.tagName n)) chain.

Definition chainHasUniversal (chain : list SelectorNode.t) : bool :=
  existsb (fun n => match SelectorNode.tagName n with
                    | Some t => String.eqb t "*"
                    | None => false
                    end) chain.

Definition chainHasAttr (chain : list SelectorNode.t) : bool :=
  existsb (fun n => nonempty (SelectorNode.attrs n)) chain.

(** A node with attributes and neither tag, id nor class-name list. *)
Definition chainHasUnqAttr (chain : list SelectorNode.t) : bool :=
  existsb (fun n => nonempty (SelectorNode.attrs n)
                    && negb (truthy_string (SelectorNode.tagName n))
                    && negb (truthy_string (SelectorNode.id n))
                    && negb (present (SelectorNode.classNames n))) chain.

(** The number of declarations of a property. *)
Definition occurrences (p : string) (declarations : list Declaration.t) : nat :=
  countIf (fun d => String.eqb (Declaration.property d) p) declarations.

(** Strict ascending order of strings. *)
Definition ascending : string -> string -> Prop :=
  fun a b => Str.ltb a b = true.

(** Descending order on the counts of the property statistics. *)
Definition propertiesDescending : PropertyCount.t -> PropertyCount.t -> Prop :=
  fun a b => countValue (PropertyCount.count b)
             <= countValue (PropertyCount.count a).

(** A hexadecimal digit, of either case. *)
Definition is_hex (c : ascii) : bool :=
  Chars.is_digit c || Chars.between 65 70 c || Chars.between 97 102 c.

(** A hexadecimal digit that [toUpperCase] leaves alone. *)
Definition is_upper_hex (c : ascii) : bool :=
  Chars.is_digit c || Chars.between 65 70 c.

(** The two lower-case hexadecimal digits of a byte. *)
Definition hexByte (v : Z) : string :=
  String (Num.hex_digit (v / 16)%Z)
         (String (Num.hex_digit (v mod 16)%Z) EmptyString).

(** A character that is neither white space nor one of [>], [|], [+],
    [~]. *)
Definition plainChar (c : ascii) : bool :=
  negb (Chars.is_space c) && negb (Chars.one_of ">|+~" c).

(** A pattern that matches neither at a plain character nor at the end of
    the text. *)
Definition failsOnPlain (r : Regex.re) : Prop :=
  (forall pre c rest,
      plainChar c = true ->
      Regex.match_at r (Regex.MState pre (c :: rest) []) = None)
  /\ (forall pre, Regex.match_at r (Regex.MState pre [] []) = None).

(** A source map in which no group owns an item named like a member of
    [Object.prototype]; the initial map [{values: {}}] is one. *)
Definition cleanMap (sm : SourceMap.t) : Prop :=
  forall g group item,
    In (g, group) (SourceMap.values sm) ->
    In item (map fst group) -> Obj.inherited item = false.

(** The font family a declaration records, if its property is one. *)
Definition fontFamilyOf (d : Declaration.t) : option string :=
  if Str.contains "font-family" (Declaration.property d)
  then Some (Str.trim (Regex.replace_g Patterns.importantGroupRegex []
                                       (Declaration.value d)))
  else None.

(** The font size a declaration records, if its property is one. *)
Definition fontSizeOf (d : Declaration.t) : option string :=
  if Str.contains "font-size" (Declaration.property d)
  then Some (Str.trim (Regex.replace Patterns.importantRegex []
                                     (Declaration.value d)))
  else None.

(** What one declaration adds to the data-URI size: nothing without
    [data:image] in the value, else the length of the first
    [data:image/...] token, or the four characters of [null] when there is
    no such token. *)
Definition dataUriBytes (d : Declaration.t) : nat :=
  if Str.contains "data:image" (Declaration.value d)
  then String.length
         (matchText (Regex.exec Patterns.dataUriRegex (Declaration.value d)))
  else 0.


(** The list of the values an optional reading yields over the
    declarations. *)
Definition collect (f : Declaration.t -> option string)
  (declarations : list Declaration.t) : list string :=
  flat_map (fun d => match f d with Some v => [v] | None => [] end)
           declarations.

(** The source map lists the source [src] under the item [item] of the
    group [g]. *)
Definition recorded (g item : string) (src : Source) (sm : SourceMap.t)
  : Prop :=
  exists group sources,
    Obj.own g (SourceMap.values sm) = Some group
    /\ Obj.own item group = Some sources
    /\ In src sources.

(** The calls of [addToSourceMap] one declaration gives rise to, in
    order: group, item and source. *)
Definition sourceRecords (namedColorsRegex : Regex.re) (d : Declaration.t)
  : list (string * string * Source) :=
  match fontFamilyOf d with
  | Some f => [("font-family", f, Declaration.source d)]
  | None => []
  end
  ++ match fontSizeOf d with
     | Some f => [("font-size", f, Declaration.source d)]
     | None => []
     end
  ++ map (fun c => ("color", c, Declaration.source d))
         (colorsOf namedColorsRegex d).

Definition record (sm : SourceMap.t) (t : string * string * Source)
  : result SourceMap.t :=
  addToSourceMap (fst (fst t)) (snd (fst t)) (snd t) sm.

(** The item of a call is named like a member of [Object.prototype]. *)
Definition inheritedItem (t : string * string * Source) : Prop :=
  Obj.inherited (snd (fst t)) = true.

(** No item of the source map lists a source twice. *)
Definition noRepeats (sm : SourceMap.t) : Prop :=
  forall g group item sources,
    In (g, group) (SourceMap.values sm) ->
    In (item, sources) group -> NoDup sources.

(* ------------------------------------------------------------------ *)
(** ** Further sample inputs *)

Module Samples.
Import Examples.

(** The options of [noGzip 10 []] with another hook pattern. *)
Definition hookOptions (source : string) : Options.t :=
  Options.Make true true true false true true true true 10 true true true
               true true true true true true true true true true true true
               true true true (Some source) true true 10 true [].

(** A compressor that always answers. *)
Definition gzipFive (text : string) : result nat := Ok 5.

(** Font declarations: one family stated twice, two sizes. *)
Definition fontDeclarations : list Declaration.t :=
  [ decl "font-family" "Arial" 1;
    decl "font-size" "1.5em" 2;
    decl "font-family" "Arial !important" 3;
    decl "font-size" "12px" 4 ].

(** A font family named like a member of [Object.prototype]. *)
Definition inheritedDeclarations : list Declaration.t :=
  [ decl "font-family" "constructor" 1 ].

End Samples.

(* ------------------------------------------------------------------ *)
(** ** Facts about the helpers *)

Lemma bind_Ok {A B : Type} (r : result A) (k : A -> result B) (b : B) :
  bind r k = Ok b -> exists a, r = Ok a /\ k a = Ok b.
Proof.
  destruct r as [a | e]; simpl; intros H.
  - exists a. split; [reflexivity | exact H].
  - discriminate H.
Qed.

Lemma bind_Throw {A B : Type} (r : result A) (k : A -> result B) (e : error) :
  r = Throw e -> bind r k = Throw e.
Proof. intros ->. reflexivity. Qed.

(** Unpacks every successful [bind] among the hypotheses. *)
Ltac inv_bind :=
  repeat match goal with
         | H : bind _ _ = Ok _ |- _ =>
             let x := fresh "x" in
             let Hx := fresh "Hx" in
             apply bind_Ok in H; destruct H as [x [Hx H]]
         | H : Ok _ = Ok _ |- _ => injection H as H
         | H : Throw _ = Ok _ |- _ => discriminate H
         end.

Section SortFacts.
Variable A : Type.
Variable later : A -> A -> bool.

Lemma insert_perm (x : A) (l : list A) :
  Permutation (x :: l) (Arr.insert later x l).
Proof.
  induction l as [| y l IH]; simpl.
  - apply Permutation_refl.
  - destruct (later x y).
    + apply perm_trans with (y :: x :: l).
      * apply perm_swap.
      * apply perm_skip. exact IH.
    + apply Permutation_refl.
Qed.

Lemma isort_perm (l : list A) : Permutation l (Arr.isort later l).
Proof.
  induction l as [| x l IH]; simpl.
  - apply perm_nil.
  - apply perm_trans with (x :: Arr.isort later l).
    + apply perm_skip. exact IH.
    + apply insert_perm.
Qed.

Lemma isort_length (l : list A) :
  List.length (Arr.isort later l) = List.length l.
Proof. symmetry. apply Permutation_length, isort_perm. Qed.

Lemma isort_In (x : A) (l : list A) : In x (Arr.isort later l) <-> In x l.
Proof.
  split; intros H.
  - apply Permutation_in with (Arr.isort later l);
      [apply Permutation_sym, isort_perm | exact H].
  - apply Permutation_in with l; [apply isort_perm | exact H].
Qed.

(** Sorting by a numeric key, largest first. *)
Variable key : A -> nat.
Hypothesis later_key : forall x y, later x y = true <-> key x < key y.

Let desc : A -> A -> Prop := fun a b => key b <= key a.

Lemma insert_sorted (x : A) (l : list A) :
  StronglySorted desc l -> StronglySorted desc (Arr.insert later x l).
Proof.
  induction 1 as [| y l Hs IH Hall]; simpl.
  - constructor; constructor.
  - destruct (later x y) eqn:E.
    + apply later_key in E.
      constructor; [exact IH |].
      apply Permutation_Forall with (x :: l); [apply insert_perm |].
      constructor; [unfold desc; lia | exact Hall].
    + assert (Hle : key y <= key x).
      { destruct (Nat.lt_ge_cases (key x) (key y)) as [Hlt | Hge];
          [| exact Hge].
        apply later_key in Hlt. congruence. }
      constructor; [constructor; assumption |].
      constructor; [exact Hle |].
      eapply Forall_impl; [| exact Hall].
      unfold desc. intros z Hz. lia.
Qed.

Lemma isort_sorted (l : list A) : StronglySorted desc (Arr.isort later l).
Proof.
  induction l as [| x l IH]; simpl.
  - constructor.
  - apply insert_sorted. exact IH.
Qed.
End SortFacts.

Lemma decreasingOrder_later (x y : nat) :
  (0 <? decreasingOrder x y)%Z = true <-> x < y.
Proof. unfold decreasingOrder. rewrite Z.ltb_lt. lia. Qed.

(** *** Rules *)

Lemma flat_map_ruleEntry (rules : list Rule.t) :
  flat_map ruleEntry rules = expectedEntries rules.
Proof.
  unfold expectedEntries.
  induction rules as [| r rules IH]; simpl; [reflexivity |].
  unfold ruleEntry at 1.
  destruct (Rule.declarations r) as [ds |] eqn:E; simpl.
  - rewrite E, IH. reflexivity.
  - exact IH.
Qed.

(** C2 as stated fails: a rule whose declaration array is empty still
    contributes an entry, with count 0. *)
Lemma analyzeRules_keeps_rule_without_declarations :
  RuleAnalysis.cssDeclarations
    (analyzeRules [Rule.Make [".a"] (Some []); Rule.Make [".b"] None])
  = [RuleCount.Make [".a"] 0].
Proof. reflexivity. Qed.

(** C2, amended: [analyzeRules] emits one [{selector, count}] entry exactly
    for each rule that carries a declaration array, empty or not, with the
    length of that array as count; a rule without a declaration array
    contributes nothing; the list is sorted descending by count. *)
Theorem analyzeRules_entries (rules : list Rule.t) :
  let out := RuleAnalysis.cssDeclarations (analyzeRules rules) in
  Permutation out (expectedEntries rules)
  /\ StronglySorted rulesDescending out
  /\ List.length out
     = List.length (filter (fun r => present (Rule.declarations r)) rules).
Proof.
  simpl. unfold Arr.sort. split; [| split].
  - rewrite <- flat_map_ruleEntry. apply Permutation_sym, isort_perm.
  - apply isort_sorted with (key := RuleCount.count).
    intros x y. apply decreasingOrder_later.
  - rewrite isort_length, flat_map_ruleEntry.
    unfold expectedEntries. apply length_map.
Qed.

(** *** Selectors *)

Section SelectorFacts.
Variable selectorParser_parse : string -> result (list SelectorNode.t).
Variable RegExp : string -> string -> result Regex.re.

Lemma analyzeSelector_step (regexp : Regex.re) (r r' : SelectorAnalysis.t)
  (li li' : nat) (selector : string) :
  analyzeSelector selectorParser_parse regexp (r, li) selector = Ok (r', li') ->
  SelectorAnalysis.javascriptSpecificSelectors r'
  = SelectorAnalysis.javascriptSpecificSelectors r
    + bump (fst (Regex.test_g regexp li (Str.trim selector))) 0
  /\ li' = snd (Regex.test_g regexp li (Str.trim selector))
  /\ SelectorAnalysis.identifiers r'
     = SelectorAnalysis.identifiers r
       ++ [Identifier.Make selector (chainLength selector)].
Proof.
  unfold analyzeSelector. intros H.
  apply bind_Ok in H. destruct H as [chain [_ H]].
  destruct (Regex.test_g regexp li (Str.trim selector)) as [hook l2].
  injection H as Hr Hl. subst r' li'. simpl.
  split; [| split]; try reflexivity.
  destruct hook; simpl; lia.
Qed.

(** The loop of [analyzeSelectors]: the hook counter grows by
    [hookCount] and every selector adds one identifier, in order. *)
Lemma analyzeSelector_loop (regexp : Regex.re) (selectors : list string) :
  forall (r r' : SelectorAnalysis.t) (li li' : nat),
    foldM (analyzeSelector selectorParser_parse regexp) selectors (r, li)
    = Ok (r', li') ->
    SelectorAnalysis.javascriptSpecificSelectors r'
    = SelectorAnalysis.javascriptSpecificSelectors r
      + hookCount regexp li selectors
    /\ SelectorAnalysis.identifiers r'
       = SelectorAnalysis.identifiers r
         ++ map (fun s => Identifier.Make s (chainLength s)) selectors.
Proof.
  induction selectors as [| s rest IH]; intros r r' li li' H; simpl in H.
  - injection H as Hr Hl. subst. simpl.
    rewrite Nat.add_0_r, app_nil_r. split; reflexivity.
  - apply bind_Ok in H. destruct H as [[r1 l1] [Hstep Hrest]].
    apply analyzeSelector_step in Hstep.
    destruct Hstep as [Hc [Hl Hi]].
    apply IH in Hrest. destruct Hrest as [Hc' Hi'].
    split.
    + rewrite Hc', Hc. simpl.
      destruct (Regex.test_g regexp li (Str.trim s)) as [hook l2].
      simpl in *. subst l1. lia.
    + rewrite Hi', Hi, <- app_assoc. reflexivity.
Qed.

(** What a successful [analyzeSelectors] returns. *)
Lemma analyzeSelectors_Ok (options : Options.t) (selectors : list string)
  (sa : SelectorAnalysis.t) :
  analyzeSelectors selectorParser_parse RegExp options selectors = Ok sa ->
  exists regexp,
    newRegExp RegExp (Options.javascriptSpecificSelectors options) "g"
    = Ok regexp
    /\ SelectorAnalysis.javascriptSpecificSelectors sa
       = hookCount regexp 0 selectors
    /\ SelectorAnalysis.identifiers sa
       = sortIdentifiers
           (map (fun s => Identifier.Make s (chainLength s)) selectors).
Proof.
  unfold analyzeSelectors. intros H.
  apply bind_Ok in H. destruct H as [regexp [Hre H]].
  apply bind_Ok in H. destruct H as [[r li] [Hloop H]].
  injection H as H. subst sa. simpl.
  apply analyzeSelector_loop in Hloop. destruct Hloop as [Hc Hi].
  exists regexp. simpl in Hc, Hi. rewrite Hc, Hi.
  repeat split; try reflexivity. exact Hre.
Qed.

Lemma sortIdentifiers_sorted (l : list Identifier.t) :
  StronglySorted identifiersDescending (sortIdentifiers l).
Proof.
  unfold sortIdentifiers, Arr.sort.
  apply isort_sorted with (key := Identifier.count).
  intros x y. apply decreasingOrder_later.
Qed.

Lemma sortIdentifiers_length (l : list Identifier.t) :
  List.length (sortIdentifiers l) = List.length l.
Proof. unfold sortIdentifiers, Arr.sort. apply isort_length. Qed.

(** C4, on the code: with the default hook pattern both [.js-a] and
    [.js-b] match when tested alone, yet the counter of
    [analyzeSelectors] stops at 1 on the list of the two, whatever the
    selector parser returns.  The pattern carries the [g] flag, so the
    second test starts at the index where the first match ended. *)
Theorem javascriptSpecificSelectors_depends_on_predecessor
  (options : Options.t) (sa : SelectorAnalysis.t) :
  Options.javascriptSpecificSelectors options = Some Examples.hookSource ->
  RegExp Examples.hookSource "g" = Ok Examples.hookPattern ->
  analyzeSelectors selectorParser_parse RegExp options [".js-a"; ".js-b"]
  = Ok sa ->
  SelectorAnalysis.javascriptSpecificSelectors sa = 1
  /\ hookMatches Examples.hookPattern [".js-a"; ".js-b"] = 2
  /\ hookCount Examples.hookPattern 0 [".js-b"] = 1.
Proof.
  intros Hopt Hre H.
  apply analyzeSelectors_Ok in H. destruct H as [regexp [Hnew [Hc _]]].
  rewrite Hopt in Hnew. unfold newRegExp in Hnew. simpl in Hnew.
  rewrite Hre in Hnew. injection Hnew as Hnew. subst regexp.
  rewrite Hc. repeat split; vm_compute; reflexivity.
Qed.
End SelectorFacts.

Lemma javascriptSpecificSelectors_depends_on_predecessor_witness :
  exists sa,
    analyzeSelectors Examples.parseClass Examples.RegExp
      (Examples.noGzip 10 []) [".js-a"; ".js-b"] = Ok sa
    /\ SelectorAnalysis.javascriptSpecificSelectors sa = 1.
Proof.
  eexists. split; [vm_compute; reflexivity |].
  apply (javascriptSpecificSelectors_depends_on_predecessor
           Examples.parseClass Examples.RegExp (Examples.noGzip 10 [])
           (sa := SelectorAnalysis.Make 0 0 0 0 1 0 2
                    [Identifier.Make ".js-a" 1; Identifier.Make ".js-b" 1]));
    vm_compute; reflexivity.
Defined.

(** C5, on the code: the selector of the claim gets chain length 7, not 3.
    The first replacement removes at most one white-space character on
    each side of a combinator and the ends are not trimmed, so the split
    yields empty pieces that are counted.  Without the outer white space
    the code still counts 5 where the procedure of the specification
    counts 3; with single spaces both count 3. *)
Theorem chainLength_counts_empty_pieces :
  chainLength "  .a   >  .b ~ .c  " = 7
  /\ chainLength ".a   >  .b ~ .c" = 5
  /\ chainLength_as_specified ".a   >  .b ~ .c" = 3
  /\ chainLength ".a > .b ~ .c" = 3.
Proof. repeat split; vm_compute; reflexivity. Qed.

(** *** Colours *)

Lemma addOneColor_loop (cs : list string) :
  forall (acc : list string) (st : DeclState.t),
    let out := fold_left addOneColor cs (acc, st) in
    fst out = acc ++ filter keptColor (map normalizeColor cs)
    /\ DeclState.uniqueColor (snd out)
       = DeclState.uniqueColor st ++ filter keptColor (map normalizeColor cs)
    /\ DeclState.properties (snd out) = DeclState.properties st
    /\ DeclState.sourceMap (snd out) = DeclState.sourceMap st.
Proof.
  induction cs as [| c cs IH]; intros acc st; simpl.
  - rewrite !app_nil_r. repeat split; reflexivity.
  - destruct (keptColor (normalizeColor c)) eqn:E.
    + match goal with
      | |- context [fold_left addOneColor cs (?a, ?s)] =>
          destruct (IH a s) as [H1 [H2 [H3 H4]]]
      end.
      simpl in *. rewrite H1, H2, H3, H4, <- !app_assoc.
      repeat split; reflexivity.
    + apply IH.
Qed.

(** What [addColor] returns and how it extends the raw colour list. *)
Lemma addColor_spec (colors : option (list string)) (st : DeclState.t) :
  let cs := match colors with Some cs => cs | None => [] end in
  fst (addColor colors st) = filter keptColor (map normalizeColor cs)
  /\ DeclState.uniqueColor (snd (addColor colors st))
     = DeclState.uniqueColor st ++ filter keptColor (map normalizeColor cs)
  /\ DeclState.properties (snd (addColor colors st)) = DeclState.properties st.
Proof.
  destruct colors as [cs |]; simpl.
  - destruct (addOneColor_loop cs [] st) as [H1 [H2 [H3 _]]].
    simpl in H1. repeat split; assumption.
  - rewrite app_nil_r. repeat split; reflexivity.
Qed.

Lemma keptColor_not_keyword (c : string) :
  keptColor c = true -> c <> "TRANSPARENT" /\ c <> "INHERIT".
Proof.
  unfold keptColor. intros H.
  apply andb_prop in H. destruct H as [H1 H2].
  split; intros ->; discriminate.
Qed.

Lemma uniq_loop_In (x : string) (l : list string) :
  forall acc,
    In x (fold_left (fun result value =>
                       if Arr.contains result value then result
                       else result ++ [value]) l acc) ->
    In x acc \/ In x l.
Proof.
  induction l as [| y l IH]; intros acc H; simpl in *.
  - left. exact H.
  - apply IH in H. destruct H as [H | H]; [| right; right; exact H].
    destruct (Arr.contains acc y); [left; exact H |].
    apply in_app_or in H. destruct H as [H | [H | []]].
    + left. exact H.
    + right. left. exact H.
Qed.

Lemma uniq_In (x : string) (l : list string) : In x (Arr.uniq l) -> In x l.
Proof.
  intros H. apply uniq_loop_In in H. destruct H as [[] | H]. exact H.
Qed.

(** *** Declarations *)

Section DeclarationFacts.
Variable RegExp : string -> string -> result Regex.re.

(** One declaration: the raw colour list grows by [colorsOf] and the
    property dictionary by one count. *)
Lemma analyzeDeclaration_Ok (r : Regex.re) (st st' : DeclState.t)
  (d : Declaration.t) :
  analyzeDeclaration r st d = Ok st' ->
  DeclState.uniqueColor st' = DeclState.uniqueColor st ++ colorsOf r d
  /\ DeclState.properties st'
     = countProperty (Declaration.property d) (DeclState.properties st).
Proof.
  unfold analyzeDeclaration, colorsOf. intros H.
  apply bind_Ok in H. destruct H as [[[ffd ff] sm1] [_ H]].
  apply bind_Ok in H. destruct H as [[[fsd fs] sm2] [_ H]].
  apply bind_Ok in H. destruct H as [st3 [Hc H]].
  injection H as H. subst st'. simpl.
  destruct (Regex.test Patterns.colorPropertyRegex (Declaration.property d)).
  - match type of Hc with
    | context [addColor ?c ?s] =>
        destruct (addColor_spec c s) as [H1 [H2 H3]];
        destruct (addColor c s) as [added st4]
    end.
    simpl in H1, H2, H3.
    destruct added as [| a added].
    + injection Hc as Hc. subst st3. simpl.
      rewrite H2, H3, <- H1. split; reflexivity.
    + apply bind_Ok in Hc. destruct Hc as [sm [_ Hc]].
      injection Hc as Hc. subst st3. simpl.
      rewrite H2, H3. split; reflexivity.
  - injection Hc as Hc. subst st3. simpl.
    rewrite app_nil_r. split; reflexivity.
Qed.

Lemma analyzeDeclaration_loop (r : Regex.re) (declarations : list Declaration.t) :
  forall st st',
    foldM (analyzeDeclaration r) declarations st = Ok st' ->
    DeclState.uniqueColor st'
    = DeclState.uniqueColor st ++ flat_map (colorsOf r) declarations
    /\ DeclState.properties st'
       = countProperties declarations (DeclState.properties st).
Proof.
  induction declarations as [| d ds IH]; intros st st' H; simpl in H.
  - injection H as H. subst. simpl. rewrite app_nil_r. split; reflexivity.
  - apply bind_Ok in H. destruct H as [st1 [Hd H]].
    apply analyzeDeclaration_Ok in Hd. destruct Hd as [Hc Hp].
    apply IH in H. destruct H as [Hc' Hp'].
    simpl. rewrite Hc', Hp', Hc, Hp, <- app_assoc. split; reflexivity.
Qed.

(** What a successful [analyzeDeclarations] returns for the colours and
    the property statistics. *)
Lemma analyzeDeclarations_Ok (options : Options.t)
  (declarations : list Declaration.t) (sourceMap : SourceMap.t)
  (da : DeclarationAnalysis.t) :
  analyzeDeclarations RegExp options declarations sourceMap = Ok da ->
  exists r,
    DeclarationAnalysis.uniqueColor da
    = Arr.sortBy (Arr.uniq (flat_map (colorsOf r) declarations))
    /\ DeclarationAnalysis.properties da
       = sortProperties (propertyEntries (countProperties declarations [])).
Proof.
  unfold analyzeDeclarations, walkDeclarations. intros H.
  apply bind_Ok in H. destruct H as [st [Hw H]].
  apply bind_Ok in Hw. destruct Hw as [r [_ Hw]].
  injection H as H. subst da.
  apply analyzeDeclaration_loop in Hw. destruct Hw as [Hc Hp].
  exists r. simpl in *. rewrite Hc, Hp. split; reflexivity.
Qed.

Lemma uniqueColor_kept (options : Options.t)
  (declarations : list Declaration.t) (sourceMap : SourceMap.t)
  (da : DeclarationAnalysis.t) :
  analyzeDeclarations RegExp options declarations sourceMap = Ok da ->
  Forall (fun c => keptColor c = true) (DeclarationAnalysis.uniqueColor da).
Proof.
  intros H. apply analyzeDeclarations_Ok in H.
  destruct H as [r [Hc _]]. rewrite Hc.
  apply Forall_forall. intros c Hin.
  apply isort_In in Hin. apply uniq_In in Hin.
  apply in_flat_map in Hin. destruct Hin as [d [_ Hin]].
  unfold colorsOf in Hin.
  destruct (Regex.test Patterns.colorPropertyRegex (Declaration.property d));
    [| destruct Hin].
  apply filter_In in Hin. apply Hin.
Qed.
End DeclarationFacts.

(** *** Dictionaries *)

Module ObjFacts.

Lemma own_cons {V : Type} (k k' : string) (v : V) (o : Obj.t V) :
  Obj.own k ((k', v) :: o)
  = if String.eqb k' k then Some v else Obj.own k o.
Proof. unfold Obj.own. simpl. destruct (String.eqb k' k); reflexivity. Qed.

Lemma own_None {V : Type} (k : string) (o : Obj.t V) :
  Obj.own k o = None -> ~ In k (map fst o).
Proof.
  induction o as [| [k' v] o IH]; simpl; intros H; [tauto |].
  rewrite own_cons in H.
  destruct (String.eqb_spec k' k) as [E | E]; [discriminate |].
  intros [Hk | Hk]; [exact (E Hk) | exact (IH H Hk)].
Qed.

Lemma own_Some {V : Type} (k : string) (c : V) (o : Obj.t V) :
  Obj.own k o = Some c -> In (k, c) o.
Proof.
  induction o as [| [k' v] o IH]; simpl; intros H.
  - discriminate.
  - rewrite own_cons in H.
    destruct (String.eqb_spec k' k) as [E | E].
    + injection H as H. subst. left. reflexivity.
    + right. exact (IH H).
Qed.

Lemma own_In {V : Type} (k : string) (v : V) (o : Obj.t V) :
  NoDup (map fst o) -> In (k, v) o -> Obj.own k o = Some v.
Proof.
  induction o as [| [k' v'] o IH]; simpl; intros Hnd Hin; [destruct Hin |].
  rewrite own_cons. inversion Hnd as [| ? ? Hnot Hnd']; subst.
  destruct Hin as [Hin | Hin].
  - injection Hin as -> ->. rewrite String.eqb_refl. reflexivity.
  - destruct (String.eqb_spec k' k) as [E | E].
    + subst k'. exfalso. apply Hnot.
      change k with (fst (k, v)). apply in_map. exact Hin.
    + apply IH; assumption.
Qed.

Lemma put_new {V : Type} (k : string) (v : V) (o : Obj.t V) :
  Obj.own k o = None -> Obj.put k v o = o ++ [(k, v)].
Proof.
  induction o as [| [k' v'] o IH]; simpl; intros H; [reflexivity |].
  rewrite own_cons in H.
  destruct (String.eqb k' k); [discriminate |].
  rewrite (IH H). reflexivity.
Qed.

Lemma put_known_keys {V : Type} (k : string) (v c : V) (o : Obj.t V) :
  Obj.own k o = Some c -> map fst (Obj.put k v o) = map fst o.
Proof.
  induction o as [| [k' v'] o IH]; simpl; intros H; [discriminate |].
  rewrite own_cons in H.
  destruct (String.eqb_spec k' k) as [E | E]; simpl.
  - subst. reflexivity.
  - rewrite (IH H). reflexivity.
Qed.

Lemma put_Forall {V : Type} (P : string * V -> Prop) (k : string) (v : V)
  (o : Obj.t V) :
  P (k, v) -> Forall P o -> Forall P (Obj.put k v o).
Proof.
  intros Hv. induction 1 as [| [k' v'] o Hp Ho IH]; simpl.
  - constructor; [exact Hv | constructor].
  - destruct (String.eqb k' k); constructor; assumption.
Qed.

Lemma put_known_total (k : string) (v c : Num.count) (o : Obj.t Num.count) :
  Obj.own k o = Some c ->
  total (Obj.put k v o) + countValue c = total o + countValue v.
Proof.
  unfold total.
  induction o as [| [k' v'] o IH]; simpl; intros H; [discriminate |].
  rewrite own_cons in H.
  destruct (String.eqb k' k); simpl.
  - injection H as H. subst. lia.
  - specialize (IH H). lia.
Qed.

Lemma total_app (o1 o2 : Obj.t Num.count) :
  total (o1 ++ o2) = total o1 + total o2.
Proof. unfold total. rewrite map_app, list_sum_app. reflexivity. Qed.

Lemma inherited_proto (k : string) :
  Obj.inherited k = false -> String.eqb k "__proto__" = false.
Proof.
  intros H. destruct (String.eqb_spec k "__proto__") as [E | E];
    [| reflexivity].
  subst k. vm_compute in H. discriminate H.
Qed.

(** Counting one more declaration under a plain property name. *)
Lemma countProperty_counted (k : string) (o : Obj.t Num.count) :
  Obj.inherited k = false ->
  counted o ->
  counted (countProperty k o) /\ total (countProperty k o) = S (total o).
Proof.
  intros Hk [Hnd Hall].
  unfold countProperty, Obj.set, Obj.get.
  rewrite (inherited_proto k Hk), Hk.
  destruct (Obj.own k o) as [c |] eqn:E.
  - pose proof (own_Some k o E) as Hin.
    rewrite Forall_forall in Hall.
    destruct (Hall _ Hin) as [m Hm]. simpl in Hm. subst c. simpl.
    split; [split |].
    + rewrite (put_known_keys k _ o E). exact Hnd.
    + apply put_Forall; [exists (S m); reflexivity |].
      apply Forall_forall. exact Hall.
    + pose proof (put_known_total k (Num.Num (S (S m))) o E) as Ht.
      simpl in Ht. lia.
  - rewrite (put_new k _ o E). split; [split |].
    + rewrite map_app. simpl.
      apply NoDup_app_remove_l with (l := []). simpl.
      apply Permutation_NoDup with (k :: map fst o).
      * apply Permutation_cons_append.
      * constructor; [apply own_None; exact E | exact Hnd].
    + apply Forall_app. split; [exact Hall |].
      constructor; [exists 0; reflexivity | constructor].
    + rewrite total_app. unfold total at 2. simpl. lia.
Qed.

Lemma countProperties_counted (declarations : list Declaration.t) :
  forall o,
    Forall plainName declarations ->
    counted o ->
    counted (countProperties declarations o)
    /\ total (countProperties declarations o)
       = total o + List.length declarations.
Proof.
  unfold countProperties.
  induction declarations as [| d ds IH]; intros o Hpl Hc; simpl.
  - split; [exact Hc | lia].
  - inversion Hpl as [| ? ? Hd Hds]; subst.
    destruct (@countProperty_counted (Declaration.property d) o Hd Hc)
      as [Hc1 Ht1].
    destruct (IH _ Hds Hc1) as [Hc2 Ht2].
    split; [exact Hc2 | rewrite Ht2, Ht1; lia].
Qed.

Lemma filter_split {A : Type} (f : A -> bool) (l : list A) :
  Permutation (filter f l ++ filter (fun x => negb (f x)) l) l.
Proof.
  induction l as [| x l IH]; simpl; [constructor |].
  destruct (f x); simpl.
  - constructor. exact IH.
  - apply Permutation_sym.
    apply Permutation_cons_app. apply Permutation_sym. exact IH.
Qed.

(** [Object.keys] lists every own key once. *)
Lemma keys_perm {V : Type} (o : Obj.t V) :
  Permutation (Obj.keys o) (map fst o).
Proof.
  unfold Obj.keys.
  apply perm_trans
    with (filter Obj.is_index (map fst o)
          ++ filter (fun k => negb (Obj.is_index k)) (map fst o)).
  - apply Permutation_app_tail. apply Permutation_sym, isort_perm.
  - apply filter_split.
Qed.

Lemma entries_of_keys (o : Obj.t Num.count) (l : Obj.t Num.count) :
  NoDup (map fst o) ->
  incl l o ->
  flat_map (fun key => match Obj.own key o with
                       | Some c => [PropertyCount.Make key c]
                       | None => []
                       end) (map fst l)
  = map entryOf l.
Proof.
  intros Hnd. induction l as [| [k v] l IH]; simpl; intros Hincl;
    [reflexivity |].
  rewrite (own_In k v o Hnd) by (apply Hincl; left; reflexivity).
  simpl. unfold entryOf at 1. simpl. f_equal.
  apply IH. intros p Hp. apply Hincl. right. exact Hp.
Qed.

(** The entries built by [sortAnalyzeData] are those of the dictionary,
    up to order. *)
Lemma propertyEntries_perm (o : Obj.t Num.count) :
  NoDup (map fst o) -> Permutation (propertyEntries o) (map entryOf o).
Proof.
  intros Hnd. unfold propertyEntries.
  rewrite <- (entries_of_keys (o := o) (l := o) Hnd (incl_refl o)).
  apply Permutation_flat_map. apply keys_perm.
Qed.

Lemma sumCounts_perm (l l' : list PropertyCount.t) :
  Permutation l l' -> sumCounts l = sumCounts l'.
Proof.
  unfold sumCounts.
  induction 1; simpl; try lia.
Qed.

Lemma sumCounts_entries (o : Obj.t Num.count) :
  sumCounts (map entryOf o) = total o.
Proof.
  unfold sumCounts, total. rewrite map_map. reflexivity.
Qed.

Lemma sumCounts_firstn (n : nat) (l : list PropertyCount.t) :
  sumCounts (firstn n l) <= sumCounts l.
Proof.
  unfold sumCounts. revert n.
  induction l as [| e l IH]; intros [| n]; simpl; try lia.
  specialize (IH n). lia.
Qed.

Lemma sumCounts_slice0 (e : Z) (l : list PropertyCount.t) :
  sumCounts (Arr.slice0 e l) <= sumCounts l.
Proof.
  unfold Arr.slice0. destruct (e <? 0)%Z; apply sumCounts_firstn.
Qed.

Lemma slice0_all {A : Type} (e : Z) (l : list A) :
  (Z.of_nat (List.length l) <= e)%Z -> Arr.slice0 e l = l.
Proof.
  intros H. unfold Arr.slice0.
  destruct (Z.ltb_spec e 0) as [Hneg | Hpos]; [lia |].
  apply firstn_all2. lia.
Qed.

End ObjFacts.

(** *** The aggregator *)

Section AnalyzeFacts.
Variable selectorParser_parse : string -> result (list SelectorNode.t).
Variable RegExp : string -> string -> result Regex.re.
Variable gzipSize_sync : string -> result nat.

Variable rules : list Rule.t.
Variable selectors : list string.
Variable declarations : list Declaration.t.
Variable cssString : string.
Variable cssSize : nat.
Variable options : Options.t.
Variable sourceMap : SourceMap.t.

Local Abbreviation run :=
  (analyze selectorParser_parse RegExp gzipSize_sync rules selectors
           declarations cssString cssSize options sourceMap).

(** The members of a returned result that the properties below read. *)
Lemma analyze_Ok (a : Analysis.t) :
  run = Ok a ->
  exists sa da,
    analyzeSelectors selectorParser_parse RegExp options selectors = Ok sa
    /\ analyzeDeclarations RegExp options declarations sourceMap = Ok da
    /\ Analysis.simplicity a
       = when (Options.rules options && Options.selectors options
               && Options.simplicity options)
              (Num.div (List.length rules) (List.length selectors))
    /\ Analysis.ratioOfDataUriSize a
       = when (Options.dataUriSize options
               && Options.ratioOfDataUriSize options
               && negb (DeclarationAnalysis.dataUriSize da =? 0))
              (Num.div (DeclarationAnalysis.dataUriSize da) cssSize)
    /\ Analysis.mostIdentifierSelector a
       = when (Options.mostIdentifierSelector options
               && truthy_number (Options.mostIdentifierCount options))
              (map Identifier.selector
                   (Arr.slice0 (Options.mostIdentifierCount options)
                               (SelectorAnalysis.identifiers sa)))
    /\ Analysis.mostIdentifier a
       = (if Options.mostIdentifier options
          then option_map Identifier.count
                          (hd_error (SelectorAnalysis.identifiers sa))
          else None)
    /\ Analysis.uniqueColor a
       = when (Options.uniqueColor options)
              (DeclarationAnalysis.uniqueColor da)
    /\ Analysis.javascriptSpecificSelectors a
       = when (truthy_string (Options.javascriptSpecificSelectors options))
              (SelectorAnalysis.javascriptSpecificSelectors sa)
    /\ Analysis.propertiesCount a
       = when (truthy_number (Options.propertiesCount options))
              (Arr.slice0 (Options.propertiesCount options)
                          (DeclarationAnalysis.properties da)).
Proof.
  unfold analyze. intros H.
  apply bind_Ok in H. destruct H as [sa [Hsa H]].
  apply bind_Ok in H. destruct H as [da [Hda H]].
  apply bind_Ok in H. destruct H as [gz [_ H]].
  injection H as H. subst a. simpl.
  exists sa, da. repeat split; assumption.
Qed.

Lemma when_Some {A : Type} (flag : bool) (v : A) :
  when flag v <> None <-> flag = true.
Proof.
  destruct flag; simpl; split; intros H; try reflexivity; try discriminate.
  exfalso. apply H. reflexivity.
Qed.

Lemma when_value {A : Type} (flag : bool) (v w : A) :
  when flag v = Some w -> w = v.
Proof. destruct flag; simpl; intros H; [injection H as H; auto | discriminate]. Qed.

(** C1, amended: [simplicity] is in the result exactly when the options
    [rules], [selectors] and [simplicity] are all enabled, and
    [ratioOfDataUriSize] exactly when the options [dataUriSize] and
    [ratioOfDataUriSize] are enabled and the data-URI size (the dividend)
    is not zero.  The divisor is not tested: the value is the quotient
    as the division gives it, also for a divisor 0.  Otherwise the
    member is absent. *)
Theorem derived_metrics_presence (a : Analysis.t) :
  run = Ok a ->
  exists da,
    analyzeDeclarations RegExp options declarations sourceMap = Ok da
    /\ (Analysis.simplicity a <> None <->
        Options.rules options = true /\ Options.selectors options = true
        /\ Options.simplicity options = true)
    /\ (forall q, Analysis.simplicity a = Some q ->
                  q = Num.div (List.length rules) (List.length selectors))
    /\ (Analysis.ratioOfDataUriSize a <> None <->
        Options.dataUriSize options = true
        /\ Options.ratioOfDataUriSize options = true
        /\ DeclarationAnalysis.dataUriSize da <> 0)
    /\ (forall q, Analysis.ratioOfDataUriSize a = Some q ->
                  q = Num.div (DeclarationAnalysis.dataUriSize da) cssSize).
Proof.
  intros H. apply analyze_Ok in H.
  destruct H as [sa [da [_ [Hda [Hs [Hr _]]]]]].
  exists da. rewrite Hs, Hr. split; [exact Hda |].
  split; [| split; [| split]].
  - rewrite when_Some, !andb_true_iff. tauto.
  - intros q. apply when_value.
  - rewrite when_Some, !andb_true_iff, negb_true_iff, Nat.eqb_neq. tauto.
  - intros q. apply when_value.
Qed.

(** C6, amended: if the compression function fails while [gzippedSize]
    is enabled, the run aborts and returns no result at all; when the
    two analyzers themselves succeed the exception that leaves [analyze]
    is the one of the compression function. *)
Theorem gzip_failure_aborts (e : error) :
  Options.gzippedSize options = true ->
  gzipSize_sync cssString = Throw e ->
  exists e',
    run = Throw e'
    /\ (forall sa da,
          analyzeSelectors selectorParser_parse RegExp options selectors
          = Ok sa ->
          analyzeDeclarations RegExp options declarations sourceMap = Ok da ->
          e' = e).
Proof.
  intros Hopt Hgz. unfold analyze.
  destruct (analyzeSelectors selectorParser_parse RegExp options selectors)
    as [sa | e1]; simpl.
  - destruct (analyzeDeclarations RegExp options declarations sourceMap)
      as [da | e2]; simpl.
    + rewrite Hopt, Hgz. simpl. exists e. split; [reflexivity | auto].
    + exists e2. split; [reflexivity |]. intros ? ? _ Hd. discriminate Hd.
  - exists e1. split; [reflexivity |]. intros ? ? Hs. discriminate Hs.
Qed.

(** C7, amended: for declarations whose property names are not members
    of [Object.prototype], the counts of the complete property list
    computed by [analyzeDeclarations] are numbers that sum to the number
    of declarations.  The [propertiesCount] member of the result holds
    the first [options.propertiesCount] entries of that list only: its
    counts sum to at most the number of declarations, and to exactly
    that number when the option is not below the number of distinct
    properties. *)
Theorem propertiesCount_sum (a : Analysis.t) :
  run = Ok a ->
  Forall plainName declarations ->
  exists da,
    analyzeDeclarations RegExp options declarations sourceMap = Ok da
    /\ Forall (fun e => exists n, PropertyCount.count e = Num.Num (S n))
              (DeclarationAnalysis.properties da)
    /\ sumCounts (DeclarationAnalysis.properties da)
       = List.length declarations
    /\ Analysis.propertiesCount a
       = when (truthy_number (Options.propertiesCount options))
              (Arr.slice0 (Options.propertiesCount options)
                          (DeclarationAnalysis.properties da))
    /\ (forall l, Analysis.propertiesCount a = Some l ->
                  sumCounts l <= List.length declarations)
    /\ (forall l, Analysis.propertiesCount a = Some l ->
                  (Z.of_nat (List.length (DeclarationAnalysis.properties da))
                   <= Options.propertiesCount options)%Z ->
                  sumCounts l = List.length declarations).
Proof.
  intros H Hplain. apply analyze_Ok in H.
  destruct H as [sa [da [_ [Hda [_ [_ [_ [_ [_ [_ Hpc]]]]]]]]]].
  exists da. split; [exact Hda |].
  pose proof (analyzeDeclarations_Ok RegExp options declarations sourceMap Hda)
    as [r [_ Hp]].
  assert (Hcounted : counted ([] : Obj.t Num.count)).
  { split; constructor. }
  destruct (ObjFacts.countProperties_counted Hplain Hcounted)
    as [[Hnd Hall] Htot].
  assert (Hperm : Permutation (DeclarationAnalysis.properties da)
                    (map entryOf (countProperties declarations []))).
  { rewrite Hp. unfold sortProperties, Arr.sort.
    eapply perm_trans; [apply Permutation_sym, isort_perm |].
    apply ObjFacts.propertyEntries_perm. exact Hnd. }
  assert (Hsum : sumCounts (DeclarationAnalysis.properties da)
                 = List.length declarations).
  { rewrite (ObjFacts.sumCounts_perm Hperm), ObjFacts.sumCounts_entries, Htot.
    reflexivity. }
  split; [| split; [exact Hsum | split; [exact Hpc | split]]].
  - apply Permutation_Forall with (map entryOf (countProperties declarations []));
      [apply Permutation_sym; exact Hperm |].
    apply Forall_map. exact Hall.
  - intros l Hl. rewrite Hpc in Hl. apply when_value in Hl. subst l.
    rewrite <- Hsum. apply ObjFacts.sumCounts_slice0.
  - intros l Hl Hn. rewrite Hpc in Hl. apply when_value in Hl. subst l.
    rewrite ObjFacts.slice0_all by exact Hn. exact Hsum.
Qed.

(** C8: with [mostIdentifier], [mostIdentifierSelector] and
    [mostIdentifierCount] enabled, both members are read off the same
    list, the identifiers of all the selectors sorted descending by
    count: [mostIdentifierSelector] holds the selectors of its first
    [mostIdentifierCount] entries, head included, and [mostIdentifier]
    is the count of its head. *)
Theorem mostIdentifier_same_ranking (a : Analysis.t) :
  run = Ok a ->
  Options.mostIdentifier options = true ->
  Options.mostIdentifierSelector options = true ->
  truthy_number (Options.mostIdentifierCount options) = true ->
  exists sa,
    analyzeSelectors selectorParser_parse RegExp options selectors = Ok sa
    /\ StronglySorted identifiersDescending (SelectorAnalysis.identifiers sa)
    /\ Permutation (SelectorAnalysis.identifiers sa)
                   (map (fun s => Identifier.Make s (chainLength s)) selectors)
    /\ Analysis.mostIdentifierSelector a
       = Some (map Identifier.selector
                   (Arr.slice0 (Options.mostIdentifierCount options)
                               (SelectorAnalysis.identifiers sa)))
    /\ Analysis.mostIdentifier a
       = option_map Identifier.count
                    (hd_error (SelectorAnalysis.identifiers sa)).
Proof.
  intros H Hm Hs Hn. apply analyze_Ok in H.
  destruct H as [sa [da [Hsa [_ [_ [_ [Hsel [Hmost _]]]]]]]].
  exists sa. split; [exact Hsa |].
  destruct (analyzeSelectors_Ok _ _ _ _ Hsa) as [regexp [_ [_ Hi]]].
  rewrite Hsel, Hmost, Hm, Hs, Hn, Hi. simpl.
  split; [apply sortIdentifiers_sorted |].
  split; [| split; reflexivity].
  unfold sortIdentifiers, Arr.sort. apply Permutation_sym, isort_perm.
Qed.

(** C9: neither [TRANSPARENT] nor [INHERIT] is ever an element of
    [uniqueColor], and a candidate whose normal form ([!important]
    removed, upper case, trimmed) is one of the two is not among the
    colours [addColor] adds. *)
Theorem uniqueColor_excludes_keywords (a : Analysis.t) :
  run = Ok a ->
  (forall l, Analysis.uniqueColor a = Some l ->
             ~ In "TRANSPARENT" l /\ ~ In "INHERIT" l)
  /\ (forall colors st c,
        In c colors ->
        normalizeColor c = "TRANSPARENT" \/ normalizeColor c = "INHERIT" ->
        ~ In (normalizeColor c) (fst (addColor (Some colors) st))).
Proof.
  intros H. split.
  - intros l Hl. apply analyze_Ok in H.
    destruct H as [sa [da [_ [Hda [_ [_ [_ [_ [Hc _]]]]]]]]].
    rewrite Hc in Hl. apply when_value in Hl. subst l.
    pose proof (uniqueColor_kept RegExp options declarations sourceMap Hda)
      as Hk.
    rewrite Forall_forall in Hk.
    split; intros Hin; apply Hk in Hin; discriminate Hin.
  - intros colors st c _ Hkw Hin.
    destruct (addColor_spec (Some colors) st) as [Hf _].
    simpl in Hf, Hin. rewrite Hf in Hin.
    apply filter_In in Hin. destruct Hin as [_ Hk].
    apply keptColor_not_keyword in Hk. tauto.
Qed.

(** C10: the [javascriptSpecificSelectors] member is in the result
    exactly when the option of that name, the pattern source, is a
    non-empty string; the pattern compiled from that same string is the
    one the counter was obtained with. *)
Theorem javascriptSpecificSelectors_presence (a : Analysis.t) :
  run = Ok a ->
  (Analysis.javascriptSpecificSelectors a <> None <->
   truthy_string (Options.javascriptSpecificSelectors options) = true)
  /\ match Options.javascriptSpecificSelectors options with
     | Some source =>
         if String.eqb source ""
         then Analysis.javascriptSpecificSelectors a = None
         else exists regexp,
                RegExp source "g" = Ok regexp
                /\ Analysis.javascriptSpecificSelectors a
                   = Some (hookCount regexp 0 selectors)
     | None => Analysis.javascriptSpecificSelectors a = None
     end.
Proof.
  intros H. apply analyze_Ok in H.
  destruct H as [sa [da [Hsa [_ [_ [_ [_ [_ [_ [Hj _]]]]]]]]]].
  rewrite Hj. split; [apply when_Some |].
  destruct (analyzeSelectors_Ok _ _ _ _ Hsa) as [regexp [Hre [Hc _]]].
  unfold newRegExp in Hre.
  destruct (Options.javascriptSpecificSelectors options) as [source |];
    simpl; [| reflexivity].
  destruct (String.eqb source ""); simpl; [reflexivity |].
  exists regexp. rewrite Hc. split; [exact Hre | reflexivity].
Qed.

End AnalyzeFacts.

(* ------------------------------------------------------------------ *)
(** ** The properties on concrete stylesheets *)

Section Runs.
Import Examples.

Local Abbreviation analyze_with gzip :=
  (analyze parseClass Examples.RegExp gzip).

(** C1 as stated fails: on a stylesheet with one [@font-face] block there
    is no selector, the divisor of [simplicity] is 0, and the member is
    emitted all the same, as [Infinity]. *)
Lemma simplicity_emitted_for_divisor_zero :
  exists a,
    analyze_with gzipFails fontFaceRules [] [fontFace] fontFaceText 25
                 (noGzip 10 []) emptyMap = Ok a
    /\ Analysis.selectors a = Some 0
    /\ Analysis.simplicity a = Some Num.Infinity.
Proof. eexists. split; [vm_compute; reflexivity |]. split; reflexivity. Qed.

Lemma derived_metrics_presence_witness :
  exists a,
    analyze_with gzipFails sheetRules sheetSelectors sheetDeclarations
                 sheetText 70 (noGzip 10 []) emptyMap = Ok a
    /\ Analysis.simplicity a <> None
    /\ Analysis.ratioOfDataUriSize a <> None.
Proof.
  eexists. split; [vm_compute; reflexivity |].
  match goal with
  | |- Analysis.simplicity ?a <> None /\ _ =>
      destruct (@derived_metrics_presence parseClass Examples.RegExp
                  gzipFails sheetRules sheetSelectors sheetDeclarations
                  sheetText 70 (noGzip 10 []) emptyMap a)
        as [da [Hda [Hs [_ [Hr _]]]]]; [vm_compute; reflexivity |]
  end.
  split.
  - apply Hs. repeat split.
  - apply Hr. repeat split.
    vm_compute in Hda. injection Hda as Hda. subst da. discriminate.
Defined.

(** C6 as stated fails: with [gzippedSize] enabled and no compressor
    available the run returns no result; the exception of the
    compression function leaves [analyze]. *)
Lemma gzip_failure_is_not_recovered :
  analyze_with gzipFails sheetRules sheetSelectors sheetDeclarations
               sheetText 70 (allOn 10 []) emptyMap = Throw GzipError.
Proof. vm_compute. reflexivity. Qed.

Lemma gzip_failure_aborts_witness :
  exists e',
    analyze_with gzipFails sheetRules sheetSelectors sheetDeclarations
                 sheetText 70 (allOn 10 []) emptyMap = Throw e'.
Proof.
  destruct (@gzip_failure_aborts parseClass Examples.RegExp gzipFails
              sheetRules sheetSelectors sheetDeclarations sheetText 70
              (allOn 10 []) emptyMap GzipError eq_refl eq_refl)
    as [e' [He _]].
  exists e'. exact He.
Defined.

(** C7 as stated fails: with two declarations of different properties and
    [propertiesCount] set to 1 the member holds one entry of count 1. *)
Lemma propertiesCount_is_truncated :
  exists a l,
    analyze_with gzipFails sheetRules sheetSelectors sheetDeclarations
                 sheetText 70 (noGzip 1 []) emptyMap = Ok a
    /\ Analysis.propertiesCount a = Some l
    /\ sumCounts l = 1
    /\ List.length sheetDeclarations = 2.
Proof.
  eexists. eexists. split; [vm_compute; reflexivity |].
  split; [reflexivity |]. split; reflexivity.
Qed.

Lemma propertiesCount_sum_witness :
  exists a da,
    analyze_with gzipFails sheetRules sheetSelectors sheetDeclarations
                 sheetText 70 (noGzip 1 []) emptyMap = Ok a
    /\ analyzeDeclarations Examples.RegExp (noGzip 1 []) sheetDeclarations
                           emptyMap = Ok da
    /\ sumCounts (DeclarationAnalysis.properties da)
       = List.length sheetDeclarations.
Proof.
  eexists.
  match goal with
  | |- exists da, analyze_with _ _ _ _ _ _ _ _ = Ok ?a /\ _ =>
      assert (Hrun : analyze_with gzipFails sheetRules sheetSelectors
                       sheetDeclarations sheetText 70 (noGzip 1 [])
                       emptyMap = Ok a)
        by (vm_compute; reflexivity)
  end.
  destruct (@propertiesCount_sum parseClass Examples.RegExp gzipFails
              sheetRules sheetSelectors sheetDeclarations sheetText 70
              (noGzip 1 []) emptyMap _ Hrun)
    as [da [Hda [_ [Hsum _]]]].
  - repeat constructor.
  - exists da. split; [exact Hrun | split; [exact Hda | exact Hsum]].
Defined.

Lemma mostIdentifier_same_ranking_witness :
  exists a,
    analyze_with gzipFails sheetRules sheetSelectors sheetDeclarations
                 sheetText 70 (noGzip 1 []) emptyMap = Ok a
    /\ Analysis.mostIdentifierSelector a = Some [".b .c"]
    /\ Analysis.mostIdentifier a = Some 2.
Proof.
  eexists.
  match goal with
  | |- analyze_with _ _ _ _ _ _ _ _ = Ok ?a /\ _ =>
      assert (Hrun : analyze_with gzipFails sheetRules sheetSelectors
                       sheetDeclarations sheetText 70 (noGzip 1 [])
                       emptyMap = Ok a)
        by (vm_compute; reflexivity)
  end.
  split; [exact Hrun |].
  destruct (@mostIdentifier_same_ranking parseClass Examples.RegExp
              gzipFails sheetRules sheetSelectors sheetDeclarations
              sheetText 70 (noGzip 1 []) emptyMap _ Hrun
              eq_refl eq_refl eq_refl)
    as [sa [Hsa [_ [_ [Hsel Hmost]]]]].
  vm_compute in Hsa. injection Hsa as Hsa. subst sa.
  split; [exact Hsel | exact Hmost].
Defined.

Lemma uniqueColor_excludes_keywords_witness :
  exists a,
    analyze_with gzipFails [] [] keywordDeclarations "" 0
                 (noGzip 10 ["transparent"]) emptyMap = Ok a
    /\ Analysis.uniqueColor a = Some ["#AABBCC"]
    /\ ~ In "TRANSPARENT" ["#AABBCC"].
Proof.
  eexists.
  match goal with
  | |- analyze_with _ _ _ _ _ _ _ _ = Ok ?a /\ _ =>
      assert (Hrun : analyze_with gzipFails [] [] keywordDeclarations "" 0
                       (noGzip 10 ["transparent"]) emptyMap = Ok a)
        by (vm_compute; reflexivity)
  end.
  split; [exact Hrun |]. split; [reflexivity |].
  destruct (@uniqueColor_excludes_keywords parseClass Examples.RegExp
              gzipFails [] [] keywordDeclarations "" 0
              (noGzip 10 ["transparent"]) emptyMap _ Hrun) as [Hl _].
  apply (Hl ["#AABBCC"]). reflexivity.
Defined.

Lemma javascriptSpecificSelectors_presence_witness :
  exists a,
    analyze_with gzipFails [] [".js-a"; ".x"; ".js-b"] [] "" 0
                 (noGzip 10 []) emptyMap = Ok a
    /\ Analysis.javascriptSpecificSelectors a <> None.
Proof.
  eexists.
  match goal with
  | |- analyze_with _ _ _ _ _ _ _ _ = Ok ?a /\ _ =>
      assert (Hrun : analyze_with gzipFails [] [".js-a"; ".x"; ".js-b"] []
                       "" 0 (noGzip 10 []) emptyMap = Ok a)
        by (vm_compute; reflexivity)
  end.
  split; [exact Hrun |].
  destruct (@javascriptSpecificSelectors_presence parseClass Examples.RegExp
              gzipFails [] [".js-a"; ".x"; ".js-b"] [] "" 0
              (noGzip 10 []) emptyMap _ Hrun) as [Hp _].
  apply Hp. reflexivity.
Defined.

(** Why C7 is stated for plain property names: under an inherited name
    the value the dictionary holds is not a number. *)
Remark inherited_property_name_is_not_counted :
  propertyEntries (countProperties [decl "constructor" "x" 1] [])
  = [PropertyCount.Make "constructor" (Num.Src "constructor" 1)]
  /\ propertyEntries (countProperties [decl "__proto__" "x" 1] []) = [].
Proof. split; reflexivity. Qed.

(** C3, on the code: [rgbRegex] asks for a comma after the third channel,
    so [rgb(0,0,0)] does not match it; the value yields no colour at all
    and [uniqueColor] stays empty, although [rgbToHex] on the three
    channels would give [#000000].  With an alpha channel the conversion
    takes place: [rgba(255,255,255,0.5)] gives [#FFFFFF]. *)
Theorem rgb_without_alpha_is_not_converted :
  Regex.exec Patterns.rgbRegex "rgb(0,0,0)" = None
  /\ (exists da,
        analyzeDeclarations Examples.RegExp (noGzip 10 [])
          [decl "color" "rgb(0,0,0)" 1] emptyMap = Ok da
        /\ DeclarationAnalysis.uniqueColor da = [])
  /\ (exists da,
        analyzeDeclarations Examples.RegExp (noGzip 10 ["transparent"])
          [decl "color" "rgb(0,0,0)" 1] emptyMap = Ok da
        /\ DeclarationAnalysis.uniqueColor da = [])
  /\ Str.toUpperCase (rgbToHex "0" "0" "0") = "#000000"
  /\ (exists da,
        analyzeDeclarations Examples.RegExp (noGzip 10 [])
          [decl "color" "rgba(255,255,255,0.5)" 1] emptyMap = Ok da
        /\ DeclarationAnalysis.uniqueColor da = ["#FFFFFF"]).
Proof.
  split; [vm_compute; reflexivity |].
  split; [eexists; split; [vm_compute; reflexivity | reflexivity] |].
  split; [eexists; split; [vm_compute; reflexivity | reflexivity] |].
  split; [vm_compute; reflexivity |].
  eexists; split; [vm_compute; reflexivity | reflexivity].
Qed.

End Runs.

(* ------------------------------------------------------------------ *)
(** ** Further properties of the code *)

(** *** The matcher on literal patterns and on later start positions *)

Module RegexFacts.
Import Regex.

Lemma rmatch_Lit (p : list ascii) :
  forall (k : mstate -> option mstate) (st : mstate),
    rmatch (Lit_chars false p) k st
    = if Str.starts_with p (after st)
      then k (MState (rev p ++ before st)
                     (skipn (List.length p) (after st)) (caps st))
      else None.
Proof.
  induction p as [| c p IH]; intros k [pre suf cs]; simpl.
  - reflexivity.
  - destruct suf as [| x suf]; [reflexivity |].
    unfold Chars.lit. destruct (Ascii.eqb_spec c x) as [E | E]; simpl.
    + subst x. rewrite IH. simpl. rewrite <- app_assoc. reflexivity.
    + reflexivity.
Qed.

(** Searching a literal is the substring test. *)
Lemma search_Lit (p : list ascii) :
  forall pre suf,
    (match search (Lit_chars false p) pre suf with
     | Some _ => true
     | None => false
     end) = Str.contains_chars p suf.
Proof.
  intros pre suf. revert pre.
  induction suf as [| x suf IH]; intros pre.
  - simpl. unfold match_at. rewrite rmatch_Lit. simpl.
    destruct (Str.starts_with p []); reflexivity.
  - simpl. unfold match_at. rewrite rmatch_Lit. simpl.
    destruct (Str.starts_with p (x :: suf)); simpl; [reflexivity |].
    apply IH.
Qed.

Lemma test_Lit (p s : string) : test (Lit p) s = Str.contains p s.
Proof.
  unfold test, exec, search_from, Lit, Str.contains. simpl.
  apply search_Lit.
Qed.

Lemma exec_Lit_None (p s : string) :
  Str.contains p s = false -> exec (Lit p) s = None.
Proof.
  intros H. rewrite <- test_Lit in H. unfold test in H.
  destruct (exec (Lit p) s); [discriminate | reflexivity].
Qed.

(** A match found from a later start position is not lost when the
    search starts earlier. *)
Lemma search_earlier (r : re) (l : list ascii) :
  forall (i : nat) (pre : list ascii),
    search r (rev (firstn i l) ++ pre) (skipn i l) <> None ->
    search r pre l <> None.
Proof.
  induction l as [| x l IH]; intros [| i] pre H; simpl in *; try exact H.
  destruct (match_at r (MState pre (x :: l) [])); [discriminate |].
  apply (IH i (x :: pre)).
  rewrite <- app_assoc in H. exact H.
Qed.

Lemma test_g_sound (r : re) (i : nat) (s : string) :
  fst (test_g r i s) = true -> test r s = true.
Proof.
  unfold test_g, test, exec, search_from.
  destruct (String.length s <? i); [discriminate |].
  destruct (search r (rev (firstn i (Str.chars s))) (skipn i (Str.chars s)))
    as [f |] eqn:E; [| discriminate].
  intros _.
  pose proof (@search_earlier r (Str.chars s) i []) as H.
  rewrite app_nil_r, E in H. simpl.
  destruct (search r [] (Str.chars s)); [reflexivity |].
  exfalso. apply H; [discriminate | reflexivity].
Qed.

End RegexFacts.

(** *** Selector counters *)

Lemma bump_plus (b : bool) (n : nat) : bump b n = n + bump b 0.
Proof. destruct b; simpl; lia. Qed.

Lemma countIf_le {A : Type} (f : A -> bool) (l : list A) :
  countIf f l <= List.length l.
Proof. unfold countIf. apply filter_length_le. Qed.

Lemma countIf_cons {A : Type} (f : A -> bool) (x : A) (l : list A) :
  countIf f (x :: l) = bump (f x) 0 + countIf f l.
Proof. unfold countIf. simpl. destruct (f x); reflexivity. Qed.

Lemma universal_tag (n : SelectorNode.t) :
  truthy_string (SelectorNode.tagName n)
  && match SelectorNode.tagName n with
     | Some t => String.eqb t "*"
     | None => false
     end
  = match SelectorNode.tagName n with
    | Some t => String.eqb t "*"
    | None => false
    end.
Proof.
  destruct (SelectorNode.tagName n) as [t |]; simpl; [| reflexivity].
  destruct (String.eqb_spec t "*") as [E | E]; [subst; reflexivity |].
  apply andb_false_r.
Qed.

(** The [while] loop over a chain raises each flag exactly when some node
    of the chain calls for it. *)
Lemma walk_chain (chain : list SelectorNode.t) :
  forall f : Flags.t,
    fold_left walk chain f
    = Flags.Make (Flags.hasClass f || chainHasClass chain)
                 (Flags.hasTag f || chainHasTag chain)
                 (Flags.hasId f || chainHasId chain)
                 (Flags.hasAttr f || chainHasAttr chain)
                 (Flags.hasUnqAttr f || chainHasUnqAttr chain)
                 (Flags.hasUniversal f || chainHasUniversal chain).
Proof.
  induction chain as [| n chain IH]; intros f; simpl.
  - destruct f; simpl. rewrite !orb_false_r. reflexivity.
  - rewrite IH. unfold walk at 1 2 3 4 5 6. simpl.
    rewrite universal_tag, !orb_assoc. reflexivity.
Qed.

Section SelectorCounters.
Variable selectorParser_parse : string -> result (list SelectorNode.t).
Variable RegExp : string -> string -> result Regex.re.

Lemma analyzeSelector_counters (regexp : Regex.re) (r r' : SelectorAnalysis.t)
  (li li' : nat) (selector : string) :
  analyzeSelector selectorParser_parse regexp (r, li) selector = Ok (r', li') ->
  exists chain,
    selectorParser_parse selector = Ok chain
    /\ SelectorAnalysis.idSelectors r'
       = SelectorAnalysis.idSelectors r + bump (chainHasId chain) 0
    /\ SelectorAnalysis.universalSelectors r'
       = SelectorAnalysis.universalSelectors r + bump (chainHasUniversal chain) 0
    /\ SelectorAnalysis.attributeSelectors r'
       = SelectorAnalysis.attributeSelectors r + bump (chainHasAttr chain) 0
    /\ SelectorAnalysis.unqualifiedAttributeSelectors r'
       = SelectorAnalysis.unqualifiedAttributeSelectors r
         + bump (chainHasUnqAttr chain) 0
    /\ SelectorAnalysis.elementSelectors r'
       = SelectorAnalysis.elementSelectors r + bump (chainHasTag chain) 0
    /\ SelectorAnalysis.classSelectors r'
       = SelectorAnalysis.classSelectors r + bump (chainHasClass chain) 0.
Proof.
  unfold analyzeSelector. intros H.
  apply bind_Ok in H. destruct H as [chain [Hp H]].
  destruct (Regex.test_g regexp li (Str.trim selector)) as [hook l2].
  injection H as Hr _. subst r'. simpl.
  exists chain. split; [exact Hp |].
  rewrite walk_chain. simpl.
  repeat split; apply bump_plus.
Qed.

Lemma analyzeSelector_counters_loop (regexp : Regex.re)
  (selectors : list string) :
  forall (r r' : SelectorAnalysis.t) (li li' : nat),
    foldM (analyzeSelector selectorParser_parse regexp) selectors (r, li)
    = Ok (r', li') ->
    exists chains,
      Forall2 (fun s c => selectorParser_parse s = Ok c) selectors chains
      /\ SelectorAnalysis.idSelectors r'
         = SelectorAnalysis.idSelectors r + countIf chainHasId chains
      /\ SelectorAnalysis.universalSelectors r'
         = SelectorAnalysis.universalSelectors r
           + countIf chainHasUniversal chains
      /\ SelectorAnalysis.attributeSelectors r'
         = SelectorAnalysis.attributeSelectors r + countIf chainHasAttr chains
      /\ SelectorAnalysis.unqualifiedAttributeSelectors r'
         = SelectorAnalysis.unqualifiedAttributeSelectors r
           + countIf chainHasUnqAttr chains
      /\ SelectorAnalysis.elementSelectors r'
         = SelectorAnalysis.elementSelectors r + countIf chainHasTag chains
      /\ SelectorAnalysis.classSelectors r'
         = SelectorAnalysis.classSelectors r + countIf chainHasClass chains.
Proof.
  induction selectors as [| s rest IH]; intros r r' li li' H; simpl in H.
  - injection H as Hr _. subst r'. exists [].
    split; [constructor |]. unfold countIf. simpl.
    rewrite !Nat.add_0_r. repeat split.
  - apply bind_Ok in H. destruct H as [[r1 l1] [Hstep Hrest]].
    apply analyzeSelector_counters in Hstep.
    destruct Hstep as [chain [Hp [H1 [H2 [H3 [H4 [H5 H6]]]]]]].
    apply IH in Hrest.
    destruct Hrest as [chains [HF [G1 [G2 [G3 [G4 [G5 G6]]]]]]].
    exists (chain :: chains). split; [constructor; assumption |].
    rewrite !countIf_cons, G1, G2, G3, G4, G5, G6, H1, H2, H3, H4, H5, H6.
    repeat split; lia.
Qed.

Lemma analyzeSelectors_counts (options : Options.t)
  (selectors : list string) (sa : SelectorAnalysis.t) :
  analyzeSelectors selectorParser_parse RegExp options selectors = Ok sa ->
  exists chains,
    Forall2 (fun s c => selectorParser_parse s = Ok c) selectors chains
    /\ SelectorAnalysis.idSelectors sa = countIf chainHasId chains
    /\ SelectorAnalysis.universalSelectors sa = countIf chainHasUniversal chains
    /\ SelectorAnalysis.attributeSelectors sa = countIf chainHasAttr chains
    /\ SelectorAnalysis.unqualifiedAttributeSelectors sa
       = countIf chainHasUnqAttr chains
    /\ SelectorAnalysis.elementSelectors sa = countIf chainHasTag chains
    /\ SelectorAnalysis.classSelectors sa = countIf chainHasClass chains.
Proof.
  unfold analyzeSelectors. intros H.
  apply bind_Ok in H. destruct H as [regexp [_ H]].
  apply bind_Ok in H. destruct H as [[r li] [Hloop H]].
  injection H as H. subst sa. simpl.
  apply analyzeSelector_counters_loop in Hloop.
  exact Hloop.
Qed.

(** X1: every structural counter of [analyzeSelectors] counts selectors,
    not chain nodes: it is the number of selectors whose parsed chain has
    some node calling for the flag. *)
Theorem selector_counters_count_selectors (options : Options.t)
  (selectors : list string) (sa : SelectorAnalysis.t) :
  analyzeSelectors selectorParser_parse RegExp options selectors = Ok sa ->
  exists chains,
    Forall2 (fun s c => selectorParser_parse s = Ok c) selectors chains
    /\ SelectorAnalysis.idSelectors sa = countIf chainHasId chains
    /\ SelectorAnalysis.universalSelectors sa = countIf chainHasUniversal chains
    /\ SelectorAnalysis.attributeSelectors sa = countIf chainHasAttr chains
    /\ SelectorAnalysis.unqualifiedAttributeSelectors sa
       = countIf chainHasUnqAttr chains
    /\ SelectorAnalysis.elementSelectors sa = countIf chainHasTag chains
    /\ SelectorAnalysis.classSelectors sa = countIf chainHasClass chains.
Proof. apply analyzeSelectors_counts. Qed.

Lemma hookCount_le_matches (regexp : Regex.re) (selectors : list string) :
  forall li, hookCount regexp li selectors <= hookMatches regexp selectors.
Proof.
  unfold hookMatches.
  induction selectors as [| s rest IH]; intros li; simpl; [lia |].
  destruct (Regex.test_g regexp li (Str.trim s)) as [hook l2] eqn:E.
  specialize (IH l2).
  destruct hook; simpl.
  - assert (Ht : Regex.test regexp (Str.trim s) = true).
    { apply RegexFacts.test_g_sound with (i := li). rewrite E. reflexivity. }
    rewrite Ht. simpl. lia.
  - destruct (Regex.test regexp (Str.trim s)); simpl; lia.
Qed.

Lemma analyzeSelectors_hook_bound (options : Options.t)
  (selectors : list string) (sa : SelectorAnalysis.t) :
  analyzeSelectors selectorParser_parse RegExp options selectors = Ok sa ->
  exists regexp,
    newRegExp RegExp (Options.javascriptSpecificSelectors options) "g"
    = Ok regexp
    /\ SelectorAnalysis.javascriptSpecificSelectors sa
       <= hookMatches regexp selectors
    /\ hookMatches regexp selectors <= List.length selectors.
Proof.
  intros H. apply analyzeSelectors_Ok in H.
  destruct H as [regexp [Hre [Hc _]]].
  exists regexp. split; [exact Hre |]. split.
  - rewrite Hc. apply hookCount_le_matches.
  - unfold hookMatches. apply filter_length_le.
Qed.

(** X2: the hook counter never counts a selector that does not match: it
    is at most the number of selectors whose trimmed text matches the
    compiled pattern. *)
Theorem javascriptSpecificSelectors_at_most_matches (options : Options.t)
  (selectors : list string) (sa : SelectorAnalysis.t) :
  analyzeSelectors selectorParser_parse RegExp options selectors = Ok sa ->
  exists regexp,
    newRegExp RegExp (Options.javascriptSpecificSelectors options) "g"
    = Ok regexp
    /\ SelectorAnalysis.javascriptSpecificSelectors sa
       <= hookMatches regexp selectors
    /\ hookMatches regexp selectors <= List.length selectors.
Proof. apply analyzeSelectors_hook_bound. Qed.

Lemma foldM_Throw {A S : Type} (f : S -> A -> result S) (good : list A)
  (x : A) (rest : list A) (e : error) :
  (forall s, f s x = Throw e) ->
  Forall (fun y => forall s, exists s', f s y = Ok s') good ->
  forall s, foldM f (good ++ x :: rest) s = Throw e.
Proof.
  intros Hx. induction 1 as [| y good Hy _ IH]; intros s; simpl.
  - rewrite Hx. reflexivity.
  - destruct (Hy s) as [s' Hs']. rewrite Hs'. simpl. apply IH.
Qed.

Lemma analyzeSelector_parsed (regexp : Regex.re) (selector : string)
  (chain : list SelectorNode.t) :
  selectorParser_parse selector = Ok chain ->
  forall acc, exists acc',
    analyzeSelector selectorParser_parse regexp acc selector = Ok acc'.
Proof.
  intros Hp [r li]. unfold analyzeSelector. rewrite Hp. simpl.
  destruct (Regex.test_g regexp li (Str.trim selector)).
  eexists. reflexivity.
Qed.

Lemma analyzeSelectors_malformed (options : Options.t)
  (good : list string) (bad : string) (rest : list string)
  (regexp : Regex.re) (e : error) :
  newRegExp RegExp (Options.javascriptSpecificSelectors options) "g"
  = Ok regexp ->
  Forall (fun s => exists chain, selectorParser_parse s = Ok chain) good ->
  selectorParser_parse bad = Throw e ->
  analyzeSelectors selectorParser_parse RegExp options (good ++ bad :: rest)
  = Throw e.
Proof.
  intros Hre Hgood Hbad. unfold analyzeSelectors. rewrite Hre. simpl.
  rewrite foldM_Throw with (e := e); [reflexivity | |].
  - intros [r li]. unfold analyzeSelector. rewrite Hbad. reflexivity.
  - eapply Forall_impl; [| exact Hgood].
    intros s [chain Hc]. apply analyzeSelector_parsed with (chain := chain).
    exact Hc.
Qed.

End SelectorCounters.

(** *** The head of a sorted list *)

Lemma list_max_perm (l l' : list nat) :
  Permutation l l' -> list_max l = list_max l'.
Proof.
  induction 1 as [| x l l' _ IH | x y l | l l' l'' _ IH1 _ IH2]; simpl.
  - reflexivity.
  - rewrite IH. reflexivity.
  - lia.
  - congruence.
Qed.

Lemma sorted_head_max {A : Type} (key : A -> nat) (l : list A) :
  StronglySorted (fun a b => key b <= key a) l ->
  option_map key (hd_error l)
  = match l with
    | [] => None
    | _ :: _ => Some (list_max (map key l))
    end.
Proof.
  intros Hs. destruct l as [| x l]; simpl; [reflexivity |].
  inversion Hs as [| ? ? _ Hall]; subst.
  f_equal. symmetry. apply Nat.max_l.
  apply list_max_le. apply Forall_map. exact Hall.
Qed.

Lemma sorted_perm_head_max {A : Type} (key : A -> nat) (l l' : list A) :
  StronglySorted (fun a b => key b <= key a) l ->
  Permutation l l' ->
  option_map key (hd_error l)
  = match l' with
    | [] => None
    | _ :: _ => Some (list_max (map key l'))
    end.
Proof.
  intros Hs Hp. rewrite (sorted_head_max key Hs).
  destruct l as [| x l]; destruct l' as [| y l'].
  - reflexivity.
  - apply Permutation_nil in Hp. discriminate Hp.
  - apply Permutation_sym, Permutation_nil in Hp. discriminate Hp.
  - f_equal. apply list_max_perm. apply Permutation_map. exact Hp.
Qed.

(** *** More of the aggregator *)

Section AggregatorFacts.
Variable selectorParser_parse : string -> result (list SelectorNode.t).
Variable RegExp : string -> string -> result Regex.re.
Variable gzipSize_sync : string -> result nat.

Variable rules : list Rule.t.
Variable selectors : list string.
Variable declarations : list Declaration.t.
Variable cssString : string.
Variable cssSize : nat.
Variable options : Options.t.
Variable sourceMap : SourceMap.t.

Local Abbreviation run :=
  (analyze selectorParser_parse RegExp gzipSize_sync rules selectors
           declarations cssString cssSize options sourceMap).

(** The other members of a returned result. *)
Lemma analyze_Ok_members (a : Analysis.t) :
  run = Ok a ->
  exists sa da,
    analyzeSelectors selectorParser_parse RegExp options selectors = Ok sa
    /\ analyzeDeclarations RegExp options declarations sourceMap = Ok da
    /\ Analysis.lowestCohesion a
       = (if Options.lowestCohesion options
          then option_map RuleCount.count
                 (hd_error (RuleAnalysis.cssDeclarations (analyzeRules rules)))
          else None)
    /\ Analysis.lowestCohesionSelector a
       = (if Options.lowestCohesionSelector options
          then option_map RuleCount.selector
                 (hd_error (RuleAnalysis.cssDeclarations (analyzeRules rules)))
          else None)
    /\ (Analysis.idSelectors a
        = when (Options.idSelectors options)
               (SelectorAnalysis.idSelectors sa)
        /\ Analysis.universalSelectors a
           = when (Options.universalSelectors options)
                  (SelectorAnalysis.universalSelectors sa)
        /\ Analysis.unqualifiedAttributeSelectors a
           = when (Options.unqualifiedAttributeSelectors options)
                  (SelectorAnalysis.unqualifiedAttributeSelectors sa)
        /\ Analysis.attributeSelectors a
           = when (Options.attributeSelectors options)
                  (SelectorAnalysis.attributeSelectors sa)
        /\ Analysis.elementSelectors a
           = when (Options.elementSelectors options)
                  (SelectorAnalysis.elementSelectors sa)
        /\ Analysis.classSelectors a
           = when (Options.classSelectors options)
                  (SelectorAnalysis.classSelectors sa))
    /\ (Analysis.dataUriSize a
        = when (Options.dataUriSize options)
               (DeclarationAnalysis.dataUriSize da)
        /\ Analysis.importantKeywords a
           = when (Options.importantKeywords options)
                  (DeclarationAnalysis.importantKeywords da)
        /\ Analysis.floatProperties a
           = when (Options.floatProperties options)
                  (DeclarationAnalysis.floatProperties da))
    /\ (Analysis.totalUniqueColors a
        = when (Options.totalUniqueColors options)
               (List.length (DeclarationAnalysis.uniqueColor da))
        /\ Analysis.uniqueFontFamily a
           = when (Options.uniqueFontFamily options)
                  (DeclarationAnalysis.uniqueFontFamily da)
        /\ Analysis.totalUniqueFontFamilies a
           = when (Options.totalUniqueFontFamilies options)
                  (List.length (DeclarationAnalysis.uniqueFontFamily da))
        /\ Analysis.uniqueFontSize a
           = when (Options.uniqueFontSize options)
                  (DeclarationAnalysis.uniqueFontSize da)
        /\ Analysis.totalUniqueFontSizes a
           = when (Options.totalUniqueFontSizes options)
                  (List.length (DeclarationAnalysis.uniqueFontSize da)))
    /\ Analysis.sourceMap a
       = when (Options.sourceMap options) (DeclarationAnalysis.sourceMap da).
Proof.
  unfold analyze. intros H.
  apply bind_Ok in H. destruct H as [sa [Hsa H]].
  apply bind_Ok in H. destruct H as [da [Hda H]].
  apply bind_Ok in H. destruct H as [gz [_ H]].
  injection H as H. subst a. simpl.
  exists sa, da. repeat split; assumption.
Qed.

(** X3: each of the seven selector counters of the result is at most the
    number of selectors. *)
Theorem selector_counters_bounded (a : Analysis.t) :
  run = Ok a ->
  forall n,
    In (Some n)
       [ Analysis.idSelectors a; Analysis.universalSelectors a;
         Analysis.unqualifiedAttributeSelectors a;
         Analysis.attributeSelectors a; Analysis.elementSelectors a;
         Analysis.classSelectors a; Analysis.javascriptSpecificSelectors a ] ->
    n <= List.length selectors.
Proof.
  intros H n Hin.
  pose proof H as H0. apply analyze_Ok in H0.
  destruct H0 as [sa0 [da0 [Hsa0 [_ [_ [_ [_ [_ [_ [Hj _]]]]]]]]]].
  apply analyze_Ok_members in H.
  destruct H as [sa [da [Hsa [_ [_ [_ [[H1 [H2 [H3 [H4 [H5 H6]]]]] _]]]]]]].
  rewrite Hsa in Hsa0. injection Hsa0 as Hsa0. subst sa0.
  destruct (analyzeSelectors_counts _ _ _ _ Hsa)
    as [chains [HF [G1 [G2 [G3 [G4 [G5 G6]]]]]]].
  destruct (analyzeSelectors_hook_bound _ _ _ _ Hsa)
    as [regexp [_ [Gj Gm]]].
  assert (Hlen : List.length chains = List.length selectors).
  { symmetry. eapply Forall2_length. exact HF. }
  rewrite H1, H2, H3, H4, H5, H6, Hj in Hin.
  rewrite G1, G2, G3, G4, G5, G6 in Hin.
  rewrite <- Hlen.
  simpl in Hin.
  repeat match goal with
         | H : _ \/ _ |- _ => destruct H as [H | H]
         | H : when _ _ = Some _ |- _ => apply when_value in H; subst n
         | H : False |- _ => destruct H
         end;
    try apply countIf_le.
  rewrite Hlen. lia.
Qed.

(** X4: a selector the parser rejects aborts the whole run: when the hook
    pattern compiles, [analyze] ends with the exception of the first
    rejected selector and returns no result, whatever the rules, the
    declarations and the options are. *)
Theorem malformed_selector_aborts (good : list string) (bad : string)
  (rest : list string) (regexp : Regex.re) (e : error) :
  newRegExp RegExp (Options.javascriptSpecificSelectors options) "g"
  = Ok regexp ->
  Forall (fun s => exists chain, selectorParser_parse s = Ok chain) good ->
  selectorParser_parse bad = Throw e ->
  analyze selectorParser_parse RegExp gzipSize_sync rules
          (good ++ bad :: rest) declarations cssString cssSize options
          sourceMap
  = Throw e.
Proof.
  intros Hre Hgood Hbad. unfold analyze.
  rewrite (@analyzeSelectors_malformed selectorParser_parse RegExp options
             good bad rest regexp e Hre Hgood Hbad).
  reflexivity.
Qed.

(** X5: a hook pattern that does not compile aborts the run with the
    exception of [new RegExp], before any selector is looked at. *)
Theorem bad_hook_pattern_aborts (source : string) (e : error) :
  Options.javascriptSpecificSelectors options = Some source ->
  source <> "" ->
  RegExp source "g" = Throw e ->
  run = Throw e.
Proof.
  intros Hopt Hne Hre. unfold analyze, analyzeSelectors, newRegExp.
  rewrite Hopt.
  destruct (String.eqb_spec source "") as [E | _]; [contradiction |].
  rewrite Hre. reflexivity.
Qed.

(** X6: [mostIdentifier], when enabled, is the largest chain length among
    the selectors; it is absent exactly when there is no selector. *)
Theorem mostIdentifier_is_maximum (a : Analysis.t) :
  run = Ok a ->
  Options.mostIdentifier options = true ->
  Analysis.mostIdentifier a
  = match selectors with
    | [] => None
    | _ :: _ => Some (list_max (map chainLength selectors))
    end.
Proof.
  intros H Hm. apply analyze_Ok in H.
  destruct H as [sa [da [Hsa [_ [_ [_ [_ [Hmost _]]]]]]]].
  destruct (analyzeSelectors_Ok _ _ _ _ Hsa) as [regexp [_ [_ Hi]]].
  rewrite Hmost, Hm, Hi.
  rewrite sorted_perm_head_max
    with (l' := map (fun s => Identifier.Make s (chainLength s)) selectors).
  - destruct selectors as [| s l]; [reflexivity |].
    simpl. rewrite map_map. reflexivity.
  - apply sortIdentifiers_sorted.
  - unfold sortIdentifiers, Arr.sort. apply Permutation_sym, isort_perm.
Qed.

(** X7: [lowestCohesion], when enabled, is the largest number of
    declarations a rule has, and [lowestCohesionSelector] is the selector
    list of a rule with that many declarations; both are absent when no
    rule carries a declaration array. *)
Theorem lowestCohesion_is_maximum (a : Analysis.t) :
  run = Ok a ->
  Options.lowestCohesion options = true ->
  Options.lowestCohesionSelector options = true ->
  match expectedEntries rules with
  | [] => Analysis.lowestCohesion a = None
          /\ Analysis.lowestCohesionSelector a = None
  | _ :: _ =>
      exists rule ds,
        In rule rules
        /\ Rule.declarations rule = Some ds
        /\ List.length ds
           = list_max (map RuleCount.count (expectedEntries rules))
        /\ Analysis.lowestCohesion a = Some (List.length ds)
        /\ Analysis.lowestCohesionSelector a = Some (Rule.selectors rule)
  end.
Proof.
  intros H Hc Hs. apply analyze_Ok_members in H.
  destruct H as [sa [da [_ [_ [Hlc [Hls _]]]]]].
  rewrite Hc in Hlc. rewrite Hs in Hls.
  assert (Hperm : Permutation
                    (RuleAnalysis.cssDeclarations (analyzeRules rules))
                    (expectedEntries rules)).
  { simpl. unfold Arr.sort. rewrite <- flat_map_ruleEntry.
    apply Permutation_sym, isort_perm. }
  assert (Hsorted : StronglySorted rulesDescending
                      (RuleAnalysis.cssDeclarations (analyzeRules rules))).
  { simpl. unfold Arr.sort. apply isort_sorted with (key := RuleCount.count).
    intros x y. apply decreasingOrder_later. }
  pose proof (sorted_perm_head_max RuleCount.count Hsorted Hperm) as Hmax.
  destruct (RuleAnalysis.cssDeclarations (analyzeRules rules))
    as [| top tl] eqn:E.
  - apply Permutation_nil in Hperm. rewrite Hperm.
    simpl in Hlc, Hls. split; assumption.
  - assert (Hin : In top (expectedEntries rules)).
    { apply Permutation_in with (top :: tl); [exact Hperm | left; reflexivity]. }
    destruct (expectedEntries rules) as [| e0 es] eqn:Ee; [destruct Hin |].
    rewrite <- Ee in Hin. unfold expectedEntries in Hin.
    apply in_map_iff in Hin. destruct Hin as [rule [Htop Hrule]].
    apply filter_In in Hrule. destruct Hrule as [Hrule Hpres].
    destruct (Rule.declarations rule) as [ds |] eqn:Ed; [| discriminate].
    simpl in Hmax. injection Hmax as Hmax.
    exists rule, ds. subst top. simpl in *.
    repeat split; try assumption.
Qed.

(** X8: with [gzippedSize] disabled the compression function is never
    consulted: the outcome of [analyze] is the same whatever that function
    does, failing included. *)
Theorem gzip_not_consulted_when_disabled
  (other_gzip : string -> result nat) :
  Options.gzippedSize options = false ->
  run = analyze selectorParser_parse RegExp other_gzip rules selectors
                declarations cssString cssSize options sourceMap.
Proof.
  intros Hopt. unfold analyze. rewrite Hopt. reflexivity.
Qed.

End AggregatorFacts.

(** *** Sorting under an order that holds on part of the elements *)

Section SortOn.
Variable A : Type.
Variable later : A -> A -> bool.
Variable P : A -> Prop.
Variable R : A -> A -> Prop.
Hypothesis R_not_later : forall x y, P x -> P y -> later x y = false -> R x y.
Hypothesis R_later : forall x y, P x -> P y -> later x y = true -> R y x.
Hypothesis R_trans :
  forall x y z, P x -> P y -> P z -> R x y -> R y z -> R x z.

Lemma insert_sorted_on (x : A) (l : list A) :
  P x -> Forall P l -> StronglySorted R l ->
  StronglySorted R (Arr.insert later x l).
Proof.
  intros Hx Hl Hs. induction Hs as [| y l Hs IH Hall]; simpl.
  - constructor; constructor.
  - inversion Hl as [| ? ? Hy Hl']; subst.
    destruct (later x y) eqn:E.
    + constructor; [apply IH; exact Hl' |].
      apply Permutation_Forall with (x :: l); [apply insert_perm |].
      constructor; [apply R_later; assumption | exact Hall].
    + constructor; [constructor; assumption |].
      assert (Hxy : R x y) by (apply R_not_later; assumption).
      constructor; [exact Hxy |].
      rewrite Forall_forall in Hall, Hl' |- *.
      intros z Hz. apply R_trans with y; auto.
Qed.

Lemma isort_sorted_on (l : list A) :
  Forall P l -> StronglySorted R (Arr.isort later l).
Proof.
  induction 1 as [| x l Hx Hl IH]; simpl.
  - constructor.
  - apply insert_sorted_on; [exact Hx | | exact IH].
    apply Permutation_Forall with l; [apply isort_perm | exact Hl].
Qed.
End SortOn.

(** *** The order of strings *)

Module StrFacts.

Lemma code_inj (x y : ascii) : Chars.code x = Chars.code y -> x = y.
Proof.
  unfold Chars.code. intros H.
  rewrite <- (ascii_nat_embedding x), <- (ascii_nat_embedding y), H.
  reflexivity.
Qed.

Lemma lt_chars_asym (a : list ascii) :
  forall b, Str.lt_chars a b = true -> Str.lt_chars b a = false.
Proof.
  induction a as [| x a IH]; intros [| y b]; simpl; try congruence.
  destruct (Nat.ltb_spec (Chars.code x) (Chars.code y)) as [H1 | H1];
    destruct (Nat.ltb_spec (Chars.code y) (Chars.code x)) as [H2 | H2];
    try congruence; try lia.
  apply IH.
Qed.

Lemma lt_chars_le_trans (a : list ascii) :
  forall b c,
    Str.lt_chars b a = false -> Str.lt_chars c b = false ->
    Str.lt_chars c a = false.
Proof.
  induction a as [| x a IH]; intros [| y b] [| z c]; simpl;
    try congruence.
  destruct (Nat.ltb_spec (Chars.code y) (Chars.code x)) as [H1 | H1];
    [discriminate |].
  destruct (Nat.ltb_spec (Chars.code x) (Chars.code y)) as [H2 | H2].
  - intros _.
    destruct (Nat.ltb_spec (Chars.code z) (Chars.code y)) as [H3 | H3];
      [discriminate |].
    destruct (Nat.ltb_spec (Chars.code z) (Chars.code x)) as [H4 | H4];
      [lia |].
    destruct (Nat.ltb_spec (Chars.code x) (Chars.code z)) as [H5 | H5];
      [reflexivity | lia].
  - intros Hba.
    destruct (Nat.ltb_spec (Chars.code z) (Chars.code y)) as [H3 | H3];
      [discriminate |].
    destruct (Nat.ltb_spec (Chars.code y) (Chars.code z)) as [H4 | H4].
    + intros _.
      destruct (Nat.ltb_spec (Chars.code z) (Chars.code x)) as [H5 | H5];
        [lia |].
      destruct (Nat.ltb_spec (Chars.code x) (Chars.code z)) as [H6 | H6];
        [reflexivity | lia].
    + intros Hcb.
      destruct (Nat.ltb_spec (Chars.code z) (Chars.code x)) as [H5 | H5];
        [lia |].
      destruct (Nat.ltb_spec (Chars.code x) (Chars.code z)) as [H6 | H6];
        [reflexivity |].
      apply IH with b; assumption.
Qed.

Lemma lt_chars_total (a : list ascii) :
  forall b,
    Str.lt_chars a b = false -> Str.lt_chars b a = false -> a = b.
Proof.
  induction a as [| x a IH]; intros [| y b]; simpl; try congruence.
  destruct (Nat.ltb_spec (Chars.code x) (Chars.code y)) as [H1 | H1];
    [discriminate |].
  destruct (Nat.ltb_spec (Chars.code y) (Chars.code x)) as [H2 | H2];
    [discriminate |].
  intros Ha Hb. f_equal.
  - apply code_inj. lia.
  - apply IH; assumption.
Qed.

Lemma chars_inj (a b : string) : Str.chars a = Str.chars b -> a = b.
Proof.
  unfold Str.chars. intros H.
  rewrite <- (string_of_list_ascii_of_string a),
          <- (string_of_list_ascii_of_string b), H.
  reflexivity.
Qed.

Lemma ltb_total (a b : string) :
  a <> b -> Str.ltb b a = false -> Str.ltb a b = true.
Proof.
  unfold Str.ltb. intros Hne Hba.
  destruct (Str.lt_chars (Str.chars a) (Str.chars b)) eqn:E;
    [reflexivity |].
  exfalso. apply Hne, chars_inj, lt_chars_total; assumption.
Qed.

(** [_.sortBy] on strings leaves them in non-descending order. *)
Lemma sortBy_sorted (l : list string) :
  StronglySorted (fun a b => Str.ltb b a = false) (Arr.sortBy l).
Proof.
  unfold Arr.sortBy.
  apply isort_sorted_on with (P := fun _ => True).
  - intros x y _ _ H. exact H.
  - intros x y _ _ H. unfold Str.ltb in *. apply lt_chars_asym. exact H.
  - intros x y z _ _ _ Hxy Hyz. unfold Str.ltb in *.
    apply lt_chars_le_trans with (Str.chars y); assumption.
  - apply Forall_forall. intros; exact I.
Qed.

Lemma sorted_strict (l : list string) :
  NoDup l ->
  StronglySorted (fun a b => Str.ltb b a = false) l ->
  StronglySorted ascending l.
Proof.
  intros Hnd Hs. induction Hs as [| x l Hs IH Hall]; constructor.
  - apply IH. inversion Hnd; assumption.
  - inversion Hnd as [| ? ? Hnot _]; subst.
    rewrite Forall_forall in Hall |- *.
    intros y Hy. apply ltb_total; [| apply Hall; exact Hy].
    intros ->. exact (Hnot Hy).
Qed.

Lemma contains_false (l : list string) (x : string) :
  Arr.contains l x = false -> ~ In x l.
Proof.
  unfold Arr.contains. intros H Hin.
  assert (Ht : existsb (String.eqb x) l = true).
  { apply existsb_exists. exists x. split; [exact Hin | apply String.eqb_refl]. }
  congruence.
Qed.

Lemma contains_true (l : list string) (x : string) :
  Arr.contains l x = true -> In x l.
Proof.
  unfold Arr.contains. intros H.
  apply existsb_exists in H. destruct H as [y [Hin Heq]].
  apply String.eqb_eq in Heq. subst y. exact Hin.
Qed.

Lemma uniq_loop_NoDup (l : list string) :
  forall acc,
    NoDup acc ->
    NoDup (fold_left (fun result value =>
                        if Arr.contains result value then result
                        else result ++ [value]) l acc).
Proof.
  induction l as [| y l IH]; intros acc Hacc; simpl; [exact Hacc |].
  apply IH. destruct (Arr.contains acc y) eqn:E; [exact Hacc |].
  apply NoDup_app_remove_l with (l := []). simpl.
  apply Permutation_NoDup with (y :: acc);
    [apply Permutation_cons_append |].
  constructor; [apply contains_false; exact E | exact Hacc].
Qed.

Lemma uniq_loop_keeps (x : string) (l : list string) :
  forall acc,
    In x acc \/ In x l ->
    In x (fold_left (fun result value =>
                       if Arr.contains result value then result
                       else result ++ [value]) l acc).
Proof.
  induction l as [| y l IH]; intros acc H; simpl.
  - destruct H as [H | []]. exact H.
  - apply IH. destruct H as [H | [H | H]].
    + left. destruct (Arr.contains acc y); [exact H |].
      apply in_or_app. left. exact H.
    + subst y. left. destruct (Arr.contains acc x) eqn:E.
      * apply contains_true. exact E.
      * apply in_or_app. right. left. reflexivity.
    + right. exact H.
Qed.

Lemma uniq_NoDup (l : list string) : NoDup (Arr.uniq l).
Proof. apply uniq_loop_NoDup. constructor. Qed.

Lemma uniq_In_iff (x : string) (l : list string) :
  In x (Arr.uniq l) <-> In x l.
Proof.
  split; [apply uniq_In |].
  intros H. apply uniq_loop_keeps. right. exact H.
Qed.

(** What [_.sortBy(_.uniq(l))] is: the elements of [l], each once, in
    strictly ascending order. *)
Lemma sortBy_uniq (l : list string) :
  NoDup (Arr.sortBy (Arr.uniq l))
  /\ StronglySorted ascending (Arr.sortBy (Arr.uniq l))
  /\ (forall x, In x (Arr.sortBy (Arr.uniq l)) <-> In x l).
Proof.
  assert (Hnd : NoDup (Arr.sortBy (Arr.uniq l))).
  { unfold Arr.sortBy.
    apply Permutation_NoDup with (Arr.uniq l);
      [apply isort_perm | apply uniq_NoDup]. }
  split; [exact Hnd |]. split.
  - apply sorted_strict; [exact Hnd | apply sortBy_sorted].
  - intros x. unfold Arr.sortBy. rewrite isort_In. apply uniq_In_iff.
Qed.

End StrFacts.

(** *** More of the declaration walk *)

Lemma addOneColor_step_frame (acc : list string) (st : DeclState.t)
  (c : string) :
  let st' := snd (addOneColor (acc, st) c) in
  DeclState.dataUriSize st' = DeclState.dataUriSize st
  /\ DeclState.importantKeywords st' = DeclState.importantKeywords st
  /\ DeclState.floatProperties st' = DeclState.floatProperties st
  /\ DeclState.uniqueFontSize st' = DeclState.uniqueFontSize st
  /\ DeclState.uniqueFontFamily st' = DeclState.uniqueFontFamily st
  /\ DeclState.sourceMap st' = DeclState.sourceMap st.
Proof.
  unfold addOneColor.
  destruct (keptColor (normalizeColor c)); cbn [snd];
    repeat split; reflexivity.
Qed.

Lemma addOneColor_frame (cs : list string) :
  forall (acc : list string) (st : DeclState.t),
    let st' := snd (fold_left addOneColor cs (acc, st)) in
    DeclState.dataUriSize st' = DeclState.dataUriSize st
    /\ DeclState.importantKeywords st' = DeclState.importantKeywords st
    /\ DeclState.floatProperties st' = DeclState.floatProperties st
    /\ DeclState.uniqueFontSize st' = DeclState.uniqueFontSize st
    /\ DeclState.uniqueFontFamily st' = DeclState.uniqueFontFamily st
    /\ DeclState.sourceMap st' = DeclState.sourceMap st.
Proof.
  induction cs as [| c cs IH]; intros acc st; cbn [fold_left].
  - repeat split; reflexivity.
  - pose proof (addOneColor_step_frame acc st c) as Hstep.
    destruct (addOneColor (acc, st) c) as [acc1 st1].
    cbn [snd] in Hstep.
    destruct Hstep as [S1 [S2 [S3 [S4 [S5 S6]]]]].
    destruct (IH acc1 st1) as [H1 [H2 [H3 [H4 [H5 H6]]]]].
    cbv zeta in *.
    rewrite H1, H2, H3, H4, H5, H6.
    repeat split; assumption.
Qed.

Lemma addColor_frame (colors : option (list string)) (st : DeclState.t) :
  let st' := snd (addColor colors st) in
  DeclState.dataUriSize st' = DeclState.dataUriSize st
  /\ DeclState.importantKeywords st' = DeclState.importantKeywords st
  /\ DeclState.floatProperties st' = DeclState.floatProperties st
  /\ DeclState.uniqueFontSize st' = DeclState.uniqueFontSize st
  /\ DeclState.uniqueFontFamily st' = DeclState.uniqueFontFamily st
  /\ DeclState.sourceMap st' = DeclState.sourceMap st.
Proof.
  destruct colors as [cs |]; simpl.
  - apply (addOneColor_frame cs [] st).
  - repeat split; reflexivity.
Qed.

Lemma length_append (s1 s2 : string) :
  String.length (s1 ++ s2) = String.length s1 + String.length s2.
Proof.
  induction s1 as [| c s1 IH]; simpl; [reflexivity |].
  rewrite IH. reflexivity.
Qed.

(** One declaration: the counters, the data-URI text and the raw font
    lists. *)
Lemma analyzeDeclaration_fields (r : Regex.re) (st st' : DeclState.t)
  (d : Declaration.t) :
  analyzeDeclaration r st d = Ok st' ->
  String.length (DeclState.dataUriSize st')
  = String.length (DeclState.dataUriSize st) + dataUriBytes d
  /\ DeclState.importantKeywords st'
     = DeclState.importantKeywords st
       + bump (Str.contains "!important" (Declaration.value d)) 0
  /\ DeclState.floatProperties st'
     = DeclState.floatProperties st
       + bump (Str.contains "float" (Declaration.property d)) 0
  /\ DeclState.uniqueFontFamily st'
     = DeclState.uniqueFontFamily st
       ++ match fontFamilyOf d with Some v => [v] | None => [] end
  /\ DeclState.uniqueFontSize st'
     = DeclState.uniqueFontSize st
       ++ match fontSizeOf d with Some v => [v] | None => [] end.
Proof.
  unfold analyzeDeclaration, dataUriBytes, fontFamilyOf, fontSizeOf.
  intros H.
  apply bind_Ok in H. destruct H as [[[ffd ff] sm1] [Hfam H]].
  apply bind_Ok in H. destruct H as [[[fsd fs] sm2] [Hsiz H]].
  apply bind_Ok in H. destruct H as [st3 [Hc H]].
  injection H as H. subst st'. simpl.
  assert (Hff : ff = DeclState.uniqueFontFamily st
                     ++ match (if Str.contains "font-family"
                                     (Declaration.property d)
                               then Some (Str.trim
                                            (Regex.replace_g
                                               Patterns.importantGroupRegex []
                                               (Declaration.value d)))
                               else None) with
                        | Some v => [v]
                        | None => []
                        end).
  { destruct (Str.contains "font-family" (Declaration.property d)).
    - apply bind_Ok in Hfam. destruct Hfam as [sm [_ Hfam]].
      injection Hfam as _ Hff _. subst ff. reflexivity.
    - injection Hfam as _ Hff _. subst ff. rewrite app_nil_r. reflexivity. }
  assert (Hfs : fs = DeclState.uniqueFontSize st
                     ++ match (if Str.contains "font-size"
                                     (Declaration.property d)
                               then Some (Str.trim
                                            (Regex.replace
                                               Patterns.importantRegex []
                                               (Declaration.value d)))
                               else None) with
                        | Some v => [v]
                        | None => []
                        end).
  { destruct (Str.contains "font-size" (Declaration.property d)).
    - apply bind_Ok in Hsiz. destruct Hsiz as [sm [_ Hsiz]].
      injection Hsiz as _ Hfs _. subst fs. reflexivity.
    - injection Hsiz as _ Hfs _. subst fs. rewrite app_nil_r. reflexivity. }
  assert (Hframe :
            DeclState.dataUriSize st3
            = (if Str.contains "data:image" (Declaration.value d)
               then (DeclState.dataUriSize st
                     ++ matchText (Regex.exec Patterns.dataUriRegex
                                              (Declaration.value d)))%string
               else DeclState.dataUriSize st)
            /\ DeclState.importantKeywords st3
               = bump (Str.contains "!important" (Declaration.value d))
                      (DeclState.importantKeywords st)
            /\ DeclState.floatProperties st3
               = bump (Str.contains "float" (Declaration.property d))
                      (DeclState.floatProperties st)
            /\ DeclState.uniqueFontSize st3 = fs
            /\ DeclState.uniqueFontFamily st3 = ff).
  { destruct (Regex.test Patterns.colorPropertyRegex (Declaration.property d)).
    - match type of Hc with
      | context [addColor ?c ?s] =>
          destruct (addColor_frame c s) as [F1 [F2 [F3 [F4 [F5 _]]]]];
          destruct (addColor c s) as [added st4]
      end.
      simpl in F1, F2, F3, F4, F5.
      destruct added as [| c0 added].
      + injection Hc as Hc. subst st3. simpl.
        repeat split; assumption.
      + apply bind_Ok in Hc. destruct Hc as [sm [_ Hc]].
        injection Hc as Hc. subst st3. simpl.
        repeat split; assumption.
    - injection Hc as Hc. subst st3. simpl. repeat split; reflexivity. }
  destruct Hframe as [G1 [G2 [G3 [G4 G5]]]].
  rewrite G1, G2, G3, G4, G5, Hff, Hfs.
  repeat split; try apply bump_plus; try reflexivity.
  destruct (Str.contains "data:image" (Declaration.value d)).
  - rewrite length_append. reflexivity.
  - lia.
Qed.

Lemma analyzeDeclaration_fields_loop (r : Regex.re)
  (declarations : list Declaration.t) :
  forall st st',
    foldM (analyzeDeclaration r) declarations st = Ok st' ->
    String.length (DeclState.dataUriSize st')
    = String.length (DeclState.dataUriSize st)
      + list_sum (map dataUriBytes declarations)
    /\ DeclState.importantKeywords st'
       = DeclState.importantKeywords st
         + countIf (fun d => Str.contains "!important" (Declaration.value d))
                   declarations
    /\ DeclState.floatProperties st'
       = DeclState.floatProperties st
         + countIf (fun d => Str.contains "float" (Declaration.property d))
                   declarations
    /\ DeclState.uniqueFontFamily st'
       = DeclState.uniqueFontFamily st ++ collect fontFamilyOf declarations
    /\ DeclState.uniqueFontSize st'
       = DeclState.uniqueFontSize st ++ collect fontSizeOf declarations.
Proof.
  induction declarations as [| d ds IH]; intros st st' H; simpl in H.
  - injection H as H. subst. unfold countIf, collect. simpl.
    rewrite !Nat.add_0_r, !app_nil_r. repeat split; reflexivity.
  - apply bind_Ok in H. destruct H as [st1 [Hd H]].
    apply analyzeDeclaration_fields in Hd.
    destruct Hd as [H1 [H2 [H3 [H4 H5]]]].
    apply IH in H. destruct H as [G1 [G2 [G3 [G4 G5]]]].
    rewrite G1, G2, G3, G4, G5, H1, H2, H3, H4, H5, !countIf_cons.
    unfold collect. simpl. rewrite <- !app_assoc.
    repeat split; lia.
Qed.

Section DeclarationCounters.
Variable RegExp : string -> string -> result Regex.re.

(** What a successful [analyzeDeclarations] returns for the counters, the
    data-URI size and the font lists; [r] is the compiled pattern of the
    named colours. *)
Lemma analyzeDeclarations_fields (options : Options.t)
  (declarations : list Declaration.t) (sourceMap : SourceMap.t)
  (da : DeclarationAnalysis.t) :
  analyzeDeclarations RegExp options declarations sourceMap = Ok da ->
  exists r,
    newRegExp RegExp (Some (namedColorsSource (Options.namedColors options)))
              "i" = Ok r
    /\ DeclarationAnalysis.uniqueColor da
       = Arr.sortBy (Arr.uniq (flat_map (colorsOf r) declarations))
    /\ DeclarationAnalysis.dataUriSize da
       = list_sum (map dataUriBytes declarations)
    /\ DeclarationAnalysis.importantKeywords da
       = countIf (fun d => Str.contains "!important" (Declaration.value d))
                 declarations
    /\ DeclarationAnalysis.floatProperties da
       = countIf (fun d => Str.contains "float" (Declaration.property d))
                 declarations
    /\ DeclarationAnalysis.uniqueFontFamily da
       = Arr.sortBy (Arr.uniq (collect fontFamilyOf declarations))
    /\ DeclarationAnalysis.uniqueFontSize da
       = Arr.isort (fun x y => Num.gtb (fontSizeKey x) (fontSizeKey y))
                   (Arr.uniq (collect fontSizeOf declarations)).
Proof.
  unfold analyzeDeclarations, walkDeclarations. intros H.
  apply bind_Ok in H. destruct H as [st [Hw H]].
  apply bind_Ok in Hw. destruct Hw as [r [Hr Hw]].
  injection H as H. subst da.
  pose proof (analyzeDeclaration_loop r declarations _ Hw) as [Hc _].
  apply analyzeDeclaration_fields_loop in Hw.
  destruct Hw as [G1 [G2 [G3 [G4 G5]]]].
  exists r. simpl in *. unfold byteLength.
  rewrite Hc, G1, G2, G3, G4, G5.
  repeat split; try reflexivity. exact Hr.
Qed.

End DeclarationCounters.

(** *** Numeric keys of font sizes *)

Module NumFacts.





End NumFacts.

(** *** Colour-bearing properties *)

Module ColorFacts.
Import Regex.

Lemma anchored_later (r : re) (suf : list ascii) :
  forall pre, pre <> [] -> search (Cat Bol r) pre suf = None.
Proof.
  induction suf as [| x suf IH]; intros pre Hpre; simpl;
    unfold match_at; simpl;
    destruct pre as [| p pre]; try contradiction.
  - reflexivity.
  - apply IH. discriminate.
Qed.






End ColorFacts.

(** *** What the result says about the declarations *)



Section DeclarationTheorems.
Variable selectorParser_parse : string -> result (list SelectorNode.t).
Variable RegExp : string -> string -> result Regex.re.
Variable gzipSize_sync : string -> result nat.

Variable rules : list Rule.t.
Variable selectors : list string.
Variable declarations : list Declaration.t.
Variable cssString : string.
Variable cssSize : nat.
Variable options : Options.t.
Variable sourceMap : SourceMap.t.

Local Abbreviation run :=
  (analyze selectorParser_parse RegExp gzipSize_sync rules selectors
           declarations cssString cssSize options sourceMap).

(** X9: [importantKeywords] is the number of declarations whose value
    contains [!important] and [floatProperties] the number of declarations
    whose property name contains [float] anywhere; each is emitted exactly
    under its own option. *)
Theorem keyword_counters (a : Analysis.t) :
  run = Ok a ->
  Analysis.importantKeywords a
  = when (Options.importantKeywords options)
         (countIf (fun d => Str.contains "!important" (Declaration.value d))
                  declarations)
  /\ Analysis.floatProperties a
     = when (Options.floatProperties options)
            (countIf (fun d => Str.contains "float" (Declaration.property d))
                     declarations).
Proof.
  intros H. apply analyze_Ok_members in H.
  destruct H as [sa [da [_ [Hda [_ [_ [_ [[_ [Hi Hf]] _]]]]]]]].
  apply analyzeDeclarations_fields in Hda.
  destruct Hda as [r [_ [_ [_ [Gi [Gf _]]]]]].
  rewrite Hi, Hf, Gi, Gf. split; reflexivity.
Qed.

(** X10: [dataUriSize] is the sum, over the declarations whose value
    contains [data:image], of the length of the first [data:image/...]
    token of the value, a value without such a token counting for the four
    characters of [null]. *)
Theorem dataUriSize_sum (a : Analysis.t) :
  run = Ok a ->
  Analysis.dataUriSize a
  = when (Options.dataUriSize options)
         (list_sum (map dataUriBytes declarations)).
Proof.
  intros H. apply analyze_Ok_members in H.
  destruct H as [sa [da [_ [Hda [_ [_ [_ [[Hd _] _]]]]]]]].
  apply analyzeDeclarations_fields in Hda.
  destruct Hda as [r [_ [_ [Gd _]]]].
  rewrite Hd, Gd. reflexivity.
Qed.

Lemma no_data_uri_sum :
  Forall (fun d => Str.contains "data:image" (Declaration.value d) = false)
         declarations ->
  list_sum (map dataUriBytes declarations) = 0.
Proof.
  induction 1 as [| d ds Hd _ IH]; simpl; [reflexivity |].
  unfold dataUriBytes at 1. rewrite Hd, IH. reflexivity.
Qed.

(** X11: when no declaration value contains [data:image], the data-URI
    size is 0 and [ratioOfDataUriSize] is absent from the result, whatever
    the options are. *)
Theorem no_data_uri_no_ratio (a : Analysis.t) :
  run = Ok a ->
  Forall (fun d => Str.contains "data:image" (Declaration.value d) = false)
         declarations ->
  Analysis.dataUriSize a = when (Options.dataUriSize options) 0
  /\ Analysis.ratioOfDataUriSize a = None.
Proof.
  intros H Hno.
  pose proof H as H0. apply analyze_Ok in H0.
  destruct H0 as [sa [da [_ [Hda [_ [Hr _]]]]]].
  apply analyze_Ok_members in H.
  destruct H as [sa' [da' [_ [Hda' [_ [_ [_ [[Hd _] _]]]]]]]].
  rewrite Hda in Hda'. injection Hda' as Hda'. subst da'.
  apply analyzeDeclarations_fields in Hda.
  destruct Hda as [r [_ [_ [Gd _]]]].
  rewrite (no_data_uri_sum Hno) in Gd.
  rewrite Hd, Hr, Gd. simpl. rewrite andb_false_r. split; reflexivity.
Qed.

(** X12: [uniqueColor] lists, each once and in strictly ascending order,
    exactly the normalized colours found in the declarations, and
    [totalUniqueColors] is the length of that list. *)
Theorem uniqueColor_distinct_sorted (a : Analysis.t) :
  run = Ok a ->
  exists r da,
    newRegExp RegExp (Some (namedColorsSource (Options.namedColors options)))
              "i" = Ok r
    /\ analyzeDeclarations RegExp options declarations sourceMap = Ok da
    /\ Analysis.uniqueColor a
       = when (Options.uniqueColor options)
              (DeclarationAnalysis.uniqueColor da)
    /\ Analysis.totalUniqueColors a
       = when (Options.totalUniqueColors options)
              (List.length (DeclarationAnalysis.uniqueColor da))
    /\ NoDup (DeclarationAnalysis.uniqueColor da)
    /\ StronglySorted ascending (DeclarationAnalysis.uniqueColor da)
    /\ (forall c, In c (DeclarationAnalysis.uniqueColor da) <->
                  exists d, In d declarations /\ In c (colorsOf r d)).
Proof.
  intros H.
  pose proof H as H0. apply analyze_Ok in H0.
  destruct H0 as [sa [da [_ [Hda [_ [_ [_ [_ [Hc _]]]]]]]]].
  apply analyze_Ok_members in H.
  destruct H as [sa' [da' [_ [Hda' [_ [_ [_ [_ [[Ht _] _]]]]]]]]].
  rewrite Hda in Hda'. injection Hda' as Hda'. subst da'.
  pose proof (analyzeDeclarations_fields RegExp options declarations
                sourceMap Hda) as [r [Hr [Gc _]]].
  exists r, da.
  split; [exact Hr |]. split; [exact Hda |].
  split; [exact Hc |]. split; [exact Ht |].
  rewrite Gc.
  destruct (StrFacts.sortBy_uniq (flat_map (colorsOf r) declarations))
    as [Hnd [Hs Hin]].
  split; [exact Hnd |]. split; [exact Hs |].
  intros c. rewrite Hin. apply in_flat_map.
Qed.


(** X14: [uniqueFontFamily] lists, each once and in strictly ascending
    order, exactly the values of the declarations whose property name
    contains [font-family], with [!important] removed and trimmed;
    [totalUniqueFontFamilies] is the length of that list. *)
Theorem uniqueFontFamily_distinct_sorted (a : Analysis.t) :
  run = Ok a ->
  exists da,
    analyzeDeclarations RegExp options declarations sourceMap = Ok da
    /\ Analysis.uniqueFontFamily a
       = when (Options.uniqueFontFamily options)
              (DeclarationAnalysis.uniqueFontFamily da)
    /\ Analysis.totalUniqueFontFamilies a
       = when (Options.totalUniqueFontFamilies options)
              (List.length (DeclarationAnalysis.uniqueFontFamily da))
    /\ NoDup (DeclarationAnalysis.uniqueFontFamily da)
    /\ StronglySorted ascending (DeclarationAnalysis.uniqueFontFamily da)
    /\ (forall f, In f (DeclarationAnalysis.uniqueFontFamily da) <->
                  exists d, In d declarations /\ fontFamilyOf d = Some f).
Proof.
  intros H. apply analyze_Ok_members in H.
  destruct H as [sa [da [_ [Hda [_ [_ [_ [_ [[_ [Hf [Ht _]]] _]]]]]]]]].
  pose proof (analyzeDeclarations_fields RegExp options declarations
                sourceMap Hda) as [r [_ [_ [_ [_ [_ [Gf _]]]]]]].
  exists da. split; [exact Hda |]. split; [exact Hf |]. split; [exact Ht |].
  rewrite Gf.
  destruct (StrFacts.sortBy_uniq (collect fontFamilyOf declarations))
    as [Hnd [Hs Hin]].
  split; [exact Hnd |]. split; [exact Hs |].
  intros f. rewrite Hin. unfold collect. rewrite in_flat_map.
  split; intros [d [Hd Hv]]; exists d; (split; [exact Hd |]).
  - destruct (fontFamilyOf d) as [v |]; [| destruct Hv].
    destruct Hv as [Hv | []]. subst v. reflexivity.
  - rewrite Hv. left. reflexivity.
Qed.


End DeclarationTheorems.

(** *** The property statistics, entry by entry *)

Module PropertyFacts.

Lemma own_put {V : Type} (k p : string) (v : V) (o : Obj.t V) :
  Obj.own k (Obj.put p v o)
  = if String.eqb p k then Some v else Obj.own k o.
Proof.
  induction o as [| [k' v'] o IH]; simpl.
  - rewrite ObjFacts.own_cons. reflexivity.
  - destruct (String.eqb_spec k' p) as [E | E].
    + subst k'. rewrite !ObjFacts.own_cons.
      destruct (String.eqb p k); reflexivity.
    + rewrite !ObjFacts.own_cons, IH.
      destruct (String.eqb_spec k' k) as [E1 | E1];
        destruct (String.eqb_spec p k) as [E2 | E2];
        try reflexivity.
      congruence.
Qed.

(** The number a dictionary holds under a key, 0 when there is none. *)
Lemma countProperty_own (p k : string) (o : Obj.t Num.count) :
  Obj.inherited p = false ->
  counted o ->
  Obj.own k (countProperty p o)
  = if String.eqb p k
    then Some (Num.Num (S (match Obj.own p o with
                           | Some c => countValue c
                           | None => 0
                           end)))
    else Obj.own k o.
Proof.
  intros Hp [_ Hall].
  unfold countProperty, Obj.set, Obj.get.
  rewrite (ObjFacts.inherited_proto p Hp), Hp, own_put.
  destruct (String.eqb p k); [| reflexivity].
  destruct (Obj.own p o) as [c |] eqn:E; [| reflexivity].
  rewrite Forall_forall in Hall.
  destruct (Hall _ (ObjFacts.own_Some p o E)) as [m Hm].
  simpl in Hm. subst c. reflexivity.
Qed.

Lemma countProperties_own (declarations : list Declaration.t) :
  forall (o : Obj.t Num.count) (k : string),
    Forall plainName declarations ->
    counted o ->
    Obj.own k (countProperties declarations o)
    = if occurrences k declarations =? 0
      then Obj.own k o
      else Some (Num.Num (match Obj.own k o with
                          | Some c => countValue c
                          | None => 0
                          end + occurrences k declarations)).
Proof.
  unfold occurrences.
  induction declarations as [| d ds IH]; intros o k Hpl Hc.
  - reflexivity.
  - inversion Hpl as [| ? ? Hd Hds]; subst.
    destruct (@ObjFacts.countProperty_counted (Declaration.property d) o Hd Hc)
      as [Hc1 _].
    change (countProperties (d :: ds) o)
      with (countProperties ds (countProperty (Declaration.property d) o)).
    rewrite (IH _ k Hds Hc1),
      (@countProperty_own (Declaration.property d) k o Hd Hc), countIf_cons.
    destruct (String.eqb_spec (Declaration.property d) k) as [E | E]; simpl.
    + subst k.
      destruct (countIf (fun d0 => String.eqb (Declaration.property d0)
                                              (Declaration.property d)) ds);
        simpl; f_equal; f_equal; lia.
    + reflexivity.
Qed.

Lemma entries_In (o : Obj.t Num.count) (p : string) (c : Num.count) :
  NoDup (map fst o) ->
  (In (PropertyCount.Make p c) (map entryOf o) <-> Obj.own p o = Some c).
Proof.
  intros Hnd. split.
  - intros H. apply in_map_iff in H. destruct H as [[k v] [He Hin]].
    unfold entryOf in He. simpl in He. injection He as -> ->.
    apply ObjFacts.own_In; assumption.
  - intros H. apply ObjFacts.own_Some in H.
    change (PropertyCount.Make p c) with (entryOf (p, c)).
    apply in_map. exact H.
Qed.

Lemma sortProperties_sorted (l : list PropertyCount.t) :
  Forall (fun e => exists n, PropertyCount.count e = Num.Num n) l ->
  StronglySorted propertiesDescending (sortProperties l).
Proof.
  unfold sortProperties, Arr.sort.
  apply isort_sorted_on; unfold propertiesDescending.
  - intros x y [n Hx] [m Hy] H. rewrite Hx, Hy in *. simpl in *.
    apply Z.ltb_ge in H. lia.
  - intros x y [n Hx] [m Hy] H. rewrite Hx, Hy in *. simpl in *.
    apply Z.ltb_lt in H. lia.
  - intros x y z _ _ _ H1 H2. lia.
Qed.

Lemma sorted_prefix {A : Type} (R : A -> A -> Prop) (l1 l2 : list A) :
  StronglySorted R (l1 ++ l2) ->
  StronglySorted R l1 /\ forall x y, In x l1 -> In y l2 -> R x y.
Proof.
  induction l1 as [| a l1 IH]; simpl; intros H.
  - split; [constructor | intros x y []].
  - inversion H as [| ? ? Hs Hall]; subst.
    destruct (IH Hs) as [Hs1 Hcross].
    rewrite Forall_forall in Hall.
    split.
    + constructor; [exact Hs1 |].
      apply Forall_forall. intros z Hz. apply Hall.
      apply in_or_app. left. exact Hz.
    + intros x y [Hx | Hx] Hy.
      * subst x. apply Hall. apply in_or_app. right. exact Hy.
      * apply Hcross; assumption.
Qed.

Lemma slice0_split {A : Type} (e : Z) (l : list A) :
  exists rest, l = Arr.slice0 e l ++ rest.
Proof.
  unfold Arr.slice0. destruct (e <? 0)%Z.
  - exists (skipn (Z.to_nat (Z.of_nat (List.length l) + e)) l).
    symmetry. apply firstn_skipn.
  - exists (skipn (Z.to_nat e) l). symmetry. apply firstn_skipn.
Qed.

End PropertyFacts.

Section PropertyTheorems.
Variable selectorParser_parse : string -> result (list SelectorNode.t).
Variable RegExp : string -> string -> result Regex.re.
Variable gzipSize_sync : string -> result nat.

Variable rules : list Rule.t.
Variable selectors : list string.
Variable declarations : list Declaration.t.
Variable cssString : string.
Variable cssSize : nat.
Variable options : Options.t.
Variable sourceMap : SourceMap.t.

Local Abbreviation run :=
  (analyze selectorParser_parse RegExp gzipSize_sync rules selectors
           declarations cssString cssSize options sourceMap).

(** The complete property list of a successful [analyzeDeclarations], for
    plain property names. *)
Lemma properties_complete (da : DeclarationAnalysis.t) :
  analyzeDeclarations RegExp options declarations sourceMap = Ok da ->
  Forall plainName declarations ->
  (forall p c,
      In (PropertyCount.Make p c) (DeclarationAnalysis.properties da) <->
      0 < occurrences p declarations
      /\ c = Num.Num (occurrences p declarations))
  /\ NoDup (map PropertyCount.property (DeclarationAnalysis.properties da))
  /\ StronglySorted propertiesDescending (DeclarationAnalysis.properties da).
Proof.
  intros Hda Hplain.
  pose proof (analyzeDeclarations_Ok RegExp options declarations sourceMap Hda)
    as [r [_ Hp]].
  assert (Hcounted : counted ([] : Obj.t Num.count)).
  { split; constructor. }
  destruct (ObjFacts.countProperties_counted Hplain Hcounted)
    as [[Hnd Hall] _].
  assert (Hperm : Permutation (DeclarationAnalysis.properties da)
                    (map entryOf (countProperties declarations []))).
  { rewrite Hp. unfold sortProperties, Arr.sort.
    eapply perm_trans; [apply Permutation_sym, isort_perm |].
    apply ObjFacts.propertyEntries_perm. exact Hnd. }
  split; [| split].
  - intros p c. split.
    + intros Hin.
      apply (Permutation_in _ Hperm) in Hin.
      apply PropertyFacts.entries_In in Hin; [| exact Hnd].
      rewrite (@PropertyFacts.countProperties_own declarations [] p
                 Hplain Hcounted) in Hin.
      destruct (occurrences p declarations) as [| n]; simpl in Hin;
        [discriminate |].
      injection Hin as Hin. subst c. split; [lia | reflexivity].
    + intros [Hpos Hc]. subst c.
      apply (Permutation_in _ (Permutation_sym Hperm)).
      apply PropertyFacts.entries_In; [exact Hnd |].
      rewrite (@PropertyFacts.countProperties_own declarations [] p
                 Hplain Hcounted).
      destruct (occurrences p declarations) as [| n]; [lia | reflexivity].
  - apply Permutation_NoDup
      with (map PropertyCount.property
                (map entryOf (countProperties declarations []))).
    + apply Permutation_map, Permutation_sym. exact Hperm.
    + rewrite map_map. simpl. exact Hnd.
  - rewrite Hp. apply PropertyFacts.sortProperties_sorted.
    apply Permutation_Forall
      with (map entryOf (countProperties declarations [])).
    + apply Permutation_sym, ObjFacts.propertyEntries_perm. exact Hnd.
    + apply Forall_map. eapply Forall_impl; [| exact Hall].
      intros [k v] [m Hm]. exists (S m). exact Hm.
Qed.

(** X16: for plain property names, the [propertiesCount] member holds the
    most frequent properties: every entry carries the number of
    declarations of its property, no property appears twice, the entries
    are in descending order of count, and a declared property that is left
    out is not more frequent than any listed one. *)
Theorem propertiesCount_most_frequent (a : Analysis.t)
  (l : list PropertyCount.t) :
  run = Ok a ->
  Forall plainName declarations ->
  Analysis.propertiesCount a = Some l ->
  (forall p c, In (PropertyCount.Make p c) l ->
               0 < occurrences p declarations
               /\ c = Num.Num (occurrences p declarations))
  /\ NoDup (map PropertyCount.property l)
  /\ StronglySorted propertiesDescending l
  /\ (forall p e,
        0 < occurrences p declarations ->
        ~ In p (map PropertyCount.property l) ->
        In e l ->
        occurrences p declarations <= countValue (PropertyCount.count e)).
Proof.
  intros H Hplain Hl. apply analyze_Ok in H.
  destruct H as [sa [da [_ [Hda [_ [_ [_ [_ [_ [_ Hpc]]]]]]]]]].
  rewrite Hpc in Hl. apply when_value in Hl.
  destruct (properties_complete Hda Hplain) as [Hmem [Hnd Hsorted]].
  destruct (PropertyFacts.slice0_split (Options.propertiesCount options)
              (DeclarationAnalysis.properties da)) as [rest Hsplit].
  rewrite <- Hl in Hsplit.
  rewrite Hsplit in Hmem, Hnd, Hsorted.
  apply PropertyFacts.sorted_prefix in Hsorted.
  destruct Hsorted as [Hs1 Hcross].
  split; [| split; [| split]].
  - intros p c Hin. apply Hmem. apply in_or_app. left. exact Hin.
  - rewrite map_app in Hnd. apply NoDup_app_remove_r in Hnd. exact Hnd.
  - exact Hs1.
  - intros p e Hpos Hnot He.
    assert (Hin : In (PropertyCount.Make p
                        (Num.Num (occurrences p declarations))) (l ++ rest)).
    { apply Hmem. split; [exact Hpos | reflexivity]. }
    apply in_app_or in Hin. destruct Hin as [Hin | Hin].
    + exfalso. apply Hnot.
      change p with (PropertyCount.property
                       (PropertyCount.Make p
                          (Num.Num (occurrences p declarations)))).
      apply in_map. exact Hin.
    + specialize (Hcross _ _ He Hin).
      unfold propertiesDescending in Hcross. simpl in Hcross. exact Hcross.
Qed.

End PropertyTheorems.

(** *** The source map *)

Unset Implicit Arguments.

Module SourceMapFacts.

Lemma put_In {V : Type} (k k' : string) (v v' : V) (o : Obj.t V) :
  In (k', v') (Obj.put k v o) -> (k' = k /\ v' = v) \/ In (k', v') o.
Proof.
  induction o as [| [k0 v0] o IH]; simpl.
  - intros [H | []]. injection H as <- <-. left. split; reflexivity.
  - destruct (String.eqb k0 k); simpl.
    + intros [H | H].
      * injection H as <- <-. left. split; reflexivity.
      * right. right. exact H.
    + intros [H | H].
      * right. left. exact H.
      * destruct (IH H) as [H1 | H1]; [left; exact H1 | right; right; exact H1].
Qed.

Lemma put_keys {V : Type} (k k' : string) (v : V) (o : Obj.t V) :
  In k' (map fst (Obj.put k v o)) -> k' = k \/ In k' (map fst o).
Proof.
  intros H. apply in_map_iff in H. destruct H as [[k0 v0] [Hk Hin]].
  simpl in Hk. subst k0. apply put_In in Hin.
  destruct Hin as [[Hk _] | Hin]; [left; exact Hk |].
  right. change k' with (fst (k', v0)). apply in_map. exact Hin.
Qed.

Lemma own_keys {V : Type} (k : string) (v : V) (o : Obj.t V) :
  Obj.own k o = Some v -> In k (map fst o).
Proof.
  intros H. apply ObjFacts.own_Some in H.
  change k with (fst (k, v)). apply in_map. exact H.
Qed.

(** The group [addToSourceMap] works on. *)
Lemma group_clean (g : string) (sm : SourceMap.t) (item : string) :
  cleanMap sm ->
  In item (map fst (match Obj.own g (SourceMap.values sm) with
                    | Some grp => grp
                    | None => []
                    end)) ->
  Obj.inherited item = false.
Proof.
  intros Hclean Hin.
  destruct (Obj.own g (SourceMap.values sm)) as [grp |] eqn:E;
    [| destruct Hin].
  apply (Hclean g grp item); [apply ObjFacts.own_Some; exact E | exact Hin].
Qed.

Lemma addToSourceMap_inherited (g item : string) (src : Source)
  (sm : SourceMap.t) :
  cleanMap sm -> Obj.inherited item = true ->
  addToSourceMap g item src sm = Throw TypeError.
Proof.
  intros Hclean Hinh. unfold addToSourceMap, Obj.get.
  destruct (Obj.own item _) as [sources |] eqn:E.
  - apply own_keys in E. apply (group_clean g sm item Hclean) in E.
    congruence.
  - rewrite Hinh. reflexivity.
Qed.

Lemma addToSourceMap_plain (g item : string) (src : Source)
  (sm : SourceMap.t) :
  Obj.inherited item = false ->
  exists sm', addToSourceMap g item src sm = Ok sm'.
Proof.
  intros Hinh. unfold addToSourceMap, Obj.get. rewrite Hinh.
  destruct (Obj.own item _) as [sources |]; simpl;
    [destruct (existsb (Nat.eqb src) sources) |];
    simpl; eexists; reflexivity.
Qed.

Lemma addToSourceMap_only_TypeError (g item : string) (src : Source)
  (sm : SourceMap.t) (e : error) :
  addToSourceMap g item src sm = Throw e -> e = TypeError.
Proof.
  unfold addToSourceMap, Obj.get.
  destruct (Obj.own item _) as [sources |]; simpl.
  - destruct (existsb (Nat.eqb src) sources); discriminate.
  - destruct (Obj.inherited item); simpl; [| discriminate].
    intros H. injection H as H. auto.
Qed.

(** What a successful call leaves: the new group and how it came about. *)
Lemma addToSourceMap_Ok (g item : string) (src : Source)
  (sm sm' : SourceMap.t) :
  addToSourceMap g item src sm = Ok sm' ->
  let group := match Obj.own g (SourceMap.values sm) with
               | Some grp => grp
               | None => []
               end in
  exists sources',
    SourceMap.values sm'
    = Obj.put g (Obj.put item sources' group) (SourceMap.values sm)
    /\ In src sources'
    /\ (forall sources, Obj.own item group = Some sources ->
                        incl sources sources')
    /\ (Obj.own item group <> None \/ Obj.inherited item = false).
Proof.
  unfold addToSourceMap, Obj.get. cbv zeta.
  set (group := match Obj.own g (SourceMap.values sm) with
                | Some grp => grp
                | None => []
                end).
  destruct (Obj.own item group) as [sources |] eqn:E; simpl.
  - destruct (existsb (Nat.eqb src) sources) eqn:Ee; simpl;
      intros H; injection H as H; subst sm'; simpl.
    + exists sources. repeat split.
      * f_equal. clear - E. induction group as [| [k v] grp IH]; simpl in *;
          [discriminate |].
        rewrite ObjFacts.own_cons in E.
        destruct (String.eqb_spec k item) as [Ek | Ek].
        -- injection E as E. subst. reflexivity.
        -- rewrite <- IH by exact E. reflexivity.
      * apply existsb_exists in Ee. destruct Ee as [y [Hy Heq]].
        apply Nat.eqb_eq in Heq. subst y. exact Hy.
      * intros s0 Hs0. injection Hs0 as Hs0. subst s0. apply incl_refl.
      * left. discriminate.
    + exists (sources ++ [src]). repeat split.
      * apply in_or_app. right. left. reflexivity.
      * intros s0 Hs0. injection Hs0 as Hs0. subst s0.
        apply incl_appl, incl_refl.
      * left. discriminate.
  - destruct (Obj.inherited item) eqn:Ei; simpl; [discriminate |].
    intros H. injection H as H. subst sm'. simpl.
    exists [src]. repeat split.
    + left. reflexivity.
    + intros s0 Hs0. discriminate Hs0.
    + right. reflexivity.
Qed.

Lemma addToSourceMap_clean (g item : string) (src : Source)
  (sm sm' : SourceMap.t) :
  cleanMap sm -> addToSourceMap g item src sm = Ok sm' -> cleanMap sm'.
Proof.
  intros Hclean H. apply addToSourceMap_Ok in H. cbv zeta in H.
  destruct H as [sources' [Hv [_ [_ Hitem]]]].
  intros g0 grp0 item0 Hg Hi. rewrite Hv in Hg.
  apply put_In in Hg. destruct Hg as [[_ Hgrp] | Hg].
  - subst grp0. apply put_keys in Hi. destruct Hi as [Hi | Hi].
    + subst item0. destruct Hitem as [Hitem | Hitem]; [| exact Hitem].
      destruct (Obj.own item _) as [s0 |] eqn:E; [| congruence].
      apply own_keys in E. apply (group_clean g sm item Hclean E).
    + apply (group_clean g sm item0 Hclean Hi).
  - apply (Hclean g0 grp0 item0 Hg Hi).
Qed.

Lemma addToSourceMap_records (g item : string) (src : Source)
  (sm sm' : SourceMap.t) :
  addToSourceMap g item src sm = Ok sm' -> recorded g item src sm'.
Proof.
  intros H. apply addToSourceMap_Ok in H. cbv zeta in H.
  destruct H as [sources' [Hv [Hin _]]].
  eexists. exists sources'. rewrite Hv.
  split; [| split; [| exact Hin]].
  - rewrite PropertyFacts.own_put, String.eqb_refl. reflexivity.
  - rewrite PropertyFacts.own_put, String.eqb_refl. reflexivity.
Qed.

Lemma addToSourceMap_keeps (g item : string) (src : Source)
  (sm sm' : SourceMap.t) (g0 item0 : string) (src0 : Source) :
  addToSourceMap g item src sm = Ok sm' ->
  recorded g0 item0 src0 sm -> recorded g0 item0 src0 sm'.
Proof.
  intros H [grp0 [s0 [Hg [Hi Hs]]]].
  apply addToSourceMap_Ok in H. cbv zeta in H.
  destruct H as [sources' [Hv [_ [Hincl _]]]].
  unfold recorded. rewrite Hv, PropertyFacts.own_put.
  destruct (String.eqb_spec g g0) as [Eg | Eg].
  - subst g0. rewrite Hg in Hincl |- *.
    exists (Obj.put item sources' grp0).
    destruct (String.eqb_spec item item0) as [Ei | Ei].
    + subst item0. exists sources'.
      split; [reflexivity |]. split.
      * rewrite PropertyFacts.own_put, String.eqb_refl. reflexivity.
      * apply (Hincl s0 Hi). exact Hs.
    + exists s0. split; [reflexivity |]. split; [| exact Hs].
      rewrite PropertyFacts.own_put.
      destruct (String.eqb_spec item item0); [contradiction | exact Hi].
  - exists grp0, s0. split; [exact Hg | split; [exact Hi | exact Hs]].
Qed.

(** Replaying a list of calls. *)
Lemma foldM_app {A S : Type} (f : S -> A -> result S) (l1 l2 : list A) :
  forall s, foldM f (l1 ++ l2) s = bind (foldM f l1 s) (foldM f l2).
Proof.
  induction l1 as [| x l1 IH]; intros s; simpl; [reflexivity |].
  destruct (f s x) as [s' | e]; simpl; [apply IH | reflexivity].
Qed.

Lemma foldM_map {A B S : Type} (f : S -> B -> result S) (g : A -> B)
  (l : list A) :
  forall s, foldM f (map g l) s = foldM (fun s x => f s (g x)) l s.
Proof.
  induction l as [| x l IH]; intros s; simpl; [reflexivity |].
  destruct (f s (g x)) as [s' | e]; simpl; [apply IH | reflexivity].
Qed.

Lemma replay_throws (l : list (string * string * Source)) :
  forall sm,
    cleanMap sm -> Exists inheritedItem l ->
    foldM record l sm = Throw TypeError.
Proof.
  induction l as [| t l IH]; intros sm Hclean Hex.
  - inversion Hex.
  - simpl. destruct (record sm t) as [sm' | e] eqn:E; simpl.
    + inversion Hex as [? ? Ht | ? ? Hl]; subst.
      * unfold record in E.
        rewrite (addToSourceMap_inherited _ _ _ _ Hclean Ht) in E.
        discriminate E.
      * apply IH; [| exact Hl].
        apply (addToSourceMap_clean _ _ _ _ _ Hclean E).
    + apply addToSourceMap_only_TypeError in E. subst e. reflexivity.
Qed.

Lemma replay_succeeds (l : list (string * string * Source)) :
  forall sm,
    Forall (fun t => ~ inheritedItem t) l ->
    exists sm', foldM record l sm = Ok sm'.
Proof.
  induction l as [| t l IH]; intros sm Hall; simpl.
  - exists sm. reflexivity.
  - inversion Hall as [| ? ? Ht Hl]; subst.
    destruct (addToSourceMap_plain (fst (fst t)) (snd (fst t)) (snd t) sm)
      as [sm' Hsm'].
    { unfold inheritedItem in Ht.
      destruct (Obj.inherited (snd (fst t))); [exfalso; auto | reflexivity]. }
    unfold record at 1. rewrite Hsm'. simpl. apply IH. exact Hl.
Qed.

Lemma replay_records (l : list (string * string * Source)) :
  forall sm sm',
    foldM record l sm = Ok sm' ->
    (forall g i s, recorded g i s sm -> recorded g i s sm')
    /\ (forall g i s, In (g, i, s) l -> recorded g i s sm').
Proof.
  induction l as [| t l IH]; intros sm sm' H; simpl in H.
  - injection H as H. subst sm'. split; [auto | intros g i s []].
  - apply bind_Ok in H. destruct H as [sm1 [Ht H]].
    destruct (IH _ _ H) as [Hkeep Hrec].
    split.
    + intros g i s Hr. apply Hkeep.
      eapply addToSourceMap_keeps; eassumption.
    + intros g i s [Hin | Hin].
      * subst t. apply Hkeep. apply addToSourceMap_records in Ht. exact Ht.
      * apply Hrec. exact Hin.
Qed.

End SourceMapFacts.

(** One declaration acts on the source map by replaying its calls, and
    fails exactly when this replay fails. *)
Lemma analyzeDeclaration_replay (r : Regex.re) (st : DeclState.t)
  (d : Declaration.t) :
  foldM record (sourceRecords r d) (DeclState.sourceMap st)
  = match analyzeDeclaration r st d with
    | Ok st' => Ok (DeclState.sourceMap st')
    | Throw e => Throw e
    end.
Proof.
  unfold analyzeDeclaration, sourceRecords, fontFamilyOf, fontSizeOf, colorsOf.
  destruct (Str.contains "font-family" (Declaration.property d));
    destruct (Str.contains "font-size" (Declaration.property d));
    destruct (Regex.test Patterns.colorPropertyRegex (Declaration.property d));
    cbn [app foldM map bind]; unfold record; cbn [fst snd].
  all: repeat match goal with
         | |- context [addToSourceMap ?g ?i ?s ?m] =>
             destruct (addToSourceMap g i s m); cbn [bind]; [| reflexivity]
         end.
  all: try reflexivity.
  all: rewrite SourceMapFacts.foldM_map; cbn [fst snd].
  all: match goal with
       | |- context [addColor ?c ?s] =>
           destruct (addColor_spec c s) as [H1 _];
           destruct (addColor_frame c s) as [_ [_ [_ [_ [_ H6]]]]];
           destruct (addColor c s) as [added st4]
       end;
       cbn [fst snd DeclState.sourceMap] in H1, H6;
       rewrite <- H1, <- H6;
       destruct added as [| c0 added]; [reflexivity |];
       destruct (foldM _ (c0 :: added) (DeclState.sourceMap st4));
       reflexivity.
Qed.

Lemma walk_replay (r : Regex.re) (declarations : list Declaration.t) :
  forall st,
    foldM record (flat_map (sourceRecords r) declarations)
          (DeclState.sourceMap st)
    = match foldM (analyzeDeclaration r) declarations st with
      | Ok st' => Ok (DeclState.sourceMap st')
      | Throw e => Throw e
      end.
Proof.
  induction declarations as [| d ds IH]; intros st; simpl; [reflexivity |].
  rewrite SourceMapFacts.foldM_app, analyzeDeclaration_replay.
  destruct (analyzeDeclaration r st d) as [st1 | e]; simpl;
    [apply IH | reflexivity].
Qed.

Lemma addToSourceMap_listed_once (g item : string) (src : Source)
  (sm sm' : SourceMap.t) :
  noRepeats sm -> addToSourceMap g item src sm = Ok sm' -> noRepeats sm'.
Proof.
  intros Hnr. unfold addToSourceMap, Obj.get.
  set (group := match Obj.own g (SourceMap.values sm) with
                | Some grp => grp
                | None => []
                end).
  assert (Hgroup : forall item0 sources0,
             In (item0, sources0) group -> NoDup sources0).
  { intros item0 sources0 Hin. unfold group in Hin.
    destruct (Obj.own g (SourceMap.values sm)) as [grp |] eqn:E;
      [| destruct Hin].
    apply (Hnr g grp item0 sources0); [| exact Hin].
    apply ObjFacts.own_Some. exact E. }
  assert (Hput : forall group',
             (forall item0 sources0,
                 In (item0, sources0) group' -> NoDup sources0) ->
             noRepeats (SourceMap.Make
                          (Obj.put g group' (SourceMap.values sm)))).
  { intros group' Hg' g0 grp0 item0 sources0 Hin Hin0. simpl in Hin.
    apply SourceMapFacts.put_In in Hin. destruct Hin as [[_ Hgrp] | Hin].
    - subst grp0. apply (Hg' item0 sources0 Hin0).
    - apply (Hnr g0 grp0 item0 sources0 Hin Hin0). }
  destruct (Obj.own item group) as [sources |] eqn:E; simpl.
  - destruct (existsb (Nat.eqb src) sources) eqn:Ee; simpl;
      intros H; injection H as H; subst sm'; apply Hput.
    + exact Hgroup.
    + intros item0 sources0 Hin.
      apply SourceMapFacts.put_In in Hin.
      destruct Hin as [[_ Hs] | Hin]; [| apply (Hgroup item0 _ Hin)].
      subst sources0.
      apply NoDup_app_remove_l with (l := []). simpl.
      apply Permutation_NoDup with (src :: sources);
        [apply Permutation_cons_append |].
      constructor.
      * intros Hin.
        assert (Ht : existsb (Nat.eqb src) sources = true).
        { apply existsb_exists. exists src.
          split; [exact Hin | apply Nat.eqb_refl]. }
        congruence.
      * apply (Hgroup item sources). apply ObjFacts.own_Some. exact E.
  - destruct (Obj.inherited item); simpl; [discriminate |].
    intros H. injection H as H. subst sm'. apply Hput.
    intros item0 sources0 Hin.
    apply SourceMapFacts.put_In in Hin.
    destruct Hin as [[_ Hs] | Hin]; [| apply (Hgroup item0 _ Hin)].
    subst sources0. constructor; [intros [] | constructor].
Qed.

Lemma replay_listed_once (l : list (string * string * Source)) :
  forall sm sm',
    noRepeats sm -> foldM record l sm = Ok sm' -> noRepeats sm'.
Proof.
  induction l as [| t l IH]; intros sm sm' Hnr H; simpl in H.
  - injection H as H. subst sm'. exact Hnr.
  - apply bind_Ok in H. destruct H as [sm1 [Ht H]].
    apply (IH sm1 sm'); [| exact H].
    apply (addToSourceMap_listed_once _ _ _ _ _ Hnr Ht).
Qed.

Section SourceMapTheorems.
Variable RegExp : string -> string -> result Regex.re.
Variable options : Options.t.
Variable declarations : list Declaration.t.
Variable sourceMap : SourceMap.t.

(** The source map a successful [analyzeDeclarations] leaves is the
    replay of the calls of all the declarations. *)
Lemma analyzeDeclarations_replay (da : DeclarationAnalysis.t) :
  analyzeDeclarations RegExp options declarations sourceMap = Ok da ->
  exists r,
    newRegExp RegExp (Some (namedColorsSource (Options.namedColors options)))
              "i" = Ok r
    /\ foldM record (flat_map (sourceRecords r) declarations) sourceMap
       = Ok (DeclarationAnalysis.sourceMap da).
Proof.
  unfold analyzeDeclarations, walkDeclarations. intros H.
  apply bind_Ok in H. destruct H as [st [Hw H]].
  apply bind_Ok in Hw. destruct Hw as [r [Hr Hw]].
  injection H as H. subst da. simpl.
  exists r. split; [exact Hr |].
  pose proof (walk_replay r declarations (DeclState.init sourceMap)) as Hrep.
  rewrite Hw in Hrep. exact Hrep.
Qed.

(** X17: with the pattern of the named colours compiled to [r] and a
    source map that owns no item named like a member of
    [Object.prototype], [analyzeDeclarations] fails exactly when a font
    family, a font size or a colour it has to record is named like such a
    member ([constructor], [toString], ...), and it fails with a
    [TypeError]; otherwise it returns a result. *)
Theorem inherited_name_aborts (r : Regex.re) :
  newRegExp RegExp (Some (namedColorsSource (Options.namedColors options)))
            "i" = Ok r ->
  cleanMap sourceMap ->
  (Exists inheritedItem (flat_map (sourceRecords r) declarations) ->
   analyzeDeclarations RegExp options declarations sourceMap = Throw TypeError)
  /\ (Forall (fun t => ~ inheritedItem t)
             (flat_map (sourceRecords r) declarations) ->
      exists da,
        analyzeDeclarations RegExp options declarations sourceMap = Ok da).
Proof.
  intros Hr Hclean.
  pose proof (walk_replay r declarations (DeclState.init sourceMap)) as Hrep.
  simpl in Hrep.
  unfold analyzeDeclarations, walkDeclarations. rewrite Hr. simpl.
  split.
  - intros Hex.
    rewrite (SourceMapFacts.replay_throws _ _ Hclean Hex) in Hrep.
    destruct (foldM (analyzeDeclaration r) declarations
                    (DeclState.init sourceMap)) as [st | e];
      [discriminate |].
    injection Hrep as Hrep. subst e. reflexivity.
  - intros Hall.
    destruct (SourceMapFacts.replay_succeeds _ sourceMap Hall) as [sm' Hsm'].
    rewrite Hsm' in Hrep.
    destruct (foldM (analyzeDeclaration r) declarations
                    (DeclState.init sourceMap)) as [st | e];
      [| discriminate].
    simpl. eexists. reflexivity.
Qed.

(** X18: after a successful [analyzeDeclarations] the source map lists the
    source of every declaration under each font family, font size and
    colour the declaration contributed, and keeps what it listed before. *)
Theorem source_map_complete (da : DeclarationAnalysis.t) :
  analyzeDeclarations RegExp options declarations sourceMap = Ok da ->
  exists r,
    newRegExp RegExp (Some (namedColorsSource (Options.namedColors options)))
              "i" = Ok r
    /\ (forall g item src,
          recorded g item src sourceMap ->
          recorded g item src (DeclarationAnalysis.sourceMap da))
    /\ (forall d,
          In d declarations ->
          (forall f, fontFamilyOf d = Some f ->
                     recorded "font-family" f (Declaration.source d)
                              (DeclarationAnalysis.sourceMap da))
          /\ (forall f, fontSizeOf d = Some f ->
                        recorded "font-size" f (Declaration.source d)
                                 (DeclarationAnalysis.sourceMap da))
          /\ (forall c, In c (colorsOf r d) ->
                        recorded "color" c (Declaration.source d)
                                 (DeclarationAnalysis.sourceMap da))).
Proof.
  intros H. apply analyzeDeclarations_replay in H.
  destruct H as [r [Hr Hrep]].
  apply SourceMapFacts.replay_records in Hrep.
  destruct Hrep as [Hkeep Hrec].
  exists r. split; [exact Hr |]. split; [exact Hkeep |].
  intros d Hd.
  assert (Hin : forall t, In t (sourceRecords r d) ->
                          In t (flat_map (sourceRecords r) declarations)).
  { intros t Ht. apply in_flat_map. exists d. split; assumption. }
  unfold sourceRecords in Hin.
  split; [| split].
  - intros f Hf. apply Hrec, Hin. rewrite Hf. left. reflexivity.
  - intros f Hf. apply Hrec, Hin. rewrite Hf.
    apply in_or_app. right. left. reflexivity.
  - intros c Hc. apply Hrec, Hin.
    apply in_or_app. right. apply in_or_app. right.
    apply in_map with (f := fun c => ("color", c, Declaration.source d)).
    exact Hc.
Qed.

(** X19: [addToSourceMap] never lists a source twice under an item: a
    source map without repeated sources is still one after a successful
    [analyzeDeclarations]. *)
Theorem sources_listed_once (da : DeclarationAnalysis.t) :
  noRepeats sourceMap ->
  analyzeDeclarations RegExp options declarations sourceMap = Ok da ->
  noRepeats (DeclarationAnalysis.sourceMap da).
Proof.
  intros Hnr H. apply analyzeDeclarations_replay in H.
  destruct H as [r [_ Hrep]].
  apply (replay_listed_once _ _ _ Hnr Hrep).
Qed.

End SourceMapTheorems.


(** *** Normal forms of hexadecimal colours *)

Module HexFacts.

Lemma is_hex_In (x : ascii) :
  is_hex x = true -> In x (Str.chars "0123456789ABCDEFabcdef").
Proof.
  destruct x as [[] [] [] [] [] [] [] []]; vm_compute; intros H;
    try discriminate H;
    repeat first [left; reflexivity | right].
Qed.

Lemma short_hex_check :
  let digits := Str.chars "0123456789ABCDEFabcdef" in
  forallb
    (fun a =>
       forallb
         (fun b =>
            forallb
              (fun c =>
                 String.eqb
                   (normalizeColor
                      (String "#" (String a (String b (String c "")))))
                   (String "#"
                      (String (Chars.upper a)
                         (String (Chars.upper a)
                            (String (Chars.upper b)
                               (String (Chars.upper b)
                                  (String (Chars.upper c)
                                     (String (Chars.upper c) ""))))))))
              digits)
         digits)
    digits = true.
Proof. vm_compute. reflexivity. Qed.

Lemma upper_hex_facts (x : ascii) :
  is_upper_hex x = true ->
  Ascii.eqb "!" x = false
  /\ Chars.upper x = x
  /\ Chars.is_space x = false
  /\ (Chars.is_digit x || Chars.between 65 70 x) = true.
Proof.
  destruct x as [[] [] [] [] [] [] [] []]; vm_compute; intros H;
    try discriminate H; repeat split.
Qed.

Lemma search_cons (r : Regex.re) (pre : list ascii) (c : ascii)
  (suf : list ascii) :
  Regex.search r pre (c :: suf)
  = match Regex.match_at r (Regex.MState pre (c :: suf) []) with
    | Some st' => Some (Regex.Found (Regex.MState pre (c :: suf) []) st')
    | None => Regex.search r (c :: pre) suf
    end.
Proof. reflexivity. Qed.

End HexFacts.

(** X20: a three-digit hexadecimal colour, in either case, is brought to
    six upper-case digits, each digit doubled. *)
Theorem short_hex_is_doubled (a b c : ascii) :
  is_hex a = true -> is_hex b = true -> is_hex c = true ->
  normalizeColor (String "#" (String a (String b (String c ""))))
  = String "#"
      (String (Chars.upper a)
         (String (Chars.upper a)
            (String (Chars.upper b)
               (String (Chars.upper b)
                  (String (Chars.upper c) (String (Chars.upper c) "")))))).
Proof.
  intros Ha Hb Hc.
  apply HexFacts.is_hex_In in Ha, Hb, Hc.
  pose proof HexFacts.short_hex_check as H. cbv zeta in H.
  rewrite forallb_forall in H. specialize (H a Ha).
  rewrite forallb_forall in H. specialize (H b Hb).
  rewrite forallb_forall in H. specialize (H c Hc).
  apply String.eqb_eq in H. exact H.
Qed.

Lemma short_hex_is_doubled_witness :
  normalizeColor "#a0F" = "#AA00FF".
Proof.
  apply (short_hex_is_doubled "a" "0" "F"); reflexivity.
Defined.

(** X21: a colour made of [#] and six upper-case hexadecimal digits is
    already in normal form: [addColor] records it unchanged. *)
Theorem long_hex_is_unchanged (a b c d e f : ascii) :
  is_upper_hex a = true -> is_upper_hex b = true -> is_upper_hex c = true ->
  is_upper_hex d = true -> is_upper_hex e = true -> is_upper_hex f = true ->
  let color :=
    String "#" (String a (String b (String c (String d (String e
      (String f "")))))) in
  normalizeColor color = color.
Proof.
  intros Ha Hb Hc Hd He Hf color.
  destruct (HexFacts.upper_hex_facts a Ha) as [A1 [A2 [A3 A4]]].
  destruct (HexFacts.upper_hex_facts b Hb) as [B1 [B2 [B3 B4]]].
  destruct (HexFacts.upper_hex_facts c Hc) as [C1 [C2 [C3 C4]]].
  destruct (HexFacts.upper_hex_facts d Hd) as [D1 [D2 [D3 D4]]].
  destruct (HexFacts.upper_hex_facts e He) as [E1 [E2 [E3 E4]]].
  destruct (HexFacts.upper_hex_facts f Hf) as [F1 [F2 [F3 F4]]].
  unfold normalizeColor.
  assert (H1 : Regex.replace Patterns.importantRegex [] color = color).
  { unfold Regex.replace, Patterns.importantRegex.
    rewrite RegexFacts.exec_Lit_None; [reflexivity |].
    unfold Str.contains, color.
    cbn -[Ascii.eqb].
    rewrite A1, B1, C1, D1, E1, F1. reflexivity. }
  rewrite H1.
  assert (H2 : Str.trim (Str.toUpperCase color) = color).
  { unfold Str.trim, Str.toUpperCase, color.
    cbn -[Chars.upper Chars.is_space].
    rewrite A2, B2, C2, D2, E2, F2.
    change (Chars.upper "#") with "#"%char.
    change (Chars.is_space "#") with false.
    cbn -[Chars.is_space].
    rewrite F3. reflexivity. }
  rewrite H2.
  assert (H3 : Regex.test Patterns.shortHexRegex color = false).
  { unfold Regex.test, Regex.exec, Regex.search_from, color.
    simpl firstn. simpl rev. simpl skipn.
    unfold Patterns.shortHexRegex, Regex.Seq. simpl fold_right.
    cbn [Str.chars list_ascii_of_string].
    rewrite HexFacts.search_cons.
    rewrite ColorFacts.anchored_later by discriminate.
    unfold Regex.match_at.
    cbn -[Chars.is_digit Chars.between].
    rewrite A4. cbn -[Chars.is_digit Chars.between].
    rewrite B4. cbn -[Chars.is_digit Chars.between].
    rewrite C4. cbn -[Chars.is_digit Chars.between].
    try reflexivity. }
  rewrite H3. reflexivity.
Qed.

Lemma long_hex_is_unchanged_witness :
  normalizeColor "#AA00FF" = "#AA00FF".
Proof.
  apply (long_hex_is_unchanged "A" "A" "0" "0" "F" "F"); reflexivity.
Defined.

(** *** Escaping for [toSafeJSON] *)

Module FormatFacts.

Lemma search_Char (p : ascii -> bool) (suf : list ascii) :
  forall pre,
    Regex.search (Regex.Char p) pre suf
    = match suf with
      | [] => None
      | c :: rest =>
          if p c
          then Some (Regex.Found (Regex.MState pre (c :: rest) [])
                                 (Regex.MState (c :: pre) rest []))
          else Regex.search (Regex.Char p) (c :: pre) rest
      end.
Proof.
  destruct suf as [| c rest]; intros pre; simpl; unfold Regex.match_at; simpl.
  - reflexivity.
  - destruct (p c); reflexivity.
Qed.

Lemma search_start (r : Regex.re) (suf : list ascii) :
  forall pre f,
    Regex.search r pre suf = Some f ->
    List.length pre <= Regex.index (Regex.start f).
Proof.
  induction suf as [| c rest IH]; intros pre f; simpl;
    destruct (Regex.match_at r _).
  - intros H. injection H as <-. simpl. unfold Regex.index. simpl. lia.
  - discriminate.
  - intros H. injection H as <-. unfold Regex.index. simpl. lia.
  - intros H. apply IH in H. simpl in H. lia.
Qed.

(** One more character ahead of the search that does not match is copied
    unchanged. *)
Lemma replace_fn_skip (p : ascii -> bool) (fn : string -> string)
  (fuel : nat) (pre : list ascii) (c : ascii) (rest : list ascii) :
  p c = false ->
  replace_fn_loop (S fuel) (Regex.Char p) fn pre (c :: rest)
  = c :: replace_fn_loop (S fuel) (Regex.Char p) fn (c :: pre) rest.
Proof.
  intros Hc. cbn [replace_fn_loop].
  rewrite (search_Char p (c :: rest) pre). rewrite Hc.
  destruct (Regex.search (Regex.Char p) (c :: pre) rest) as [f |] eqn:E;
    [| reflexivity].
  apply search_start in E. cbn [List.length] in E.
  unfold Regex.skipped. cbn [List.length].
  replace (Regex.index (Regex.start f) - List.length pre)
    with (S (Regex.index (Regex.start f) - S (List.length pre))) by lia.
  reflexivity.
Qed.

Lemma replace_fn_Char (p : ascii -> bool) (fn : string -> string)
  (fuel : nat) :
  forall suf pre,
    List.length suf < fuel ->
    replace_fn_loop fuel (Regex.Char p) fn pre suf
    = flat_map (fun c => if p c then Str.chars (fn (String c EmptyString))
                         else [c]) suf.
Proof.
  induction fuel as [| fuel IHf]; intros suf pre Hlen; [lia |].
  revert pre Hlen.
  induction suf as [| c rest IHs]; intros pre Hlen.
  - reflexivity.
  - cbn [flat_map]. destruct (p c) eqn:Hc.
    + cbn [replace_fn_loop]. rewrite (search_Char p (c :: rest) pre), Hc.
      unfold Regex.skipped, Regex.whole, Regex.text_between, Regex.index.
      cbn [Regex.start Regex.stop Regex.before Regex.after List.length].
      rewrite Nat.sub_diag.
      replace (S (List.length pre) - List.length pre) with 1 by lia.
      replace (S (List.length pre) =? List.length pre) with false
        by (symmetry; apply Nat.eqb_neq; lia).
      cbn [firstn app Str.of_chars string_of_list_ascii].
      f_equal. apply IHf. cbn [List.length] in Hlen. lia.
    + rewrite replace_fn_skip by exact Hc.
      cbn [app]. f_equal. apply IHs. cbn [List.length] in Hlen. lia.
Qed.

Lemma chars_of_chars (l : list ascii) : Str.chars (Str.of_chars l) = l.
Proof. apply list_ascii_of_string_of_list_ascii. Qed.

Lemma of_chars_chars (s : string) : Str.of_chars (Str.chars s) = s.
Proof. apply string_of_list_ascii_of_string. Qed.

Lemma chars_length (s : string) : List.length (Str.chars s) = String.length s.
Proof.
  unfold Str.chars.
  induction s as [| c s IH]; simpl; [reflexivity | now rewrite IH].
Qed.

Lemma chars_app (s1 s2 : string) :
  Str.chars (s1 ++ s2) = Str.chars s1 ++ Str.chars s2.
Proof.
  unfold Str.chars.
  induction s1 as [| c s1 IH]; simpl; [reflexivity |].
  now rewrite IH.
Qed.

Lemma of_chars_app (l1 l2 : list ascii) :
  Str.of_chars (l1 ++ l2) = (Str.of_chars l1 ++ Str.of_chars l2)%string.
Proof.
  unfold Str.of_chars.
  induction l1 as [| c l1 IH]; simpl; [reflexivity |].
  now rewrite IH.
Qed.

(** [escape] works character by character. *)
Lemma escape_chars (s : string) :
  Format.escape s
  = Str.of_chars (flat_map Format.escapeOne (Str.chars s)).
Proof.
  unfold Format.escape, replace_fn_g, Format.escapeRegex.
  rewrite replace_fn_Char by (rewrite chars_length; lia).
  reflexivity.
Qed.

Lemma escapeOne_clean (c x : ascii) :
  In x (Format.escapeOne c) ->
  existsb (Ascii.eqb x) (map ascii_of_nat [0; 8; 9; 26; 10; 13; 37]) = false.
Proof.
  destruct c as [[] [] [] [] [] [] [] []]; vm_compute;
    intros H; repeat (destruct H as [<- | H]; [reflexivity |]);
    contradiction.
Qed.

Lemma escapeOne_plain (c : ascii) :
  existsb (Ascii.eqb c) Format.special = false -> Format.escapeOne c = [c].
Proof. unfold Format.escapeOne. intros ->. reflexivity. Qed.

End FormatFacts.

(** X22: [escape] treats every character on its own: escaping a
    concatenation gives the concatenation of the escaped parts. *)
Theorem escape_app (s1 s2 : string) :
  Format.escape (s1 ++ s2) = (Format.escape s1 ++ Format.escape s2)%string.
Proof.
  rewrite !FormatFacts.escape_chars, FormatFacts.chars_app, flat_map_app.
  apply FormatFacts.of_chars_app.
Qed.

(** X23: the percent sign is in the class of [escape] but has no case in
    its [switch]: every percent sign of the text is replaced by the word
    [undefined], so that what [toSafeJSON] passes on for a text with a
    percent sign is what it passes on for the text with [undefined] in its
    place. *)
Theorem escape_percent (s1 s2 : string) :
  Format.escape (s1 ++ "%" ++ s2)
  = (Format.escape s1 ++ "undefined" ++ Format.escape s2)%string
  /\ Format.escape (s1 ++ "%" ++ s2)
     = Format.escape (s1 ++ "undefined" ++ s2).
Proof.
  assert (H : Format.escape (s1 ++ "%" ++ s2)
              = (Format.escape s1 ++ "undefined" ++ Format.escape s2)%string).
  { rewrite !FormatFacts.escape_chars, !FormatFacts.chars_app, !flat_map_app.
    rewrite !FormatFacts.of_chars_app. reflexivity. }
  split; [exact H |].
  rewrite H.
  rewrite !FormatFacts.escape_chars, !FormatFacts.chars_app, !flat_map_app.
  rewrite !FormatFacts.of_chars_app. reflexivity.
Qed.

(** X24: the text [escape] returns holds none of the characters NUL,
    backspace, tab, substitute, line feed, carriage return and percent. *)
Theorem escape_output_clean (s : string) (x : ascii) :
  In x (Str.chars (Format.escape s)) ->
  existsb (Ascii.eqb x) (map ascii_of_nat [0; 8; 9; 26; 10; 13; 37]) = false.
Proof.
  rewrite FormatFacts.escape_chars, FormatFacts.chars_of_chars.
  intros H. apply in_flat_map in H. destruct H as [c [_ H]].
  apply (FormatFacts.escapeOne_clean c). exact H.
Qed.

Lemma escape_output_clean_witness :
  existsb (Ascii.eqb "n")
    (map ascii_of_nat [0; 8; 9; 26; 10; 13; 37]) = false.
Proof.
  apply (escape_output_clean (String (ascii_of_nat 10) "")).
  vm_compute. right. left. reflexivity.
Defined.

(** X25: a text without any character of the class of [escape] comes back
    unchanged. *)
Theorem escape_plain_unchanged (s : string) :
  forallb (fun c => negb (existsb (Ascii.eqb c) Format.special))
          (Str.chars s) = true ->
  Format.escape s = s.
Proof.
  intros H. rewrite FormatFacts.escape_chars.
  rewrite <- (FormatFacts.of_chars_chars s) at 2. f_equal.
  induction (Str.chars s) as [| c l IH]; [reflexivity |].
  cbn [forallb] in H. apply andb_prop in H. destruct H as [Hc Hl].
  cbn [flat_map]. rewrite FormatFacts.escapeOne_plain.
  - cbn [app]. f_equal. apply IH. exact Hl.
  - apply negb_true_iff. exact Hc.
Qed.

Lemma escape_plain_unchanged_witness :
  Format.escape "{a:1}" = "{a:1}".
Proof.
  apply (escape_plain_unchanged "{a:1}"). reflexivity.
Defined.

(** *** [rgbToHex] *)

Module RgbFacts.

Lemma shl_small (x k : Z) :
  (0 <= k)%Z -> (0 <= x * 2 ^ k < 2147483648)%Z ->
  Num.shl x k = (x * 2 ^ k)%Z.
Proof.
  intros Hk Hx. unfold Num.shl, Num.int32.
  rewrite Z.shiftl_mul_pow2 by exact Hk.
  rewrite Z.mod_small by lia. lia.
Qed.

Lemma hex_chars_step (fuel : nat) (q d : Z) :
  (1 <= q)%Z -> (0 <= d < 16)%Z ->
  Num.hex_chars (S fuel) (16 * q + d)
  = Num.hex_chars fuel q ++ [Num.hex_digit d].
Proof.
  intros Hq Hd. cbn [Num.hex_chars].
  replace (16 * q + d <? 16)%Z with false
    by (symmetry; apply Z.ltb_ge; lia).
  replace ((16 * q + d) / 16)%Z with q
    by (apply Z.div_unique with d; lia).
  replace ((16 * q + d) mod 16)%Z with d
    by (apply Z.mod_unique with q; lia).
  reflexivity.
Qed.

Lemma byte_split (v : Z) :
  (0 <= v <= 255)%Z ->
  (v = 16 * (v / 16) + v mod 16
   /\ 0 <= v / 16 < 16 /\ 0 <= v mod 16 < 16)%Z.
Proof.
  intros Hv. pose proof (Z.div_mod v 16) as H.
  pose proof (Z.mod_pos_bound v 16) as Hm.
  split; [lia |]. split; [| lia].
  split; [apply Z.div_pos; lia | apply Z.div_lt_upper_bound; lia].
Qed.

(** The seven hexadecimal digits of [2^24 + R * 2^16 + G * 2^8 + B]. *)
Lemma toString16_rgb (R G B : Z) :
  (0 <= R <= 255)%Z -> (0 <= G <= 255)%Z -> (0 <= B <= 255)%Z ->
  Num.toString16 (16777216 + R * 65536 + G * 256 + B)
  = ("1" ++ hexByte R ++ hexByte G ++ hexByte B)%string.
Proof.
  intros HR HG HB.
  destruct (byte_split R HR) as [ER [HR1 HR0]].
  destruct (byte_split G HG) as [EG [HG1 HG0]].
  destruct (byte_split B HB) as [EB [HB1 HB0]].
  set (r1 := (R / 16)%Z) in *. set (r0 := (R mod 16)%Z) in *.
  set (g1 := (G / 16)%Z) in *. set (g0 := (G mod 16)%Z) in *.
  set (b1 := (B / 16)%Z) in *. set (b0 := (B mod 16)%Z) in *.
  unfold Num.toString16, hexByte.
  fold r1 r0 g1 g0 b1 b0.
  assert (Hlog : Z.log2 (16777216 + R * 65536 + G * 256 + B) = 24%Z).
  { apply Z.log2_unique; [lia |]. change (2 ^ 24)%Z with 16777216%Z.
    change (2 ^ (24 + 1))%Z with 33554432%Z. lia. }
  rewrite Hlog. change (S (Z.to_nat 24)) with 25.
  replace (16777216 + R * 65536 + G * 256 + B)%Z
    with (16 * (16 * (16 * (16 * (16 * (16 * 1 + r1) + r0) + g1) + g0) + b1)
          + b0)%Z by lia.
  rewrite !hex_chars_step by lia.
  reflexivity.
Qed.

End RgbFacts.

(** X26: for three channels between 0 and 255, [rgbToHex] is [#] followed
    by the two lower-case hexadecimal digits of each channel, six digits
    in all. *)
Theorem rgbToHex_bytes (r g b : string) :
  (0 <= Num.of_digits r <= 255)%Z ->
  (0 <= Num.of_digits g <= 255)%Z ->
  (0 <= Num.of_digits b <= 255)%Z ->
  rgbToHex r g b
  = ("#" ++ hexByte (Num.of_digits r) ++ hexByte (Num.of_digits g)
         ++ hexByte (Num.of_digits b))%string.
Proof.
  intros HR HG HB. unfold rgbToHex.
  rewrite !Z.mul_1_r.
  rewrite (RgbFacts.shl_small 1 24) by (change (2 ^ 24)%Z with 16777216%Z; lia).
  rewrite (RgbFacts.shl_small (Num.of_digits r) 16)
    by (change (2 ^ 16)%Z with 65536%Z; lia).
  rewrite (RgbFacts.shl_small (Num.of_digits g) 8)
    by (change (2 ^ 8)%Z with 256%Z; lia).
  change (1 * 2 ^ 24)%Z with 16777216%Z.
  change (2 ^ 16)%Z with 65536%Z. change (2 ^ 8)%Z with 256%Z.
  rewrite RgbFacts.toString16_rgb by assumption.
  reflexivity.
Qed.

Lemma rgbToHex_bytes_witness :
  rgbToHex "255" "0" "18" = "#ff0012".
Proof.
  apply (rgbToHex_bytes "255" "0" "18"); vm_compute; split; discriminate.
Defined.

(** *** Chain lengths *)

Module ChainFacts.

Lemma split_loop_length (r : Regex.re) (fuel : nat) :
  forall cur pre suf,
    1 <= List.length (Regex.split_loop fuel r cur pre suf).
Proof.
  induction fuel as [| fuel IH]; intros cur pre suf; cbn [Regex.split_loop].
  - cbn [List.length]. lia.
  - destruct suf as [| c suf]; [cbn [List.length]; lia |].
    destruct (Regex.match_at r _) as [st' |]; [| apply IH].
    destruct (_ && _); [apply IH |].
    cbn [List.length]. lia.
Qed.

Lemma split_length (s : string) :
  1 <= List.length (Regex.split Patterns.separatorRegex s).
Proof.
  destruct s as [| c s].
  - vm_compute. lia.
  - unfold Regex.split. apply split_loop_length.
Qed.

Lemma plain_facts (c : ascii) :
  plainChar c = true ->
  Chars.is_space c = false /\ Chars.one_of ">|+~" c = false
  /\ Chars.lit ">" c = false /\ Chars.lit "+" c = false
  /\ Chars.lit "~" c = false.
Proof.
  destruct c as [[] [] [] [] [] [] [] []]; vm_compute; intros H;
    try discriminate H; repeat split.
Qed.

Lemma combinator_fails : failsOnPlain Patterns.combinatorRegex.
Proof.
  split.
  - intros pre c rest Hc.
    destruct (plain_facts c Hc) as [H1 [H2 _]].
    unfold Regex.match_at, Patterns.combinatorRegex, Patterns.ws.
    cbn -[Chars.is_space Chars.one_of]. rewrite H1.
    cbn -[Chars.is_space Chars.one_of]. rewrite H2. reflexivity.
  - intros pre. reflexivity.
Qed.

Lemma spaces_fails : failsOnPlain Patterns.spacesRegex.
Proof.
  split.
  - intros pre c rest Hc.
    destruct (plain_facts c Hc) as [H1 _].
    unfold Regex.match_at, Patterns.spacesRegex, Patterns.ws, Regex.Plus.
    cbn [Regex.rmatch Regex.before Regex.after]. rewrite H1. reflexivity.
  - intros pre. reflexivity.
Qed.

Lemma separator_fails : failsOnPlain Patterns.separatorRegex.
Proof.
  split.
  - intros pre c rest Hc.
    destruct (plain_facts c Hc) as [H1 [_ [H3 [H4 H5]]]].
    unfold Regex.match_at, Patterns.separatorRegex, Patterns.ws,
      Patterns.chr.
    cbn [Regex.rmatch Regex.before Regex.after].
    rewrite H1, H3, H4, H5. reflexivity.
  - intros pre. reflexivity.
Qed.

Lemma search_plain (r : Regex.re) (suf : list ascii) :
  failsOnPlain r ->
  forall pre, forallb plainChar suf = true -> Regex.search r pre suf = None.
Proof.
  intros [Hc He].
  induction suf as [| c suf IH]; intros pre H; cbn [Regex.search].
  - rewrite He. reflexivity.
  - cbn [forallb] in H. apply andb_prop in H. destruct H as [H1 H2].
    rewrite Hc by exact H1. apply IH. exact H2.
Qed.

Lemma replace_g_plain (r : Regex.re) (tmpl : list Regex.piece) (s : string) :
  failsOnPlain r ->
  forallb plainChar (Str.chars s) = true ->
  Regex.replace_g r tmpl s = s.
Proof.
  intros Hr Hs. unfold Regex.replace_g. cbn [Regex.replace_loop].
  rewrite search_plain by assumption.
  apply FormatFacts.of_chars_chars.
Qed.

Lemma split_loop_plain (r : Regex.re) (fuel : nat) :
  failsOnPlain r ->
  forall cur pre suf,
    forallb plainChar suf = true ->
    List.length (Regex.split_loop fuel r cur pre suf) = 1.
Proof.
  intros [Hc He].
  induction fuel as [| fuel IH]; intros cur pre suf H;
    cbn [Regex.split_loop]; [reflexivity |].
  destruct suf as [| c suf]; [reflexivity |].
  cbn [forallb] in H. apply andb_prop in H. destruct H as [H1 H2].
  rewrite Hc by exact H1. apply IH. exact H2.
Qed.

End ChainFacts.

(** X27: the chain length of a selector is never 0, whatever the text of
    the selector, the empty text included. *)
Theorem chainLength_positive (selector : string) :
  1 <= chainLength selector.
Proof. unfold chainLength. apply ChainFacts.split_length. Qed.

(** X28: a selector without white space and without any of the characters
    [>], [|], [+] and [~] has chain length 1. *)
Theorem chainLength_plain (selector : string) :
  forallb plainChar (Str.chars selector) = true ->
  chainLength selector = 1.
Proof.
  intros H. unfold chainLength.
  rewrite (ChainFacts.replace_g_plain Patterns.combinatorRegex _ selector)
    by (exact ChainFacts.combinator_fails || exact H).
  rewrite (ChainFacts.replace_g_plain Patterns.spacesRegex _ selector)
    by (exact ChainFacts.spaces_fails || exact H).
  destruct selector as [| c s]; [reflexivity |].
  unfold Regex.split.
  apply ChainFacts.split_loop_plain;
    [exact ChainFacts.separator_fails | exact H].
Qed.

Lemma chainLength_plain_witness :
  chainLength "a.b#c:hover" = 1.
Proof.
  apply (chainLength_plain "a.b#c:hover"). reflexivity.
Defined.

(** *** Runs of the further properties *)

Section MoreRuns.
Import Examples Samples.

Local Abbreviation sheetRun :=
  (analyze parseClass Examples.RegExp gzipFails sheetRules sheetSelectors
           sheetDeclarations sheetText 70 (noGzip 1 []) emptyMap).

Local Abbreviation keywordRun :=
  (analyze parseClass Examples.RegExp gzipFails [] [] keywordDeclarations
           "" 0 (noGzip 10 ["transparent"]) emptyMap).

Local Abbreviation fontRun :=
  (analyze parseClass Examples.RegExp gzipFails [] [] fontDeclarations
           "" 0 (noGzip 10 ["transparent"]) emptyMap).

Local Abbreviation keywordDeclarationRun :=
  (analyzeDeclarations Examples.RegExp (noGzip 10 ["transparent"])
                       keywordDeclarations emptyMap).

Lemma selector_counters_count_selectors_witness :
  exists sa,
    analyzeSelectors parseClass Examples.RegExp (noGzip 1 []) sheetSelectors
    = Ok sa
    /\ exists chains,
         Forall2 (fun s c => parseClass s = Ok c) sheetSelectors chains
         /\ SelectorAnalysis.classSelectors sa = countIf chainHasClass chains.
Proof.
  destruct (analyzeSelectors parseClass Examples.RegExp (noGzip 1 [])
                             sheetSelectors) as [sa | e] eqn:Hrun;
    [| vm_compute in Hrun; discriminate Hrun].
  exists sa. split; [reflexivity |].
  apply selector_counters_count_selectors in Hrun.
  destruct Hrun as [chains [HF [_ [_ [_ [_ [_ Hc]]]]]]].
  exists chains. split; assumption.
Defined.

Lemma javascriptSpecificSelectors_at_most_matches_witness :
  exists sa,
    analyzeSelectors parseClass Examples.RegExp (noGzip 1 [])
                     [".js-a"; ".x"; ".js-b"] = Ok sa
    /\ SelectorAnalysis.javascriptSpecificSelectors sa
       <= hookMatches hookPattern [".js-a"; ".x"; ".js-b"].
Proof.
  destruct (analyzeSelectors parseClass Examples.RegExp (noGzip 1 [])
                             [".js-a"; ".x"; ".js-b"]) as [sa | e] eqn:Hrun;
    [| vm_compute in Hrun; discriminate Hrun].
  exists sa. split; [reflexivity |].
  apply javascriptSpecificSelectors_at_most_matches in Hrun.
  destruct Hrun as [regexp [Hre [Hle _]]].
  assert (Hp : newRegExp Examples.RegExp
                 (Options.javascriptSpecificSelectors (noGzip 1 [])) "g"
               = Ok hookPattern) by reflexivity.
  rewrite Hp in Hre. injection Hre as <-. exact Hle.
Defined.

Lemma selector_counters_bounded_witness :
  exists a,
    sheetRun = Ok a
    /\ forall n,
         In (Some n)
            [ Analysis.idSelectors a; Analysis.universalSelectors a;
              Analysis.unqualifiedAttributeSelectors a;
              Analysis.attributeSelectors a; Analysis.elementSelectors a;
              Analysis.classSelectors a;
              Analysis.javascriptSpecificSelectors a ] ->
         n <= List.length sheetSelectors.
Proof.
  destruct sheetRun as [a | e] eqn:Hrun;
    [| vm_compute in Hrun; discriminate Hrun].
  exists a. split; [reflexivity |].
  intros n Hn.
  eapply selector_counters_bounded; [exact Hrun | exact Hn].
Defined.

Lemma malformed_selector_aborts_witness :
  analyze parseClass Examples.RegExp gzipFails sheetRules
          ([".a"] ++ "b" :: [".c"]) sheetDeclarations sheetText 70
          (noGzip 1 []) emptyMap
  = Throw SelectorParseError.
Proof.
  apply malformed_selector_aborts with (regexp := hookPattern).
  - reflexivity.
  - constructor; [| constructor].
    eexists. vm_compute. reflexivity.
  - reflexivity.
Defined.

Lemma bad_hook_pattern_aborts_witness :
  analyze parseClass Examples.RegExp gzipFails sheetRules sheetSelectors
          sheetDeclarations sheetText 70 (hookOptions "(") emptyMap
  = Throw SyntaxError.
Proof.
  apply bad_hook_pattern_aborts with (source := "(").
  - reflexivity.
  - discriminate.
  - reflexivity.
Defined.

Lemma mostIdentifier_is_maximum_witness :
  exists a, sheetRun = Ok a /\ Analysis.mostIdentifier a = Some 2.
Proof.
  destruct sheetRun as [a | e] eqn:Hrun;
    [| vm_compute in Hrun; discriminate Hrun].
  exists a. split; [reflexivity |].
  apply mostIdentifier_is_maximum in Hrun; [| reflexivity].
  rewrite Hrun. vm_compute. reflexivity.
Defined.

Lemma lowestCohesion_is_maximum_witness :
  exists a,
    sheetRun = Ok a
    /\ Analysis.lowestCohesion a = Some 2
    /\ Analysis.lowestCohesionSelector a = Some sheetSelectors.
Proof.
  destruct sheetRun as [a | e] eqn:Hrun;
    [| vm_compute in Hrun; discriminate Hrun].
  exists a. split; [reflexivity |].
  apply lowestCohesion_is_maximum in Hrun; [| reflexivity | reflexivity].
  cbn [expectedEntries sheetRules filter present Rule.declarations map]
    in Hrun.
  destruct Hrun as [rule [ds [Hin [Hds [_ [Hc Hs]]]]]].
  destruct Hin as [<- | []].
  injection Hds as <-.
  rewrite Hc, Hs. split; reflexivity.
Defined.

Lemma gzip_not_consulted_when_disabled_witness :
  sheetRun
  = analyze parseClass Examples.RegExp gzipFive sheetRules sheetSelectors
            sheetDeclarations sheetText 70 (noGzip 1 []) emptyMap.
Proof.
  apply gzip_not_consulted_when_disabled. reflexivity.
Defined.

Lemma keyword_counters_witness :
  exists a,
    keywordRun = Ok a
    /\ Analysis.importantKeywords a = Some 1
    /\ Analysis.floatProperties a = Some 0.
Proof.
  destruct keywordRun as [a | e] eqn:Hrun;
    [| vm_compute in Hrun; discriminate Hrun].
  exists a. split; [reflexivity |].
  apply keyword_counters in Hrun. destruct Hrun as [H1 H2].
  rewrite H1, H2. split; reflexivity.
Defined.

Lemma dataUriSize_sum_witness :
  exists a, sheetRun = Ok a /\ Analysis.dataUriSize a = Some 26.
Proof.
  destruct sheetRun as [a | e] eqn:Hrun;
    [| vm_compute in Hrun; discriminate Hrun].
  exists a. split; [reflexivity |].
  apply dataUriSize_sum in Hrun. rewrite Hrun. vm_compute. reflexivity.
Defined.

Lemma no_data_uri_no_ratio_witness :
  exists a,
    keywordRun = Ok a
    /\ Analysis.dataUriSize a = Some 0
    /\ Analysis.ratioOfDataUriSize a = None.
Proof.
  destruct keywordRun as [a | e] eqn:Hrun;
    [| vm_compute in Hrun; discriminate Hrun].
  exists a. split; [reflexivity |].
  apply no_data_uri_no_ratio in Hrun; [exact Hrun |].
  repeat constructor.
Defined.

Lemma uniqueColor_distinct_sorted_witness :
  exists a,
    keywordRun = Ok a
    /\ exists da,
         keywordDeclarationRun = Ok da
         /\ Analysis.uniqueColor a
            = Some (DeclarationAnalysis.uniqueColor da)
         /\ NoDup (DeclarationAnalysis.uniqueColor da)
         /\ StronglySorted ascending (DeclarationAnalysis.uniqueColor da).
Proof.
  destruct keywordRun as [a | e] eqn:Hrun;
    [| vm_compute in Hrun; discriminate Hrun].
  exists a. split; [reflexivity |].
  apply uniqueColor_distinct_sorted in Hrun.
  destruct Hrun as [r [da [_ [Hda [Hu [_ [Hnd [Hs _]]]]]]]].
  exists da. repeat split; assumption.
Defined.


Lemma uniqueFontFamily_distinct_sorted_witness :
  exists a,
    fontRun = Ok a
    /\ exists da,
         Analysis.uniqueFontFamily a
         = Some (DeclarationAnalysis.uniqueFontFamily da)
         /\ NoDup (DeclarationAnalysis.uniqueFontFamily da)
         /\ In "Arial" (DeclarationAnalysis.uniqueFontFamily da).
Proof.
  destruct fontRun as [a | e] eqn:Hrun;
    [| vm_compute in Hrun; discriminate Hrun].
  exists a. split; [reflexivity |].
  apply uniqueFontFamily_distinct_sorted in Hrun.
  destruct Hrun as [da [_ [Hu [_ [Hnd [_ Hin]]]]]].
  exists da. split; [exact Hu |]. split; [exact Hnd |].
  apply Hin. exists (decl "font-family" "Arial !important" 3).
  split; [right; right; left; reflexivity | reflexivity].
Defined.


Lemma propertiesCount_most_frequent_witness :
  exists a,
    sheetRun = Ok a
    /\ Analysis.propertiesCount a
       = Some [PropertyCount.Make "color" (Num.Num 1)]
    /\ forall p c,
         In (PropertyCount.Make p c)
            [PropertyCount.Make "color" (Num.Num 1)] ->
         0 < occurrences p sheetDeclarations
         /\ c = Num.Num (occurrences p sheetDeclarations).
Proof.
  eexists.
  match goal with
  | |- _ = Ok ?a /\ _ =>
      assert (Hrun : sheetRun = Ok a) by (vm_compute; reflexivity)
  end.
  split; [exact Hrun |]. split; [reflexivity |].
  pose proof Hrun as H.
  eapply propertiesCount_most_frequent in H;
    [destruct H as [H _]; exact H | repeat constructor | reflexivity].
Defined.

Lemma inherited_name_aborts_witness :
  analyzeDeclarations Examples.RegExp (noGzip 10 ["transparent"])
                      inheritedDeclarations emptyMap
  = Throw TypeError.
Proof.
  apply (inherited_name_aborts Examples.RegExp (noGzip 10 ["transparent"])
           inheritedDeclarations emptyMap transparentPattern).
  - reflexivity.
  - intros g group item H. destruct H.
  - left. reflexivity.
Defined.

Lemma source_map_complete_witness :
  exists da,
    keywordDeclarationRun = Ok da
    /\ recorded "color" "#AABBCC" 3 (DeclarationAnalysis.sourceMap da).
Proof.
  destruct keywordDeclarationRun as [da | e] eqn:Hrun;
    [| vm_compute in Hrun; discriminate Hrun].
  exists da. split; [reflexivity |].
  apply source_map_complete in Hrun.
  destruct Hrun as [r [Hr [_ Hd]]].
  assert (Hp : newRegExp Examples.RegExp
                 (Some (namedColorsSource
                          (Options.namedColors (noGzip 10 ["transparent"]))))
                 "i" = Ok transparentPattern) by reflexivity.
  rewrite Hp in Hr. injection Hr as <-.
  destruct (Hd (decl "border-color" "#abc" 3)) as [_ [_ Hc]].
  - right. right. left. reflexivity.
  - apply (Hc "#AABBCC"). vm_compute. left. reflexivity.
Defined.

Lemma sources_listed_once_witness :
  exists da,
    keywordDeclarationRun = Ok da
    /\ noRepeats (DeclarationAnalysis.sourceMap da).
Proof.
  destruct keywordDeclarationRun as [da | e] eqn:Hrun;
    [| vm_compute in Hrun; discriminate Hrun].
  exists da. split; [reflexivity |].
  apply sources_listed_once in Hrun; [exact Hrun |].
  intros g group item sources H. destruct H.
Defined.

End MoreRuns.
